(** * open-market-watcher: the acquisition and cache pipeline of [main.py]

    A shallow embedding of the parts of [main.py] that fetch market data,
    average it, write it through to the SQLite cache and report progress:
    [init_db], [save_crypto_cache], [load_crypto_cache], [save_fiat_cache],
    [load_fiat_cache], [DataWorker.run], [DataWorker.stop], the date guard
    of [MarketApp.on_load], and what [MarketApp.plot_crypto] and
    [MarketApp.plot_fiat] draw.

    Modelling conventions.
    - A price or rate is an exact rational ([Qc]); a missing value (pandas
      NaN, SQL NULL, Python None) is [None].  The rounding of binary64
      arithmetic and its infinities are outside the model.
    - Text is a string of bytes; changes of case are those of ASCII text.
    - A [datetime.date] is a record of year, month and day; the cache stores
      its [isoformat] text and SQLite compares that text byte by byte.
    - A history [DataFrame] is the list of its rows, one (date, value) per
      row, in index order; [df.empty] is the empty list.
    - The two providers, faults of the cache file and calls of [stop()] by
      the controlling thread are an environment [Env] of oracles; signal
      emissions and network calls are recorded in the [trace] of the
      [RunState]. *)

From Stdlib Require Import String Ascii List ZArith Lia Bool Arith DecimalString.
From Stdlib Require Import QArith Qcanon.
From Stdlib Require Import Sorting.Sorted Sorting.Permutation.
Import ListNotations.

Local Open Scope string_scope.
Local Open Scope nat_scope.

(* ================================================================== *)
(** ** Results of fallible calls *)

(** A Python call either returns a value or raises an exception, of which
    the model keeps the message ([str(e)]). *)
Inductive result (A : Type) : Type :=
| Ok (a : A)
| Raise (msg : string).
Arguments Ok {A} a.
Arguments Raise {A} msg.

(* ================================================================== *)
(** ** Calendar dates ([datetime.date]) *)

Record Date : Type := mkDate { year : nat; month : nat; day : nat }.

Definition is_leap (y : nat) : bool :=
  (y mod 4 =? 0) && (negb (y mod 100 =? 0) || (y mod 400 =? 0)).

Definition days_in_month (y m : nat) : nat :=
  match m with
  | 1 => 31 | 2 => if is_leap y then 29 else 28 | 3 => 31 | 4 => 30
  | 5 => 31 | 6 => 30 | 7 => 31 | 8 => 31 | 9 => 30 | 10 => 31
  | 11 => 30 | 12 => 31
  | _ => 0
  end.

(** [datetime.MAXYEAR], 9999. *)
Definition MAXYEAR : nat := 99 * 101.

(** The invariant of every [datetime.date] object:
    [MINYEAR <= year <= MAXYEAR], [1 <= month <= 12],
    [1 <= day <= days in that month]. *)
Definition valid_dateb (d : Date) : bool :=
  (1 <=? year d) && (year d <=? MAXYEAR) &&
  (1 <=? month d) && (month d <=? 12) &&
  (1 <=? day d) && (day d <=? days_in_month (year d) (month d)).

Definition valid_date (d : Date) : Prop := valid_dateb d = true.

(** Comparison of dates: by year, then month, then day. *)
Definition date_compare (a b : Date) : comparison :=
  match year a ?= year b with
  | Eq => match month a ?= month b with
          | Eq => day a ?= day b
          | c => c
          end
  | c => c
  end.

(** The lexicographic combination of two comparisons. *)
Definition lex (c1 c2 : comparison) : comparison :=
  match c1 with Eq => c2 | _ => c1 end.

Definition date_leb (a b : Date) : bool :=
  match date_compare a b with Gt => false | _ => true end.

Definition date_ltb (a b : Date) : bool :=
  match date_compare a b with Lt => true | _ => false end.

Definition date_eqb (a b : Date) : bool :=
  (year a =? year b) && (month a =? month b) && (day a =? day b).

Definition date_le (a b : Date) : Prop := date_leb a b = true.
Definition date_lt (a b : Date) : Prop := date_ltb a b = true.

(** [d + timedelta(days=1)]. *)
Definition next_day (d : Date) : Date :=
  if day d <? days_in_month (year d) (month d)
  then mkDate (year d) (month d) (S (day d))
  else if month d <? 12
       then mkDate (year d) (S (month d)) 1
       else mkDate (S (year d)) 1 1.

(** A number that grows with the date. *)
Definition span (d : Date) : nat := 1000 * year d + 50 * month d + day d.

Fixpoint days_from (fuel : nat) (d stop : Date) : list Date :=
  match fuel with
  | 0 => []
  | S k => if date_leb d stop then d :: days_from k (next_day d) stop else []
  end.

(** [pd.date_range(start, end)] at the default daily frequency: [start],
    [start + 1 day], ... as long as the day is not after [end].  The fuel
    is more than the number of days between the two dates. *)
Definition date_range (start stop : Date) : list Date :=
  days_from (1000 * S (year stop - year start)) start stop.

(** *** The proleptic Gregorian ordinal and POSIX timestamps *)

Definition days_before_year (y : Z) : Z :=
  let y' := (y - 1)%Z in (y' * 365 + y' / 4 - y' / 100 + y' / 400)%Z.

Fixpoint days_before_month_aux (y m : nat) : nat :=
  match m with
  | 0 => 0
  | S k => days_before_month_aux y k + days_in_month y k
  end.

Definition days_before_month (y m : nat) : Z :=
  Z.of_nat (days_before_month_aux y m).

(** [date.toordinal()]: 0001-01-01 is day 1. *)
Definition toordinal (d : Date) : Z :=
  (days_before_year (Z.of_nat (year d))
   + days_before_month (year d) (month d) + Z.of_nat (day d))%Z.

(** [int(datetime(y, m, d, hh, mm, ss, tzinfo=timezone.utc).timestamp())]. *)
Definition utc_timestamp (d : Date) (hh mm ss : Z) : Z :=
  ((toordinal d - 719163) * 86400 + hh * 3600 + mm * 60 + ss)%Z.

(** [date.fromordinal(n)], following CPython's [_ord2ymd]. *)
Definition fromordinal (n0 : Z) : Date :=
  let n := (n0 - 1)%Z in
  let n400 := (n / 146097)%Z in let n := (n mod 146097)%Z in
  let n100 := (n / 36524)%Z in let n := (n mod 36524)%Z in
  let n4 := (n / 1461)%Z in let n := (n mod 1461)%Z in
  let n1 := (n / 365)%Z in let n := (n mod 365)%Z in
  let y := (n400 * 400 + 1 + n100 * 100 + n4 * 4 + n1)%Z in
  if (n1 =? 4)%Z || (n100 =? 4)%Z
  then mkDate (Z.to_nat (y - 1)) 12 31
  else
    let leapyear := (n1 =? 3)%Z && (negb (n4 =? 24)%Z || (n100 =? 3)%Z) in
    let yn := Z.to_nat y in
    let m := Z.to_nat (Z.shiftr (n + 50) 5) in
    let extra (b : bool) : Z := if b && leapyear then 1%Z else 0%Z in
    let preceding := (days_before_month 1 m + extra (2 <? m)%nat)%Z in
    if (n <? preceding)%Z
    then
      let m' := pred m in
      let preceding' :=
        (preceding - (Z.of_nat (days_in_month 1 m') + extra (m' =? 2)%nat))%Z in
      mkDate yn m' (Z.to_nat (n - preceding' + 1))
    else mkDate yn m (Z.to_nat (n - preceding + 1)).

(** [pd.to_datetime(ms, unit="ms")], of which the pipeline keeps the
    calendar day (UTC): milliseconds since 1970-01-01.  This is the day of
    a sample that pandas can read.  An answer with a sample that it cannot
    read is an answer whose reading fails, [Raise] in [Env]; and a day
    that is no date of [datetime.date] (a year after 9999) cannot be
    saved, so what is stated of the saved histories is stated of histories
    of valid dates ([frame_dates_valid]). *)
Definition date_of_epoch_ms (ms : Z) : Date :=
  fromordinal (ms / 86400000 + 719163)%Z.

(** *** ISO text of a date *)

Definition digit (n : nat) : ascii := ascii_of_nat (48 + n).

(** ["%02d" % n] for [n < 100]. *)
Definition pad2 (n : nat) : string :=
  String (digit (n / 10 mod 10)) (String (digit (n mod 10)) EmptyString).

(** ["%04d" % n] for [n < 10000]. *)
Definition pad4 (n : nat) : string :=
  String (digit (n / 1000 mod 10))
    (String (digit (n / 100 mod 10))
       (String (digit (n / 10 mod 10))
          (String (digit (n mod 10)) EmptyString))).

(** [date.isoformat()]: ["%04d-%02d-%02d" % (year, month, day)]. *)
Definition isoformat (d : Date) : string :=
  pad4 (year d) ++ "-" ++ pad2 (month d) ++ "-" ++ pad2 (day d).

Definition digit_value (c : ascii) : option nat :=
  let n := nat_of_ascii c in
  if (48 <=? n) && (n <=? 57) then Some (n - 48) else None.

(** [pd.to_datetime] on a text of the cache: the inverse of [isoformat];
    any other text makes it raise. *)
Definition to_datetime (s : string) : result Date :=
  match s with
  | String y3 (String y2 (String y1 (String y0 (String "-"
      (String m1 (String m0 (String "-"
        (String d1 (String d0 EmptyString))))))))) =>
      match digit_value y3, digit_value y2, digit_value y1, digit_value y0,
            digit_value m1, digit_value m0, digit_value d1, digit_value d0
      with
      | Some a, Some b, Some c, Some e, Some f, Some g, Some h, Some i =>
          let d := mkDate (1000 * a + 100 * b + 10 * c + e)
                          (10 * f + g) (10 * h + i) in
          if valid_dateb d then Ok d
          else Raise ("time data " ++ s ++ " does not match format")
      | _, _, _, _, _, _, _, _ =>
          Raise ("time data " ++ s ++ " does not match format")
      end
  | _ => Raise ("time data " ++ s ++ " does not match format")
  end.

(* ================================================================== *)
(** ** Values, series and frames *)

(** A cell of a numeric column: a number, or missing (NaN / NULL / None). *)
Definition cell : Type := option Qc.

Definition Qc_of_nat (n : nat) : Qc := Q2Qc (inject_Z (Z.of_nat n)).
Definition Qc_of_Z (z : Z) : Qc := Q2Qc (inject_Z z).

(** [Series.dropna()]. *)
Fixpoint dropna (s : list cell) : list Qc :=
  match s with
  | [] => []
  | Some x :: rest => x :: dropna rest
  | None :: rest => dropna rest
  end.

Definition Qc_sum (l : list Qc) : Qc := fold_right Qcplus 0%Qc l.

(** The mean of a series without missing values; NaN when it is empty. *)
Definition mean (l : list Qc) : cell :=
  match l with
  | [] => None
  | _ :: _ => Some (Qc_sum l / Qc_of_nat (length l))%Qc
  end.

(** [Series.mean()]: missing values are skipped. *)
Definition series_mean (s : list cell) : cell := mean (dropna s).

(** A history frame: one (date, value) row per line, in index order. *)
Definition Frame : Type := list (Date * cell).

Definition column (df : Frame) : list cell := map snd df.

(** [df.empty]. *)
Definition empty {A : Type} (df : list A) : bool :=
  match df with [] => true | _ => false end.

(** [DataFrame.dropna()] on a frame with one value column. *)
Definition dropna_rows (df : Frame) : Frame :=
  filter (fun r => match snd r with Some _ => true | None => false end) df.

Definition date_min (a b : Date) : Date := if date_leb a b then a else b.
Definition date_max (a b : Date) : Date := if date_leb a b then b else a.

(** [df.set_index("timestamp").resample("1D").mean()]: one bin per calendar
    day from the earliest to the latest sample, holding the mean of the
    samples of that day (missing when the day has none). *)
Definition resample_1D_mean (samples : Frame) : Frame :=
  match samples with
  | [] => []
  | (d0, _) :: rest =>
      let first := fold_left date_min (map fst rest) d0 in
      let last := fold_left date_max (map fst rest) d0 in
      map (fun d =>
             (d, series_mean
                   (column (filter (fun s => date_eqb (fst s) d) samples))))
          (date_range first last)
  end.

(** Element-wise [1.0 / df["Close"]]; a missing value stays missing.  The
    reciprocal of a value other than zero is exact.  A value of zero is
    outside what the values of this development can say: binary64 gives an
    infinity there, which is no rational (the division of [Qc] gives [0]),
    so what is stated of reciprocal values is stated of frames without a
    zero ([nonzero_values]). *)
Definition reciprocal (df : Frame) : Frame :=
  map (fun r => (fst r, option_map (fun x => (1 / x)%Qc) (snd r))) df.

(** No value of the frame is zero. *)
Definition nonzero_values (df : Frame) : Prop :=
  forall x, In (Some x) (column df) -> x <> Q2Qc 0.

(* ================================================================== *)
(** ** The SQLite cache *)

(** A row of [crypto_prices] (coin_id, Date, price) or of [fiat_rates]
    (code, Date, Close). *)
Record Row : Type := mkRow
  { row_entity : string; row_date : string; row_value : cell }.

Definition table : Type := list Row.

(** The cache file; a table that was never created is [None]. *)
Record Database : Type := mkDatabase
  { crypto_prices : option table; fiat_rates : option table }.

Definition no_tables : Database := mkDatabase None None.

Definition create_if_not_exists (t : option table) : option table :=
  match t with
  | Some rows => Some rows
  | None => Some []
  end.

Definition init_db (db : Database) : Database :=
  mkDatabase (create_if_not_exists (crypto_prices db))
             (create_if_not_exists (fiat_rates db)).

(** Two rows collide on the primary key (entity, Date). *)
Definition same_key (a b : Row) : bool :=
  String.eqb (row_entity a) (row_entity b)
  && String.eqb (row_date a) (row_date b).

(** [INSERT OR REPLACE]: the rows that violate the primary key are deleted,
    then the new row is inserted. *)
Definition insert_or_replace (t : table) (r : Row) : table :=
  (filter (fun x => negb (same_key x r)) t ++ [r])%list.

Definition executemany (t : table) (rows : list Row) : table :=
  fold_left insert_or_replace rows t.

(** The rows the save functions build from a frame. *)
Definition rows_of_frame (entity : string) (df : Frame) : list Row :=
  map (fun r => mkRow entity (isoformat (fst r)) (snd r)) df.

(** [save_crypto_cache(coin_id, df)].  [fault] is the error, if any, that
    SQLite raises while the file is opened or written by this call. *)
Definition save_crypto_cache (fault : option string)
    (coin_id : string) (df : Frame) (db : Database) : result Database :=
  if empty df then Ok db
  else
    match fault with
    | Some e => Raise e
    | None =>
        match crypto_prices db with
        | None => Raise "no such table: crypto_prices"
        | Some t =>
            let rows := rows_of_frame coin_id df in
            if empty rows then Ok db
            else Ok (mkDatabase (Some (executemany t rows)) (fiat_rates db))
        end
    end.

(** [save_fiat_cache(code, df)]. *)
Definition save_fiat_cache (fault : option string)
    (code : string) (df : Frame) (db : Database) : result Database :=
  if empty df then Ok db
  else
    match fault with
    | Some e => Raise e
    | None =>
        match fiat_rates db with
        | None => Raise "no such table: fiat_rates"
        | Some t =>
            let rows := rows_of_frame code df in
            if empty rows then Ok db
            else Ok (mkDatabase (crypto_prices db) (Some (executemany t rows)))
        end
    end.

Fixpoint insert_by_date (r : Row) (l : list Row) : list Row :=
  match l with
  | [] => [r]
  | x :: rest =>
      if String.leb (row_date r) (row_date x) then r :: x :: rest
      else x :: insert_by_date r rest
  end.

(** [ORDER BY Date ASC]. *)
Fixpoint order_by_date (l : list Row) : list Row :=
  match l with
  | [] => []
  | r :: rest => insert_by_date r (order_by_date rest)
  end.

(** [SELECT Date, value FROM t WHERE entity = ? AND Date BETWEEN ? AND ?
    ORDER BY Date ASC]; the comparison of [Date] is that of TEXT. *)
Definition select_range (t : table) (entity lo hi : string) : list Row :=
  order_by_date
    (filter (fun r => String.eqb (row_entity r) entity
                      && String.leb lo (row_date r)
                      && String.leb (row_date r) hi) t).

(** [df["Date"] = pd.to_datetime(df["Date"])] over the selected rows. *)
Fixpoint parse_dates (rows : list Row) : result Frame :=
  match rows with
  | [] => Ok []
  | r :: rest =>
      match to_datetime (row_date r) with
      | Raise e => Raise e
      | Ok d =>
          match parse_dates rest with
          | Raise e => Raise e
          | Ok df => Ok ((d, row_value r) :: df)
          end
      end
  end.

(** [load_crypto_cache(coin_id, start_date, end_date)], on a readable
    cache file. *)
Definition load_crypto_cache (coin_id : string) (start_date end_date : Date)
    (db : Database) : result Frame :=
  match crypto_prices db with
  | None => Raise "no such table: crypto_prices"
  | Some t =>
      let df := select_range t coin_id (isoformat start_date)
                             (isoformat end_date) in
      if empty df then Ok [] else parse_dates df
  end.

(** [load_fiat_cache(code, start_date, end_date)]. *)
Definition load_fiat_cache (code : string) (start_date end_date : Date)
    (db : Database) : result Frame :=
  match fiat_rates db with
  | None => Raise "no such table: fiat_rates"
  | Some t =>
      let df := select_range t code (isoformat start_date)
                             (isoformat end_date) in
      if empty df then Ok [] else parse_dates df
  end.

(* ================================================================== *)
(** ** Text helpers *)

(** [str(n)] for a non-negative integer. *)
Definition str (n : nat) : string := NilZero.string_of_uint (Nat.to_uint n).

Definition upper_char (c : ascii) : ascii :=
  let n := nat_of_ascii c in
  if (97 <=? n) && (n <=? 122) then ascii_of_nat (n - 32) else c.

Definition lower_char (c : ascii) : ascii :=
  let n := nat_of_ascii c in
  if (65 <=? n) && (n <=? 90) then ascii_of_nat (n + 32) else c.

Fixpoint map_string (f : ascii -> ascii) (s : string) : string :=
  match s with
  | EmptyString => EmptyString
  | String c rest => String (f c) (map_string f rest)
  end.

(** [s.upper()] and [s.lower()] on ASCII text: the letters [a] to [z] and
    [A] to [Z] change case and every other character is kept.  Python's
    methods also map letters outside ASCII, which this text type does not
    have; what is stated of a text through these two functions is stated of
    ASCII text ([ascii_only]). *)
Definition upper (s : string) : string := map_string upper_char s.
Definition lower (s : string) : string := map_string lower_char s.

(** Every character is an ASCII character (below 128). *)
Fixpoint ascii_only (s : string) : bool :=
  match s with
  | EmptyString => true
  | String c rest => (nat_of_ascii c <? 128) && ascii_only rest
  end.

(** The line break of [f"...\n..."]. *)
Definition newline : string := String (ascii_of_nat 10) EmptyString.

(* ================================================================== *)
(** ** The environment of a run *)

(** An entry of the ranking: [coin.get("id")], [coin.get("name")]. *)
Record Coin : Type := mkCoin { coin_id : string; coin_name : string }.

(** A request sent over the network. *)
Inductive NetCall : Type :=
| CoinsMarkets (vs_currency order : string) (per_page page : nat)
| MarketChartRange (id vs_currency : string) (from_ts to_ts : Z)
| YfDownload (ticker : string) (start stop : Date).

(** What the pipeline does not control: the answers of the two providers
    ([Raise] for any failure of the call or of reading its answer), the
    faults of the cache file, and the moments at which the controlling
    thread calls [stop()]. *)
Record Env : Type := mkEnv
  { (** [cg.get_coins_markets(vs_currency, order, per_page, page)] *)
    get_coins_markets : string -> string -> nat -> nat -> result (list Coin);
    (** [cg.get_coin_market_chart_range_by_id(id, vs_currency, from, to)]:
        the ["prices"] samples, (epoch milliseconds, price) *)
    get_coin_market_chart_range_by_id :
      string -> string -> Z -> Z -> result (list (Z * cell));
    (** [yf.download(ticker, start, end)]: the [Close] column by date *)
    yf_download : string -> Date -> Date -> result Frame;
    (** the error SQLite raises when the rows of this entity are written *)
    sqlite_fault : string -> option string;
    (** whether [stop()] has been called by the time the pipeline reads the
        flag for the n-th time (n counted from 0 over the whole run) *)
    stop_called : nat -> bool;
    (** [traceback.format_exc()] while the exception whose text is the
        argument is handled *)
    format_exc : string -> string }.

(* ================================================================== *)
(** ** The worker *)

(** One entry of [result["cryptos"]] (keys id, name, avg_price, history) or
    of [result["fiats"]] (keys code, name, avg_rate, history). *)
Record AssetSummary : Type := mkSummary
  { asset : string; display_name : string; average : cell; history : Frame }.

Record AcquisitionResult : Type := mkResult
  { cryptos : list AssetSummary; fiats : list AssetSummary }.

(** What a run emits and sends, in order. *)
Inductive Event : Type :=
| Log (msg : string)
| Progress (current total : nat)
| Net (call : NetCall).

(** The terminal signal: [finished] with the result, or [error]. *)
Inductive Outcome : Type :=
| Finished (r : AcquisitionResult)
| Failed (msg : string).

Record DataWorker : Type := mkWorker
  { start_date : Date; end_date : Date; base_currency : string;
    _stopped : bool }.

(** [DataWorker.__init__]. *)
Definition new_worker (start stop : Date) (base : string) : DataWorker :=
  mkWorker start stop (upper base) false.

(** [DataWorker.stop]. *)
Definition stop (self : DataWorker) : DataWorker :=
  mkWorker (start_date self) (end_date self) (base_currency self) true.

(** The state a run threads through its steps. *)
Record RunState : Type := mkState
  { self : DataWorker;
    cache : Database;
    trace : list Event;
    polls : nat;
    acc : AcquisitionResult }.

Definition emit (e : Event) (st : RunState) : RunState :=
  mkState (self st) (cache st) (trace st ++ [e])%list (polls st) (acc st).

Definition emit_all (es : list Event) (st : RunState) : RunState :=
  mkState (self st) (cache st) (trace st ++ es)%list (polls st) (acc st).

Definition set_cache (db : Database) (st : RunState) : RunState :=
  mkState (self st) db (trace st) (polls st) (acc st).

Definition append_crypto (s : AssetSummary) (st : RunState) : RunState :=
  mkState (self st) (cache st) (trace st) (polls st)
    (mkResult (cryptos (acc st) ++ [s])%list (fiats (acc st))).

Definition append_fiat (s : AssetSummary) (st : RunState) : RunState :=
  mkState (self st) (cache st) (trace st) (polls st)
    (mkResult (cryptos (acc st)) (fiats (acc st) ++ [s])%list).

(** Reading [self._stopped]: a [stop()] of the controlling thread that was
    called in the meantime has set the flag. *)
Definition poll (env : Env) (st : RunState) : RunState :=
  mkState (if stop_called env (polls st) then stop (self st) else self st)
    (cache st) (trace st) (S (polls st)) (acc st).

(** [pd.DataFrame(prices, columns=["timestamp", "price"])] with the
    timestamps converted by [pd.to_datetime(..., unit="ms")]. *)
Definition frame_of_samples (prices : list (Z * cell)) : Frame :=
  map (fun p => (date_of_epoch_ms (fst p), snd p)) prices.

(** The [try] block of the crypto loop: the requests it sends, and the
    average and history it computes unless something raises. *)
Definition fetch_crypto (env : Env) (vs_currency : string) (from_ts to_ts : Z)
    (coin : Coin) : list NetCall * result (cell * Frame) :=
  ([MarketChartRange (coin_id coin) vs_currency from_ts to_ts],
   match get_coin_market_chart_range_by_id env (coin_id coin) vs_currency
           from_ts to_ts with
   | Raise e => Raise e
   | Ok prices =>
       let df := frame_of_samples prices in
       if negb (empty df) then
         let df := dropna_rows (resample_1D_mean df) in
         let avg_price :=
           if negb (empty (column df)) then series_mean (column df)
           else None in
         Ok (avg_price, df)
       else Ok (None, [])
   end).

(** The fixed list of fiat currencies. *)
Definition fiat_list : list (string * string) :=
  [ ("EUR", "Euro"); ("JPY", "Japanese Yen"); ("GBP", "British Pound");
    ("AUD", "Australian Dollar"); ("CAD", "Canadian Dollar");
    ("CHF", "Swiss Franc"); ("CNY", "Chinese Yuan");
    ("HKD", "Hong Kong Dollar"); ("NZD", "New Zealand Dollar");
    ("BRL", "Brazilian Real") ].

(** The average and history of a downloaded frame (the direct one, or the
    inverted one after the reciprocal). *)
Definition summarise_rates (df : Frame) : cell * Frame :=
  if negb (empty df) then
    let close_series := dropna (column df) in
    ((if negb (empty close_series) then mean close_series else None), df)
  else (None, []).

(** The [try] block of the fiat loop. *)
Definition fetch_fiat (env : Env) (self : DataWorker) (code : string)
  : list NetCall * result (cell * Frame) :=
  if String.eqb code (base_currency self) then
    let idx_range := date_range (start_date self) (end_date self) in
    let df := map (fun d => (d, Some 1%Qc)) idx_range in
    ([], Ok (Some 1%Qc, df))
  else
    let ticker := code ++ base_currency self ++ "=X" in
    let direct := YfDownload ticker (start_date self) (end_date self) in
    match yf_download env ticker (start_date self) (end_date self) with
    | Raise e => ([direct], Raise e)
    | Ok df =>
        if empty df then
          let ticker_inv := base_currency self ++ code ++ "=X" in
          let inverse :=
            YfDownload ticker_inv (start_date self) (end_date self) in
          match yf_download env ticker_inv (start_date self) (end_date self)
          with
          | Raise e => ([direct; inverse], Raise e)
          | Ok df_inv =>
              let df := if negb (empty df_inv) then reciprocal df_inv
                        else [] in
              ([direct; inverse], Ok (summarise_rates df))
          end
        else ([direct], Ok (summarise_rates df))
    end.

(** The [try ... except] around a fetch: on an exception the failure is
    logged and the entity gets no average and an empty history. *)
Definition guarded (failed : string) (r : result (cell * Frame))
  : list Event * (cell * Frame) :=
  match r with
  | Ok data => ([], data)
  | Raise e => ([Log (failed ++ ": " ++ e)], (None, []))
  end.

(** The [try ... except] around a cache write. *)
Definition write_through (saved failed : string) (r : result Database)
    (st : RunState) : RunState :=
  match r with
  | Ok db => emit (Log saved) (set_cache db st)
  | Raise e => emit (Log (failed ++ ": " ++ e)) st
  end.

(** The body of the crypto loop after the flag has been read. *)
Definition crypto_step (env : Env) (vs_currency : string) (from_ts to_ts : Z)
    (total_coins idx : nat) (coin : Coin) (st : RunState) : RunState :=
  let coin_id := coin_id coin in
  let name := coin_name coin in
  let st := emit (Log ("Loading data for " ++ name ++ " (" ++ coin_id ++ ") ["
                       ++ str (idx + 1) ++ "/" ++ str total_coins ++ "]"))
                 st in
  let '(calls, r) := fetch_crypto env vs_currency from_ts to_ts coin in
  let st := emit_all (map Net calls) st in
  let '(logged, (avg_price, hist_df)) :=
    guarded ("Failed loading " ++ name) r in
  let st := emit_all logged st in
  let st :=
    write_through ("Saved cache for " ++ name)
      ("Failed saving cache for " ++ name)
      (save_crypto_cache (sqlite_fault env coin_id) coin_id hist_df
         (cache st)) st in
  let st := append_crypto (mkSummary coin_id name avg_price hist_df) st in
  emit (Progress (idx + 1) total_coins) st.

(** [for idx, coin in enumerate(top): if self._stopped: break ...]. *)
Fixpoint crypto_loop (env : Env) (vs_currency : string) (from_ts to_ts : Z)
    (total_coins idx : nat) (top : list Coin) (st : RunState) : RunState :=
  match top with
  | [] => st
  | coin :: rest =>
      let st := poll env st in
      if _stopped (self st) then st
      else crypto_loop env vs_currency from_ts to_ts total_coins (S idx) rest
             (crypto_step env vs_currency from_ts to_ts total_coins idx coin
                st)
  end.

(** The body of the fiat loop after the flag has been read. *)
Definition fiat_step (env : Env) (total_coins total_fiats total_steps idx : nat)
    (fiat : string * string) (st : RunState) : RunState :=
  let '(code, name) := fiat in
  let st := emit (Log ("Loading fiat data for " ++ name ++ " (" ++ code
                       ++ ") [" ++ str (idx + 1) ++ "/" ++ str total_fiats
                       ++ "]")) st in
  let '(calls, r) := fetch_fiat env (self st) code in
  let st := emit_all (map Net calls) st in
  let '(logged, (avg_rate, hist_df)) :=
    guarded ("Failed loading fiat " ++ name) r in
  let st := emit_all logged st in
  let st :=
    write_through ("Saved cache for fiat " ++ name)
      ("Failed saving cache for fiat " ++ name)
      (save_fiat_cache (sqlite_fault env code) code hist_df (cache st)) st in
  let st := append_fiat (mkSummary code name avg_rate hist_df) st in
  emit (Progress (total_coins + idx + 1) total_steps) st.

(** [for idx, (code, name) in enumerate(fiats): if self._stopped: break ...]. *)
Fixpoint fiat_loop (env : Env) (total_coins total_fiats total_steps idx : nat)
    (fiats : list (string * string)) (st : RunState) : RunState :=
  match fiats with
  | [] => st
  | fiat :: rest =>
      let st := poll env st in
      if _stopped (self st) then st
      else fiat_loop env total_coins total_fiats total_steps (S idx) rest
             (fiat_step env total_coins total_fiats total_steps idx fiat st)
  end.

(** The state in which [run] starts: an empty result, nothing emitted. *)
Definition start_state (w : DataWorker) (db : Database) : RunState :=
  mkState w db [] 0 (mkResult [] []).

(** [DataWorker.run]. *)
Definition run (env : Env) (w : DataWorker) (db : Database)
  : Outcome * RunState :=
  let st := start_state w db in
  let vs_currency := lower (base_currency w) in
  let st := emit (Net (CoinsMarkets vs_currency "market_cap_desc" 20 1)) st in
  match get_coins_markets env vs_currency "market_cap_desc" 20 1 with
  | Raise e =>
      let tb := format_exc env e in
      (Failed ("Error fetching data: " ++ e ++ newline ++ tb), st)
  | Ok top =>
      let total_coins := length top in
      let from_ts := utc_timestamp (start_date w) 0 0 0 in
      let to_ts := utc_timestamp (end_date w) 23 59 59 in
      let st := crypto_loop env vs_currency from_ts to_ts total_coins 0 top
                  st in
      let fiats := fiat_list in
      let total_fiats := length fiats in
      let total_steps := total_coins + total_fiats in
      let st := fiat_loop env total_coins total_fiats total_steps 0 fiats
                  st in
      (Finished (acc st), st)
  end.

(** [MarketApp.on_load]: the dates are checked, then a worker is created
    and started; [None] when the request is refused with a warning. *)
Definition on_load (env : Env) (start stop : Date) (base : string)
    (db : Database) : option (Outcome * RunState) :=
  if date_ltb stop start then None
  else Some (run env (new_worker start stop base) db).

(* ================================================================== *)
(** ** Notions used to state the properties of the cache *)

(** The primary key of a row. *)
Definition row_key (r : Row) : string * string := (row_entity r, row_date r).

Definition at_key (e d : string) (r : Row) : bool :=
  String.eqb (row_entity r) e && String.eqb (row_date r) d.

(** The rows a table holds under a key. *)
Definition rows_at (t : table) (e d : string) : list Row :=
  filter (at_key e d) t.

(** No two rows share a primary key. *)
Definition unique_keys (t : table) : Prop := NoDup (map row_key t).

(** Every [Date] text is the ISO text of a date. *)
Definition iso_dates (t : table) : Prop :=
  forall r, In r t -> exists d, valid_date d /\ row_date r = isoformat d.

Definition table_ok (t : table) : Prop := unique_keys t /\ iso_dates t.

(** An initialised cache whose tables satisfy their constraints. *)
Definition cache_ok (db : Database) : Prop :=
  exists tc tf, crypto_prices db = Some tc /\ fiat_rates db = Some tf
                /\ table_ok tc /\ table_ok tf.

(** The value most recently written under a key by a batch of rows. *)
Fixpoint last_write (rows : list Row) (e d : string) : option cell :=
  match rows with
  | [] => None
  | r :: rest =>
      match last_write rest e d with
      | Some v => Some v
      | None => if at_key e d r then Some (row_value r) else None
      end
  end.

(** A write to the cache: which table, which entity, which frame. *)
Inductive Write : Type :=
| WriteCrypto (coin_id : string) (df : Frame)
| WriteFiat (code : string) (df : Frame).

Definition apply_write (w : Write) (db : Database) : result Database :=
  match w with
  | WriteCrypto coin_id df => save_crypto_cache None coin_id df db
  | WriteFiat code df => save_fiat_cache None code df db
  end.

Fixpoint apply_writes (ws : list Write) (db : Database) : result Database :=
  match ws with
  | [] => Ok db
  | w :: rest =>
      match apply_write w db with
      | Ok db' => apply_writes rest db'
      | Raise e => Raise e
      end
  end.

(** The rows that a sequence of writes sends to each table, in order. *)
Fixpoint crypto_rows (ws : list Write) : list Row :=
  match ws with
  | [] => []
  | WriteCrypto coin_id df :: rest =>
      (rows_of_frame coin_id df ++ crypto_rows rest)%list
  | WriteFiat _ _ :: rest => crypto_rows rest
  end.

Fixpoint fiat_rows (ws : list Write) : list Row :=
  match ws with
  | [] => []
  | WriteFiat code df :: rest =>
      (rows_of_frame code df ++ fiat_rows rest)%list
  | WriteCrypto _ _ :: rest => fiat_rows rest
  end.

Definition frame_dates_valid (df : Frame) : Prop :=
  forall r, In r df -> valid_date (fst r).

Definition write_dates_valid (w : Write) : Prop :=
  match w with
  | WriteCrypto _ df => frame_dates_valid df
  | WriteFiat _ df => frame_dates_valid df
  end.

(** The order of [ORDER BY Date ASC] on rows. *)
Definition text_le (a b : Row) : Prop :=
  String.leb (row_date a) (row_date b) = true.

(** A frame whose rows go up strictly by date. *)
Definition ascending (df : Frame) : Prop :=
  Sorted (fun a b => date_lt (fst a) (fst b)) df.

(* ================================================================== *)
(** ** Notions used to state the properties of a run *)

(** The summary an entity gets from the outcome of its own fetch. *)
Definition summary_of (key name : string) (r : result (cell * Frame))
  : AssetSummary :=
  match r with
  | Ok (avg, hist) => mkSummary key name avg hist
  | Raise _ => mkSummary key name None []
  end.

Definition crypto_fetch (env : Env) (w : DataWorker) (coin : Coin)
  : list NetCall * result (cell * Frame) :=
  fetch_crypto env (lower (base_currency w))
    (utc_timestamp (start_date w) 0 0 0)
    (utc_timestamp (end_date w) 23 59 59) coin.

Definition crypto_summary (env : Env) (w : DataWorker) (coin : Coin)
  : AssetSummary :=
  summary_of (coin_id coin) (coin_name coin) (snd (crypto_fetch env w coin)).

Definition fiat_summary (env : Env) (w : DataWorker) (fiat : string * string)
  : AssetSummary :=
  summary_of (fst fiat) (snd fiat) (snd (fetch_fiat env w (fst fiat))).

(** How many of [n] readings of the stop flag, from the [p]-th on, come
    before the first one that follows a call of [stop()]. *)
Fixpoint run_length (env : Env) (p n : nat) : nat :=
  match n with
  | 0 => 0
  | S n' => if stop_called env p then 0 else S (run_length env (S p) n')
  end.

(** How many coins and how many currencies a run handles, given the length
    of the ranking. *)
Definition coins_handled (env : Env) (n : nat) : nat := run_length env 0 n.

Definition fiats_handled (env : Env) (n : nat) : nat :=
  if coins_handled env n <? n then 0
  else run_length env n (length fiat_list).

(** The ranking the provider answers to the request of a worker. *)
Definition ranking (env : Env) (w : DataWorker) : result (list Coin) :=
  get_coins_markets env (lower (base_currency w)) "market_cap_desc" 20 1.

(** Two workers with the same request. *)
Definition same_request (a b : DataWorker) : Prop :=
  start_date a = start_date b /\ end_date a = end_date b
  /\ base_currency a = base_currency b.

(** The progress events of a trace, in order. *)
Fixpoint progress_of (tr : list Event) : list (nat * nat) :=
  match tr with
  | [] => []
  | Progress c t :: rest => (c, t) :: progress_of rest
  | _ :: rest => progress_of rest
  end.

(** The network requests of a trace, in order. *)
Fixpoint requests_of (tr : list Event) : list NetCall :=
  match tr with
  | [] => []
  | Net c :: rest => c :: requests_of rest
  | _ :: rest => requests_of rest
  end.

(** The average a summary carries is the mean of its history. *)
Definition mean_of_history (s : AssetSummary) : Prop :=
  average s = series_mean (column (history s)).

(** The environment with another oracle for the faults of the cache file. *)
Definition with_fault (env : Env) (fault : string -> option string) : Env :=
  mkEnv (get_coins_markets env) (get_coin_market_chart_range_by_id env)
        (yf_download env) fault (stop_called env) (format_exc env).

(* ================================================================== *)
(** ** Sample data *)

Module Sample.

Definition jan (d : nat) : Date := mkDate 2024 1 d.

(** Milliseconds since the epoch of hour [h] of day [d] of January 2024. *)
Definition jan_ms (d h : Z) : Z := ((19722 + d) * 24 + h) * 3600000.

Definition q (z : Z) : cell := Some (Qc_of_Z z).

Definition two_coins : list Coin :=
  [mkCoin "bitcoin" "Bitcoin"; mkCoin "ethereum" "Ethereum"].

Definition twenty_coins : list Coin :=
  map (fun n => mkCoin ("coin-" ++ str n) ("Coin " ++ str n)) (seq 1 20).

(** Bitcoin has samples on two of three days, the chart of every other
    coin fails; only the inverted pair of the yen has data. *)
Definition charts (id vs : string) (from_ts to_ts : Z)
  : result (list (Z * cell)) :=
  if String.eqb id "bitcoin"
  then Ok [(jan_ms 1 0, q 100); (jan_ms 1 12, q 102); (jan_ms 3 0, q 110)]
  else Raise "coin not found".

Definition rates (ticker : string) (start stop : Date) : result Frame :=
  if String.eqb ticker "EURJPY=X" then Ok [(jan 1, q 2); (jan 2, q 4)]
  else if String.eqb ticker "GBPEUR=X" then Raise "connection reset"
  else Ok [].

Definition never (n : nat) : bool := false.
Definition no_fault (entity : string) : option string := None.
Definition locked (entity : string) : option string :=
  Some "database is locked".

Definition traceback (e : string) : string :=
  "Traceback (most recent call last):" ++ newline
  ++ "  File main.py, line 149, in run" ++ newline
  ++ "Exception: " ++ e ++ newline.

Definition env (top : list Coin) (stops : nat -> bool) : Env :=
  mkEnv (fun _ _ _ _ => Ok top) charts rates no_fault stops traceback.

Definition worker : DataWorker := new_worker (jan 1) (jan 3) "eur".

Definition fresh : Database := init_db no_tables.

End Sample.

(** A cache after an earlier run: two days of bitcoin, one of the yen. *)
Definition sample_cache : Database :=
  match apply_writes
          [WriteCrypto "bitcoin"
             [(Sample.jan 1, Sample.q 101); (Sample.jan 3, Sample.q 110)];
           WriteFiat "JPY" [(Sample.jan 2, None)]]
          Sample.fresh with
  | Ok db => db
  | Raise _ => no_tables
  end.

(* ================================================================== *)
(** ** Further notions for the cache *)

(** The rows of a table that belong to other entities, in table order. *)
Definition rows_of_others (entity : string) (t : table) : table :=
  filter (fun r => negb (String.eqb (row_entity r) entity)) t.

(** Whether a batch of rows writes the key of a row. *)
Definition written_by (rows : list Row) (x : Row) : bool :=
  existsb (same_key x) rows.

(** Whether a date lies in a range, both ends included. *)
Definition in_range (start stop d : Date) : bool :=
  date_leb start d && date_leb d stop.

(* ================================================================== *)
(** ** Further notions for a run *)

(** The cache after a write inside its [try ... except]: a write that
    fails leaves the cache as it was. *)
Definition keep_or (db : Database) (r : result Database) : Database :=
  match r with
  | Ok db' => db'
  | Raise _ => db
  end.

(** The cache after the write-through of the histories of some coins. *)
Definition after_crypto_saves (env : Env) (w : DataWorker)
    (coins : list Coin) (db : Database) : Database :=
  fold_left
    (fun db c =>
       keep_or db
         (save_crypto_cache (sqlite_fault env (coin_id c)) (coin_id c)
            (history (crypto_summary env w c)) db))
    coins db.

(** The cache after the write-through of the histories of some fiats. *)
Definition after_fiat_saves (env : Env) (w : DataWorker)
    (fiats0 : list (string * string)) (db : Database) : Database :=
  fold_left
    (fun db fiat =>
       keep_or db
         (save_fiat_cache (sqlite_fault env (fst fiat)) (fst fiat)
            (history (fiat_summary env w fiat)) db))
    fiats0 db.

(** The writes of the histories of some coins and fiats, in order. *)
Definition history_writes (env : Env) (w : DataWorker) (coins : list Coin)
    (fiats0 : list (string * string)) : list Write :=
  (map (fun c => WriteCrypto (coin_id c) (history (crypto_summary env w c)))
       coins
   ++ map (fun fiat => WriteFiat (fst fiat)
                         (history (fiat_summary env w fiat))) fiats0)%list.

(* ================================================================== *)
(** ** The charts of [MarketApp] *)

(** What a chart request ends in: a message box and nothing drawn, or a
    curve through the points, with a title, a label of the value axis
    and, when there is one, a horizontal line at the average.  (The text
    of the legend of that line, which formats the average, is left out.) *)
Inductive Chart : Type :=
| MessageBox (title text : string)
| Plot (points : list (Date * Qc)) (title ylabel : string)
       (average_line : option Qc).

(** [ax.plot(x.iloc[:len(y)], y)] where [y] is the value column without
    its missing values: the values are paired, by position, with the
    first dates of the frame. *)
Definition plotted_points (df : Frame) : list (Date * Qc) :=
  let y := dropna (column df) in
  combine (firstn (length y) (map fst df)) y.

(** The part of [plot_crypto] and [plot_fiat] after the frame is chosen. *)
Definition draw (df : Frame) (no_data : string) (title ylabel : string)
    (avg : cell) : Chart :=
  if empty df then MessageBox "No data" no_data
  else
    let y := dropna (column df) in
    if empty y then
      MessageBox "No numeric data"
        "Historical data exists but contains no numeric values to plot."
    else Plot (plotted_points df) title ylabel avg.

(** [MarketApp.plot_crypto(coin)], with the dates and the currency that
    the window shows when the chart is asked for. *)
Definition plot_crypto (start stop : Date) (currency : string)
    (coin : AssetSummary) (db : Database) : result Chart :=
  let df := history coin in
  let loaded :=
    if empty df then load_crypto_cache (asset coin) start stop db
    else Ok df in
  match loaded with
  | Raise e => Raise e
  | Ok df =>
      Ok (draw df
            ("No historical data available for this crypto in the "
             ++ "selected period (and cache).")
            (display_name coin ++ " price (" ++ currency ++ ")")
            ("Price (" ++ currency ++ ")")
            (average coin))
  end.

(** [MarketApp.plot_fiat(cur)]. *)
Definition plot_fiat (currency : string) (cur : AssetSummary) : Chart :=
  draw (history cur)
    ("No historical data available for this currency in the "
     ++ "selected period (and cache).")
    (display_name cur ++ " rate (" ++ currency ++ ")")
    ("Rate (" ++ currency ++ ")")
    (average cur).

(** The rows of a frame that hold a value, in order. *)
Fixpoint present_rows (df : Frame) : list (Date * Qc) :=
  match df with
  | [] => []
  | (d, Some x) :: rest => (d, x) :: present_rows rest
  | (_, None) :: rest => present_rows rest
  end.

(** No missing value comes before a value. *)
Fixpoint missing_at_end (df : Frame) : Prop :=
  match df with
  | [] => True
  | (_, Some _) :: rest => missing_at_end rest
  | (_, None) :: rest => dropna (column rest) = []
  end.

(* ================================================================== *)
(** * Properties *)

(** ** The definitions on sample inputs *)

Example isoformat_sample :
  isoformat (mkDate 2024 1 3) = "2024-01-03".
Proof. reflexivity. Qed.

Example to_datetime_sample :
  to_datetime "2024-01-03" = Ok (mkDate 2024 1 3).
Proof. reflexivity. Qed.

Example date_of_epoch_ms_sample :
  date_of_epoch_ms 1704067200000 = mkDate 2024 1 1
  /\ date_of_epoch_ms 1709251199999 = mkDate 2024 2 29
  /\ date_of_epoch_ms 0 = mkDate 1970 1 1
  /\ date_of_epoch_ms 951868800000 = mkDate 2000 3 1.
Proof. repeat split; vm_compute; reflexivity. Qed.

Example utc_timestamp_sample :
  utc_timestamp (mkDate 2024 1 1) 0 0 0 = 1704067200%Z
  /\ utc_timestamp (mkDate 2024 1 3) 23 59 59 = 1704326399%Z.
Proof. split; vm_compute; reflexivity. Qed.

Example date_range_sample :
  date_range (mkDate 2024 2 28) (mkDate 2024 3 1)
  = [mkDate 2024 2 28; mkDate 2024 2 29; mkDate 2024 3 1].
Proof. vm_compute. reflexivity. Qed.

(** The scenario of the specification: samples on the 1st and the 3rd of
    January only; the day without sample is dropped, the average is that of
    the two daily values. *)
Example resample_scenario :
  dropna_rows
    (resample_1D_mean
       (frame_of_samples [(Sample.jan_ms 1 0, Sample.q 100);
                          (Sample.jan_ms 3 0, Sample.q 110)]))
  = [(Sample.jan 1, Sample.q 100); (Sample.jan 3, Sample.q 110)]
  /\ series_mean [Sample.q 100; Sample.q 110] = Sample.q 105.
Proof.
  split.
  - vm_compute. repeat f_equal; apply Qc_is_canon; reflexivity.
  - unfold series_mean, Sample.q. cbn [dropna mean]. f_equal.
    apply Qc_is_canon. reflexivity.
Qed.

(** ** Dates and their ISO text *)

Lemma valid_date_bounds (d : Date) :
  valid_date d ->
  1 <= year d <= MAXYEAR /\ 1 <= month d <= 12
  /\ 1 <= day d <= days_in_month (year d) (month d).
Proof.
  unfold valid_date, valid_dateb. intros H.
  repeat (apply andb_prop in H; destruct H as [H ?]).
  repeat match goal with
         | h : (_ <=? _) = true |- _ => apply Nat.leb_le in h
         end.
  lia.
Qed.

Lemma days_in_month_le_31 (y m : nat) : days_in_month y m <= 31.
Proof.
  unfold days_in_month.
  do 13 (destruct m as [|m]; [try destruct (is_leap y); lia|]). lia.
Qed.

Lemma days_in_month_ge_28 (y m : nat) :
  1 <= m <= 12 -> 28 <= days_in_month y m.
Proof.
  intros H. unfold days_in_month.
  do 13 (destruct m as [|m]; [try destruct (is_leap y); lia|]). lia.
Qed.

Lemma valid_day_le_31 (d : Date) : valid_date d -> day d <= 31.
Proof.
  intros H. apply valid_date_bounds in H.
  pose proof (days_in_month_le_31 (year d) (month d)). lia.
Qed.

Lemma date_compare_lex (a b : Date) :
  date_compare a b
  = lex (year a ?= year b) (lex (month a ?= month b) (day a ?= day b)).
Proof.
  unfold date_compare, lex.
  destruct (year a ?= year b); try reflexivity.
  destruct (month a ?= month b); reflexivity.
Qed.

Lemma compare_scaled (k q1 r1 q2 r2 : nat) :
  r1 < k -> r2 < k ->
  (k * q1 + r1 ?= k * q2 + r2) = lex (q1 ?= q2) (r1 ?= r2).
Proof.
  intros H1 H2. unfold lex.
  destruct (Nat.compare_spec q1 q2) as [E|L|G].
  - subst q2.
    destruct (Nat.compare_spec r1 r2) as [E|L|G].
    + subst. apply Nat.compare_refl.
    + apply Nat.compare_lt_iff. lia.
    + apply Nat.compare_gt_iff. lia.
  - apply Nat.compare_lt_iff. nia.
  - apply Nat.compare_gt_iff. nia.
Qed.

(** On valid dates the order of dates is the order of their spans. *)
Lemma span_compare (a b : Date) :
  valid_date a -> valid_date b ->
  date_compare a b = (span a ?= span b).
Proof.
  intros Ha Hb.
  pose proof (valid_day_le_31 a Ha). pose proof (valid_day_le_31 b Hb).
  apply valid_date_bounds in Ha, Hb.
  rewrite date_compare_lex. unfold span.
  rewrite <- !Nat.add_assoc.
  rewrite (compare_scaled 1000) by lia.
  f_equal.
  apply eq_sym, (compare_scaled 50); lia.
Qed.

Lemma date_compare_eq (a b : Date) : date_compare a b = Eq -> a = b.
Proof.
  rewrite date_compare_lex. unfold lex.
  destruct a as [ya ma da], b as [yb mb db]; simpl.
  destruct (Nat.compare_spec ya yb); try discriminate.
  destruct (Nat.compare_spec ma mb); try discriminate.
  destruct (Nat.compare_spec da db); try discriminate.
  intros _. subst. reflexivity.
Qed.

Lemma date_compare_refl (a : Date) : date_compare a a = Eq.
Proof. rewrite date_compare_lex, !Nat.compare_refl. reflexivity. Qed.

Lemma date_leb_span (a b : Date) :
  valid_date a -> valid_date b -> date_leb a b = (span a <=? span b).
Proof.
  intros Ha Hb. unfold date_leb. rewrite (span_compare a b Ha Hb).
  destruct (Nat.compare_spec (span a) (span b)) as [E|L|G];
    symmetry; try (apply Nat.leb_le; lia). apply Nat.leb_gt. lia.
Qed.

Lemma date_ltb_span (a b : Date) :
  valid_date a -> valid_date b -> date_ltb a b = (span a <? span b).
Proof.
  intros Ha Hb. unfold date_ltb. rewrite (span_compare a b Ha Hb).
  destruct (Nat.compare_spec (span a) (span b)) as [E|L|G];
    symmetry; try (apply Nat.ltb_ge; lia). apply Nat.ltb_lt. lia.
Qed.

Lemma span_inj (a b : Date) :
  valid_date a -> valid_date b -> span a = span b -> a = b.
Proof.
  intros Ha Hb E. apply date_compare_eq.
  rewrite (span_compare a b Ha Hb), E. apply Nat.compare_refl.
Qed.

Lemma digit_compare (a b : nat) :
  a < 10 -> b < 10 -> Ascii.compare (digit a) (digit b) = (a ?= b).
Proof.
  intros Ha Hb. unfold Ascii.compare, digit.
  rewrite Nnat.N2Nat.inj_compare. fold (nat_of_ascii (ascii_of_nat (48 + a))).
  fold (nat_of_ascii (ascii_of_nat (48 + b))).
  rewrite !nat_ascii_embedding by lia.
  destruct (Nat.compare_spec a b) as [E|L|G].
  - subst. apply Nat.compare_refl.
  - apply Nat.compare_lt_iff. lia.
  - apply Nat.compare_gt_iff. lia.
Qed.

Lemma string_compare_cons (c1 c2 : ascii) (s1 s2 : string) :
  String.compare (String c1 s1) (String c2 s2)
  = lex (Ascii.compare c1 c2) (String.compare s1 s2).
Proof. simpl. unfold lex. destruct (Ascii.compare c1 c2); reflexivity. Qed.

Lemma string_compare_app (s1 s2 t1 t2 : string) :
  String.length s1 = String.length s2 ->
  String.compare (s1 ++ t1) (s2 ++ t2)
  = lex (String.compare s1 s2) (String.compare t1 t2).
Proof.
  revert s2. induction s1 as [|c1 s1 IH]; intros [|c2 s2] E;
    try discriminate.
  - reflexivity.
  - simpl append. rewrite !string_compare_cons, IH by (simpl in E; lia).
    unfold lex. destruct (Ascii.compare c1 c2); reflexivity.
Qed.

Lemma string_compare_refl (s : string) : String.compare s s = Eq.
Proof.
  induction s as [|c s IH]; [reflexivity|].
  rewrite string_compare_cons, IH. unfold lex, Ascii.compare.
  rewrite N.compare_refl. reflexivity.
Qed.

Lemma div_mod_lt_10 (n k : nat) : n / k mod 10 < 10.
Proof. apply Nat.mod_upper_bound. lia. Qed.

Lemma lex_Eq_r (c : comparison) : lex c Eq = c.
Proof. destruct c; reflexivity. Qed.

Lemma digits2 (x : nat) : x < 100 -> x = 10 * (x / 10 mod 10) + x mod 10.
Proof.
  intros Hx.
  pose proof (Nat.div_mod_eq x 10).
  pose proof (Nat.div_mod_eq (x / 10) 10).
  pose proof (Nat.mod_upper_bound x 10).
  pose proof (Nat.mod_upper_bound (x / 10) 10).
  generalize dependent (x mod 10). generalize dependent (x / 10 mod 10).
  generalize dependent (x / 10 / 10). generalize dependent (x / 10).
  intros. lia.
Qed.

Lemma digits4 (x : nat) :
  x < 100 * 100 ->
  x = 1000 * (x / 1000 mod 10)
      + (100 * (x / 100 mod 10) + (10 * (x / 10 mod 10) + x mod 10)).
Proof.
  intros Hx.
  replace (x / 1000) with (x / 10 / 10 / 10)
    by (rewrite !Nat.Div0.div_div; reflexivity).
  replace (x / 100) with (x / 10 / 10)
    by (rewrite !Nat.Div0.div_div; reflexivity).
  pose proof (Nat.div_mod_eq x 10).
  pose proof (Nat.div_mod_eq (x / 10) 10).
  pose proof (Nat.div_mod_eq (x / 10 / 10) 10).
  pose proof (Nat.div_mod_eq (x / 10 / 10 / 10) 10).
  pose proof (Nat.mod_upper_bound x 10).
  pose proof (Nat.mod_upper_bound (x / 10) 10).
  pose proof (Nat.mod_upper_bound (x / 10 / 10) 10).
  pose proof (Nat.mod_upper_bound (x / 10 / 10 / 10) 10).
  generalize dependent (x mod 10). generalize dependent (x / 10 mod 10).
  generalize dependent (x / 10 / 10 mod 10).
  generalize dependent (x / 10 / 10 / 10 mod 10).
  generalize dependent (x / 10 / 10 / 10 / 10).
  generalize dependent (x / 10 / 10 / 10).
  generalize dependent (x / 10 / 10). generalize dependent (x / 10).
  intros. lia.
Qed.

Lemma pad2_compare (n m : nat) :
  n < 100 -> m < 100 -> String.compare (pad2 n) (pad2 m) = (n ?= m).
Proof.
  intros Hn Hm. unfold pad2.
  rewrite !string_compare_cons.
  rewrite !digit_compare
    by (apply div_mod_lt_10 || (apply Nat.mod_upper_bound; lia)).
  simpl String.compare. rewrite lex_Eq_r.
  rewrite <- (compare_scaled 10) by (apply Nat.mod_upper_bound; lia).
  rewrite <- (digits2 n Hn), <- (digits2 m Hm). reflexivity.
Qed.

Lemma pad4_compare (n m : nat) :
  n < 100 * 100 -> m < 100 * 100 ->
  String.compare (pad4 n) (pad4 m) = (n ?= m).
Proof.
  intros Hn Hm. unfold pad4.
  rewrite !string_compare_cons.
  rewrite !digit_compare
    by (apply div_mod_lt_10 || (apply Nat.mod_upper_bound; lia)).
  simpl String.compare. rewrite lex_Eq_r.
  assert (B : forall x, x mod 10 < 10)
    by (intros; apply Nat.mod_upper_bound; lia).
  rewrite <- (compare_scaled 10 (n / 10 mod 10)) by apply B.
  rewrite <- (compare_scaled 100 (n / 100 mod 10))
    by (pose proof (B n); pose proof (B m); pose proof (B (n / 10));
        pose proof (B (m / 10)); lia).
  rewrite <- (compare_scaled 1000 (n / 1000 mod 10))
    by (pose proof (B n); pose proof (B m); pose proof (B (n / 10));
        pose proof (B (m / 10)); pose proof (B (n / 100));
        pose proof (B (m / 100)); lia).
  rewrite <- (digits4 n Hn), <- (digits4 m Hm). reflexivity.
Qed.

Lemma pad4_length (n : nat) : String.length (pad4 n) = 4.
Proof. reflexivity. Qed.

Lemma pad2_length (n : nat) : String.length (pad2 n) = 2.
Proof. reflexivity. Qed.

(** The byte order of ISO texts is the order of the dates: this is what
    makes the TEXT comparisons of the cache queries comparisons of dates. *)
Lemma isoformat_compare (a b : Date) :
  valid_date a -> valid_date b ->
  String.compare (isoformat a) (isoformat b) = date_compare a b.
Proof.
  intros Ha Hb.
  pose proof (valid_day_le_31 a Ha). pose proof (valid_day_le_31 b Hb).
  apply valid_date_bounds in Ha, Hb. unfold MAXYEAR in *.
  unfold isoformat.
  rewrite string_compare_app by (rewrite !pad4_length; reflexivity).
  rewrite (string_compare_app "-" "-") by reflexivity.
  rewrite string_compare_app by (rewrite !pad2_length; reflexivity).
  rewrite (string_compare_app "-" "-") by reflexivity.
  rewrite pad4_compare, !pad2_compare by lia.
  rewrite date_compare_lex. reflexivity.
Qed.

Lemma isoformat_leb (a b : Date) :
  valid_date a -> valid_date b ->
  String.leb (isoformat a) (isoformat b) = date_leb a b.
Proof.
  intros Ha Hb. unfold String.leb, date_leb.
  rewrite isoformat_compare by assumption. reflexivity.
Qed.

Lemma isoformat_inj (a b : Date) :
  valid_date a -> valid_date b -> isoformat a = isoformat b -> a = b.
Proof.
  intros Ha Hb E. apply date_compare_eq.
  rewrite <- isoformat_compare, E by assumption.
  apply string_compare_refl.
Qed.

Lemma digit_value_digit (n : nat) : n < 10 -> digit_value (digit n) = Some n.
Proof.
  intros Hn. unfold digit_value, digit.
  rewrite nat_ascii_embedding by lia.
  replace (48 <=? 48 + n) with true by (symmetry; apply Nat.leb_le; lia).
  replace (48 + n <=? 57) with true by (symmetry; apply Nat.leb_le; lia).
  simpl. f_equal. lia.
Qed.

(** Reading back the text of a date gives the date. *)
Lemma to_datetime_isoformat (d : Date) :
  valid_date d -> to_datetime (isoformat d) = Ok d.
Proof.
  intros Hd. pose proof (valid_day_le_31 d Hd) as H31.
  pose proof (valid_date_bounds d Hd) as B. unfold MAXYEAR in B.
  unfold isoformat, pad4, pad2. cbn [append]. unfold to_datetime.
  assert (M : forall x, x mod 10 < 10)
    by (intros; apply Nat.mod_upper_bound; lia).
  rewrite !digit_value_digit by apply M.
  replace (mkDate _ _ _) with d.
  - rewrite Hd. reflexivity.
  - destruct d as [y m dd]; cbn [year month day] in *.
    pose proof (digits4 y). pose proof (digits2 m). pose proof (digits2 dd).
    f_equal; lia.
Qed.

(** ** The daily range *)

Lemma next_day_after (d : Date) : date_compare d (next_day d) = Lt.
Proof.
  rewrite date_compare_lex. unfold next_day.
  destruct (day d <? days_in_month (year d) (month d)); cbn [year month day].
  - rewrite !Nat.compare_refl. simpl.
    apply Nat.compare_lt_iff. lia.
  - destruct (month d <? 12); cbn [year month day].
    + rewrite Nat.compare_refl. simpl.
      replace (month d ?= S (month d)) with Lt; [reflexivity|].
      symmetry. apply Nat.compare_lt_iff. lia.
    + replace (year d ?= S (year d)) with Lt; [reflexivity|].
      symmetry. apply Nat.compare_lt_iff. lia.
Qed.

Lemma date_compare_antisym (a b : Date) :
  date_compare b a = CompOpp (date_compare a b).
Proof.
  rewrite !date_compare_lex.
  rewrite (Nat.compare_antisym (year a)), (Nat.compare_antisym (month a)),
    (Nat.compare_antisym (day a)).
  destruct (year a ?= year b), (month a ?= month b), (day a ?= day b);
    reflexivity.
Qed.

Lemma next_day_not_before (d : Date) : date_leb (next_day d) d = false.
Proof.
  unfold date_leb. rewrite date_compare_antisym, next_day_after. reflexivity.
Qed.

(** The day after a valid date that is not the last of all is valid, and no
    valid date lies strictly between the two. *)
Lemma next_day_least (d e : Date) :
  valid_date d -> valid_date e -> span d < span e ->
  valid_date (next_day d) /\ span d < span (next_day d) <= span e.
Proof.
  intros Hd He L.
  pose proof (valid_day_le_31 d Hd). pose proof (valid_day_le_31 e He).
  pose proof (valid_date_bounds d Hd) as Bd.
  pose proof (valid_date_bounds e He) as Be.
  pose proof (days_in_month_ge_28 (year d) (S (month d))) as G.
  destruct d as [y m dd], e as [y' m' dd'].
  unfold span, next_day, valid_date, valid_dateb in *.
  cbn [year month day] in *.
  destruct (Nat.ltb_spec dd (days_in_month y m)) as [D|D];
    cbn [year month day].
  - split; [|lia].
    repeat (apply andb_true_intro; split); apply Nat.leb_le; lia.
  - destruct (Nat.ltb_spec m 12) as [M|M]; cbn [year month day].
    + assert (y' = y -> m' = m -> False) by (intros; subst; lia).
      split; [|lia].
      repeat (apply andb_true_intro; split); apply Nat.leb_le; lia.
    + assert (m = 12) by lia. subst m.
      assert (y' = y -> m' = 12 -> False) by (intros; subst; lia).
      assert (y < y') by lia.
      split; [|lia].
      repeat (apply andb_true_intro; split); apply Nat.leb_le;
        simpl; lia.
Qed.

Lemma days_from_sound (e : Date) :
  valid_date e ->
  forall fuel s d, valid_date s -> In d (days_from fuel s e) ->
  valid_date d /\ span s <= span d <= span e.
Proof.
  intros He. induction fuel as [|k IH]; intros s d Hs Hin; [destruct Hin|].
  simpl in Hin. destruct (date_leb s e) eqn:L; [|destruct Hin].
  rewrite (date_leb_span s e Hs He) in L. apply Nat.leb_le in L.
  destruct Hin as [->|Hin]; [split; [assumption|lia]|].
  destruct (Nat.eq_dec (span s) (span e)) as [E|N].
  - apply (span_inj s e Hs He) in E. subst s.
    destruct k; [destruct Hin|]. simpl in Hin.
    rewrite next_day_not_before in Hin. destruct Hin.
  - destruct (next_day_least s e Hs He) as [V B]; [lia|].
    destruct (IH _ _ V Hin) as [Vd Bd]. split; [assumption|lia].
Qed.

Lemma days_from_complete (e : Date) :
  valid_date e ->
  forall fuel s d, valid_date s -> valid_date d ->
  span e < span s + fuel -> span s <= span d <= span e ->
  In d (days_from fuel s e).
Proof.
  intros He. induction fuel as [|k IH]; intros s d Hs Hd F B; [lia|].
  simpl. rewrite (date_leb_span s e Hs He).
  replace (span s <=? span e) with true by (symmetry; apply Nat.leb_le; lia).
  destruct (Nat.eq_dec (span s) (span d)) as [E|N].
  - left. apply span_inj; assumption.
  - right. destruct (next_day_least s d Hs Hd) as [V L]; [lia|].
    apply IH; try assumption; lia.
Qed.

(** [pd.date_range(start, end)] holds exactly the days from [start] to
    [end], both included. *)
Lemma date_range_spec (start stop d : Date) :
  valid_date start -> valid_date stop ->
  In d (date_range start stop)
  <-> valid_date d /\ date_le start d /\ date_le d stop.
Proof.
  intros Hs He. unfold date_range, date_le. split.
  - intros Hin. destruct (days_from_sound stop He _ _ _ Hs Hin) as [V B].
    rewrite (date_leb_span _ _ Hs V), (date_leb_span _ _ V He).
    repeat split; try assumption; apply Nat.leb_le; lia.
  - intros (V & L1 & L2).
    rewrite (date_leb_span _ _ Hs V) in L1.
    rewrite (date_leb_span _ _ V He) in L2.
    apply Nat.leb_le in L1, L2.
    apply days_from_complete; try assumption; [|lia].
    pose proof (valid_day_le_31 start Hs). pose proof (valid_day_le_31 stop He).
    apply valid_date_bounds in Hs, He. unfold span in *. lia.
Qed.

Lemma days_from_ascending (e : Date) (fuel : nat) (s : Date) :
  Sorted date_lt (days_from fuel s e).
Proof.
  revert s. induction fuel as [|k IH]; intros s; [constructor|].
  simpl. destruct (date_leb s e); [|constructor].
  constructor; [apply IH|].
  destruct k; [constructor|]. simpl.
  destruct (date_leb (next_day s) e); constructor.
  unfold date_lt, date_ltb. rewrite next_day_after. reflexivity.
Qed.

Lemma date_range_nonempty (start stop : Date) :
  date_le start stop -> date_range start stop <> [].
Proof.
  unfold date_range, date_le. intros L.
  destruct (1000 * S (year stop - year start)) as [|fuel] eqn:F; [lia|].
  cbn [days_from]. rewrite L. discriminate.
Qed.

(* ================================================================== *)
(** ** The cache tables *)

Lemma at_key_spec (e d : string) (r : Row) :
  at_key e d r = true <-> row_key r = (e, d).
Proof.
  unfold at_key, row_key. rewrite andb_true_iff, !String.eqb_eq.
  split; [intros [-> ->]; reflexivity | intros E; inversion E; auto].
Qed.

Lemma same_key_at_key (x r : Row) :
  same_key x r = at_key (row_entity r) (row_date r) x.
Proof. reflexivity. Qed.

Lemma at_key_row (e d : string) (r : Row) :
  at_key e d r = true -> r = mkRow e d (row_value r).
Proof.
  intros H. apply at_key_spec in H. destruct r as [e' d' v].
  unfold row_key in H. simpl in *. inversion H. reflexivity.
Qed.

Lemma at_key_same (e d : string) (x r : Row) :
  at_key e d r = true -> at_key e d x = same_key x r.
Proof.
  intros H. apply at_key_spec in H. unfold row_key in H. inversion H.
  reflexivity.
Qed.

(** What a key holds after one [INSERT OR REPLACE]. *)
Lemma rows_at_insert_or_replace (t : table) (r : Row) (e d : string) :
  rows_at (insert_or_replace t r) e d
  = if at_key e d r then [r] else rows_at t e d.
Proof.
  unfold insert_or_replace, rows_at. rewrite filter_app. simpl.
  destruct (at_key e d r) eqn:K.
  - replace (filter (at_key e d) (filter _ t)) with (@nil Row);
      [reflexivity|].
    symmetry. induction t as [|x t IH]; [reflexivity|]. simpl.
    rewrite <- (at_key_same e d x r K).
    destruct (at_key e d x) eqn:X; simpl; [assumption|].
    rewrite X. assumption.
  - rewrite app_nil_r.
    induction t as [|x t IH]; [reflexivity|]. simpl.
    destruct (same_key x r) eqn:S; simpl.
    + assert (at_key e d x = false) as ->; [|assumption].
      destruct (at_key e d x) eqn:X; [|reflexivity].
      apply at_key_spec in X. rewrite same_key_at_key in S.
      apply at_key_spec in S. rewrite S in X.
      assert (at_key e d r = true) by (apply at_key_spec; assumption).
      congruence.
    + destruct (at_key e d x); [f_equal|]; assumption.
Qed.

(** The primary key stays a key. *)
Lemma insert_or_replace_unique (t : table) (r : Row) :
  unique_keys t -> unique_keys (insert_or_replace t r).
Proof.
  unfold unique_keys, insert_or_replace. intros U.
  rewrite map_app. simpl. apply NoDup_app.
  - induction t as [|x t IH]; [constructor|]. simpl in *.
    inversion U as [|? ? N U']; subst.
    destruct (same_key x r); simpl; [auto|].
    constructor; [|auto].
    intros Hin. apply N. apply in_map_iff in Hin.
    destruct Hin as (y & E & Hy). apply filter_In in Hy.
    apply in_map_iff. exists y. tauto.
  - repeat constructor. intros [].
  - intros k Hin [<-|[]]. apply in_map_iff in Hin.
    destruct Hin as (y & E & Hy). apply filter_In in Hy.
    destruct Hy as [_ Hy]. rewrite same_key_at_key in Hy.
    assert (at_key (row_entity r) (row_date r) y = true)
      by (apply at_key_spec; assumption).
    rewrite H in Hy. discriminate.
Qed.

Lemma insert_or_replace_In (t : table) (r x : Row) :
  In x (insert_or_replace t r) <-> x = r \/ (In x t /\ same_key x r = false).
Proof.
  unfold insert_or_replace. rewrite in_app_iff, filter_In. simpl.
  rewrite negb_true_iff. intuition.
Qed.

Lemma executemany_unique (rows : list Row) (t : table) :
  unique_keys t -> unique_keys (executemany t rows).
Proof.
  revert t. induction rows as [|r rows IH]; intros t U; [assumption|].
  simpl. apply IH, insert_or_replace_unique, U.
Qed.

(** After a batch, a key that the batch wrote holds one row, with the value
    written last; a key it did not write holds what it held. *)
Lemma rows_at_executemany (rows : list Row) (t : table) (e d : string) :
  rows_at (executemany t rows) e d
  = match last_write rows e d with
    | Some v => [mkRow e d v]
    | None => rows_at t e d
    end.
Proof.
  revert t. induction rows as [|r rows IH]; intros t; [reflexivity|].
  simpl. rewrite IH. destruct (last_write rows e d); [reflexivity|].
  rewrite rows_at_insert_or_replace.
  destruct (at_key e d r) eqn:K; [|reflexivity].
  rewrite (at_key_row e d r K) at 1. reflexivity.
Qed.

Lemma last_write_app (r1 r2 : list Row) (e d : string) :
  last_write (r1 ++ r2) e d
  = match last_write r2 e d with
    | Some v => Some v
    | None => last_write r1 e d
    end.
Proof.
  induction r1 as [|r r1 IH]; simpl.
  - destruct (last_write r2 e d); reflexivity.
  - rewrite IH. destruct (last_write r2 e d); reflexivity.
Qed.

Lemma executemany_app (t : table) (r1 r2 : list Row) :
  executemany t (r1 ++ r2) = executemany (executemany t r1) r2.
Proof. apply fold_left_app. Qed.

Lemma executemany_iso_dates (rows : list Row) (t : table) :
  iso_dates t -> iso_dates rows -> iso_dates (executemany t rows).
Proof.
  revert t. induction rows as [|r rows IH]; intros t Ht Hr; [assumption|].
  simpl. apply IH.
  - intros x Hx. apply insert_or_replace_In in Hx.
    destruct Hx as [->|[Hx _]]; [apply Hr; left; reflexivity|auto].
  - intros x Hx. apply Hr. right. assumption.
Qed.

Lemma rows_of_frame_iso (entity : string) (df : Frame) :
  frame_dates_valid df -> iso_dates (rows_of_frame entity df).
Proof.
  intros V r Hr. apply in_map_iff in Hr. destruct Hr as (p & <- & Hp).
  exists (fst p). split; [apply V, Hp|reflexivity].
Qed.

Lemma save_crypto_cache_rows (coin_id : string) (df : Frame) (db : Database)
    (tc : table) :
  crypto_prices db = Some tc ->
  save_crypto_cache None coin_id df db
  = Ok (mkDatabase (Some (executemany tc (rows_of_frame coin_id df)))
                   (fiat_rates db)).
Proof.
  intros E. unfold save_crypto_cache. destruct db as [c f]. simpl in *.
  subst c. destruct df; reflexivity.
Qed.

Lemma save_fiat_cache_rows (code : string) (df : Frame) (db : Database)
    (tf : table) :
  fiat_rates db = Some tf ->
  save_fiat_cache None code df db
  = Ok (mkDatabase (crypto_prices db)
                   (Some (executemany tf (rows_of_frame code df)))).
Proof.
  intros E. unfold save_fiat_cache. destruct db as [c f]. simpl in *.
  subst f. destruct df; reflexivity.
Qed.

(** A sequence of writes on an initialised cache succeeds, and sends to
    each table the rows of its frames, in order. *)
Lemma apply_writes_rows (ws : list Write) (tc tf : table) :
  apply_writes ws (mkDatabase (Some tc) (Some tf))
  = Ok (mkDatabase (Some (executemany tc (crypto_rows ws)))
                   (Some (executemany tf (fiat_rows ws)))).
Proof.
  revert tc tf. induction ws as [|[c df|c df] ws IH]; intros tc tf;
    [reflexivity| |]; simpl.
  - rewrite (save_crypto_cache_rows c df (mkDatabase (Some tc) (Some tf)) tc
               eq_refl). simpl.
    rewrite IH, executemany_app. reflexivity.
  - rewrite (save_fiat_cache_rows c df (mkDatabase (Some tc) (Some tf)) tf
               eq_refl). simpl.
    rewrite IH, executemany_app. reflexivity.
Qed.

Lemma init_db_no_tables : init_db no_tables = mkDatabase (Some []) (Some []).
Proof. reflexivity. Qed.

Lemma init_db_idempotent (db : Database) : init_db (init_db db) = init_db db.
Proof. destruct db as [[c|] [f|]]; reflexivity. Qed.

Lemma init_db_keeps (tc tf : table) :
  init_db (mkDatabase (Some tc) (Some tf)) = mkDatabase (Some tc) (Some tf).
Proof. reflexivity. Qed.

(** ** Ordering the selected rows *)

Lemma insert_by_date_perm (r : Row) (l : list Row) :
  Permutation (insert_by_date r l) (r :: l).
Proof.
  induction l as [|x l IH]; simpl; [apply Permutation_refl|].
  destruct (String.leb (row_date r) (row_date x)); [apply Permutation_refl|].
  eapply Permutation_trans; [apply perm_skip, IH|apply perm_swap].
Qed.

Lemma order_by_date_perm (l : list Row) : Permutation (order_by_date l) l.
Proof.
  induction l as [|r l IH]; simpl; [constructor|].
  eapply Permutation_trans; [apply insert_by_date_perm|].
  apply perm_skip, IH.
Qed.

Lemma insert_by_date_sorted (r : Row) (l : list Row) :
  Sorted text_le l -> Sorted text_le (insert_by_date r l).
Proof.
  induction l as [|x l IH]; intros S; simpl.
  - repeat constructor.
  - destruct (String.leb (row_date r) (row_date x)) eqn:L.
    + constructor; [assumption|]. constructor. exact L.
    + inversion S as [|? ? S' H]; subst.
      constructor; [apply IH, S'|].
      assert (X : text_le x r).
      { destruct (String.leb_total (row_date r) (row_date x)) as [T|T];
          [congruence|exact T]. }
      destruct l as [|y l]; simpl; [constructor; exact X|].
      destruct (String.leb (row_date r) (row_date y)); constructor;
        [exact X|]. inversion H; assumption.
Qed.

Lemma order_by_date_sorted (l : list Row) : Sorted text_le (order_by_date l).
Proof.
  induction l as [|r l IH]; simpl; [constructor|].
  apply insert_by_date_sorted, IH.
Qed.

Lemma select_range_In (t : table) (e lo hi : string) (r : Row) :
  In r (select_range t e lo hi)
  <-> In r t /\ row_entity r = e
      /\ String.leb lo (row_date r) = true
      /\ String.leb (row_date r) hi = true.
Proof.
  unfold select_range. split.
  - intros H. apply (Permutation_in _ (order_by_date_perm _)) in H.
    apply filter_In in H. destruct H as [H P].
    rewrite !andb_true_iff, String.eqb_eq in P. tauto.
  - intros (H & E & L1 & L2).
    apply (Permutation_in _ (Permutation_sym (order_by_date_perm _))).
    apply filter_In. split; [assumption|].
    rewrite !andb_true_iff, String.eqb_eq. tauto.
Qed.

Lemma unique_dates_of_entity (t : table) (e : string) (P : Row -> bool) :
  unique_keys t -> (forall r, P r = true -> row_entity r = e) ->
  NoDup (map row_date (filter P t)).
Proof.
  unfold unique_keys. intros U HP.
  induction t as [|x t IH]; simpl; [constructor|].
  inversion U as [|? ? N U']; subst.
  destruct (P x) eqn:Px; [|auto]. simpl. constructor; [|auto].
  intros Hin. apply N. apply in_map_iff in Hin.
  destruct Hin as (y & E & Hy). apply filter_In in Hy. destruct Hy as [Hy Py].
  apply in_map_iff. exists y. split; [|assumption].
  unfold row_key. rewrite E, (HP _ Px), (HP _ Py). reflexivity.
Qed.

Lemma select_range_unique_dates (t : table) (e lo hi : string) :
  unique_keys t -> NoDup (map row_date (select_range t e lo hi)).
Proof.
  intros U. unfold select_range.
  eapply Permutation_NoDup.
  - apply Permutation_map, Permutation_sym, order_by_date_perm.
  - apply (unique_dates_of_entity t e); [assumption|].
    intros r P. rewrite !andb_true_iff, String.eqb_eq in P. tauto.
Qed.

(** Reading the dates of well-formed rows succeeds, row by row. *)
Lemma parse_dates_ok (rows : list Row) :
  iso_dates rows ->
  exists df,
    parse_dates rows = Ok df
    /\ Forall2 (fun r p => valid_date (fst p)
                           /\ row_date r = isoformat (fst p)
                           /\ row_value r = snd p) rows df.
Proof.
  induction rows as [|r rows IH]; intros I.
  - exists []. split; [reflexivity|constructor].
  - destruct IH as (df & E & F).
    { intros x Hx. apply I. right. assumption. }
    destruct (I r (or_introl eq_refl)) as (d & V & T).
    exists ((d, row_value r) :: df). split.
    + simpl. rewrite T, (to_datetime_isoformat d V), E. reflexivity.
    + constructor; [|assumption]. simpl. auto.
Qed.

Lemma parsed_ascending (rows : list Row) (df : Frame) :
  Forall2 (fun r p => valid_date (fst p)
                      /\ row_date r = isoformat (fst p)
                      /\ row_value r = snd p) rows df ->
  Sorted text_le rows -> NoDup (map row_date rows) -> ascending df.
Proof.
  unfold ascending. intros F. induction F as [|r p rows df (V & T & _) F IH];
    intros S N; [constructor|].
  inversion S as [|? ? S' H]; subst. simpl in N.
  inversion N as [|? ? Nin N']; subst.
  constructor; [apply IH; assumption|].
  destruct F as [|r' p' rows' df' (V' & T' & _) F']; constructor.
  inversion H as [|? ? L]; subst. unfold text_le in L.
  rewrite T, T', (isoformat_leb _ _ V V') in L.
  unfold date_lt, date_ltb. unfold date_leb in L.
  destruct (date_compare (fst p) (fst p')) eqn:C;
    [|reflexivity|discriminate].
  apply date_compare_eq in C. exfalso. apply Nin. left.
  rewrite T, T', C. reflexivity.
Qed.

Lemma Forall2_In_l {A B : Type} (R : A -> B -> Prop) (l : list A)
    (l' : list B) (x : A) :
  Forall2 R l l' -> In x l -> exists y, In y l' /\ R x y.
Proof.
  intros F. induction F as [|a b l l' Rab F IH]; intros Hin; [destruct Hin|].
  destruct Hin as [->|Hin]; [exists b; simpl; auto|].
  destruct (IH Hin) as (y & Hy & Ry). exists y. simpl. auto.
Qed.

Lemma Forall2_In_r {A B : Type} (R : A -> B -> Prop) (l : list A)
    (l' : list B) (y : B) :
  Forall2 R l l' -> In y l' -> exists x, In x l /\ R x y.
Proof.
  intros F. induction F as [|a b l l' Rab F IH]; intros Hin; [destruct Hin|].
  destruct Hin as [->|Hin]; [exists a; simpl; auto|].
  destruct (IH Hin) as (x & Hx & Rx). exists x. simpl. auto.
Qed.

(** The query of the load functions on one table: the rows of the entity
    whose date lies in the range, in ascending order of date. *)
Lemma load_table_spec (t : table) (e : string) (start stop : Date) :
  table_ok t -> valid_date start -> valid_date stop ->
  exists df,
    (let sel := select_range t e (isoformat start) (isoformat stop) in
     if empty sel then Ok [] else parse_dates sel) = Ok df
    /\ (forall d v,
          In (d, v) df
          <-> valid_date d /\ In (mkRow e (isoformat d) v) t
              /\ date_le start d /\ date_le d stop)
    /\ ascending df.
Proof.
  intros [U I] Vs Ve. cbv zeta.
  set (sel := select_range t e (isoformat start) (isoformat stop)).
  assert (Isel : iso_dates sel).
  { intros r Hr. apply select_range_In in Hr. apply I. tauto. }
  destruct (parse_dates_ok sel Isel) as (df & E & F).
  exists df. split; [|split].
  - destruct sel; [|exact E]. simpl in E. inversion E. reflexivity.
  - intros d v. split.
    + intros Hin.
      destruct (Forall2_In_r _ _ _ _ F Hin) as (r & Hr & V & T & X).
      simpl in V, T, X. apply select_range_In in Hr.
      destruct Hr as (Ht & Ee & L1 & L2).
      rewrite T in L1, L2.
      rewrite isoformat_leb in L1, L2 by assumption.
      repeat split; try assumption.
      destruct r as [re rd rv]. simpl in *. subst. assumption.
    + intros (V & Ht & L1 & L2).
      assert (Hs : In (mkRow e (isoformat d) v) sel).
      { apply select_range_In. simpl.
        rewrite !isoformat_leb by assumption. tauto. }
      destruct (Forall2_In_l _ _ _ _ F Hs) as ([d' v'] & Hp & V' & T & X).
      simpl in V', T, X. apply isoformat_inj in T; try assumption.
      subst. assumption.
  - apply (parsed_ascending sel df F).
    + apply order_by_date_sorted.
    + apply select_range_unique_dates, U.
Qed.

(* ================================================================== *)
(** ** One step of a loop *)

Lemma same_request_refl (w : DataWorker) : same_request w w.
Proof. repeat split. Qed.

Lemma same_request_stop (w : DataWorker) : same_request (stop w) w.
Proof. repeat split. Qed.

Lemma same_request_trans (a b c : DataWorker) :
  same_request a b -> same_request b c -> same_request a c.
Proof. unfold same_request. intuition congruence. Qed.

Lemma fetch_fiat_request (env : Env) (a b : DataWorker) (code : string) :
  same_request a b -> fetch_fiat env a code = fetch_fiat env b code.
Proof.
  intros (E1 & E2 & E3). unfold fetch_fiat. rewrite E1, E2, E3. reflexivity.
Qed.

Lemma guarded_summary (key name failed : string) (r : result (cell * Frame)) :
  mkSummary key name (fst (snd (guarded failed r)))
            (snd (snd (guarded failed r)))
  = summary_of key name r.
Proof. destruct r as [[avg hist]|e]; reflexivity. Qed.

Lemma write_through_acc (s f : string) (r : result Database) (st : RunState) :
  acc (write_through s f r st) = acc st
  /\ self (write_through s f r st) = self st
  /\ polls (write_through s f r st) = polls st.
Proof. destruct r; repeat split. Qed.

(** A step of the crypto loop appends the summary of its coin, and leaves
    the worker and the count of flag readings as they were. *)
Lemma crypto_step_acc (env : Env) (vs : string) (f t : Z) (total idx : nat)
    (coin : Coin) (st : RunState) :
  let st' := crypto_step env vs f t total idx coin st in
  acc st' = mkResult
              (cryptos (acc st)
               ++ [summary_of (coin_id coin) (coin_name coin)
                     (snd (fetch_crypto env vs f t coin))])%list
              (fiats (acc st))
  /\ self st' = self st /\ polls st' = polls st.
Proof.
  unfold crypto_step.
  destruct (fetch_crypto env vs f t coin) as [calls r]. cbn [snd].
  rewrite <- (guarded_summary _ _ ("Failed loading " ++ coin_name coin)).
  destruct (guarded ("Failed loading " ++ coin_name coin) r)
    as [logged [avg hist]].
  cbn [fst snd emit append_crypto acc self polls].
  match goal with
  | |- context [write_through ?s ?f ?r ?st] =>
      destruct (write_through_acc s f r st) as (-> & -> & ->)
  end.
  repeat split.
Qed.

Lemma fiat_step_acc (env : Env) (tc tf ts idx : nat) (fiat : string * string)
    (st : RunState) :
  let st' := fiat_step env tc tf ts idx fiat st in
  acc st' = mkResult (cryptos (acc st))
              (fiats (acc st)
               ++ [summary_of (fst fiat) (snd fiat)
                     (snd (fetch_fiat env (self st) (fst fiat)))])%list
  /\ self st' = self st /\ polls st' = polls st.
Proof.
  unfold fiat_step. destruct fiat as [code name]. cbn [fst snd].
  cbn [emit self].
  destruct (fetch_fiat env (self st) code) as [calls r]. cbn [snd].
  rewrite <- (guarded_summary _ _ ("Failed loading fiat " ++ name)).
  destruct (guarded ("Failed loading fiat " ++ name) r)
    as [logged [avg hist]].
  cbn [fst snd emit append_fiat acc self polls].
  match goal with
  | |- context [write_through ?s ?f ?r ?st] =>
      destruct (write_through_acc s f r st) as (-> & -> & ->)
  end.
  repeat split.
Qed.

(* ================================================================== *)
(** ** The two loops *)

Lemma poll_stopped (env : Env) (st : RunState) :
  _stopped (self st) = true -> _stopped (self (poll env st)) = true.
Proof.
  intros H. unfold poll. cbn [self].
  destruct (stop_called env (polls st)); [reflexivity|exact H].
Qed.

Lemma poll_request (env : Env) (st : RunState) :
  same_request (self (poll env st)) (self st).
Proof.
  unfold poll. cbn [self]. destruct (stop_called env (polls st));
    [apply same_request_stop|apply same_request_refl].
Qed.

(** Once the flag is set a loop does nothing but read it. *)
Lemma crypto_loop_stopped (env : Env) (vs : string) (f t : Z)
    (total idx : nat) (top : list Coin) (st : RunState) :
  _stopped (self st) = true ->
  let st' := crypto_loop env vs f t total idx top st in
  acc st' = acc st /\ trace st' = trace st /\ cache st' = cache st
  /\ _stopped (self st') = true /\ same_request (self st') (self st).
Proof.
  intros H. destruct top as [|coin rest]; cbn [crypto_loop].
  - repeat split. assumption.
  - rewrite (poll_stopped env st H). repeat split.
    + apply poll_stopped, H.
    + apply poll_request.
    + apply poll_request.
    + apply poll_request.
Qed.

Lemma fiat_loop_stopped (env : Env) (tc tf ts idx : nat)
    (fiats : list (string * string)) (st : RunState) :
  _stopped (self st) = true ->
  let st' := fiat_loop env tc tf ts idx fiats st in
  acc st' = acc st /\ trace st' = trace st /\ cache st' = cache st
  /\ _stopped (self st') = true /\ same_request (self st') (self st).
Proof.
  intros H. destruct fiats as [|fiat rest]; cbn [fiat_loop].
  - repeat split. assumption.
  - rewrite (poll_stopped env st H). repeat split.
    + apply poll_stopped, H.
    + apply poll_request.
    + apply poll_request.
    + apply poll_request.
Qed.

Lemma poll_flag (env : Env) (st : RunState) :
  _stopped (self (poll env st))
  = stop_called env (polls st) || _stopped (self st).
Proof.
  unfold poll. cbn [self]. destruct (stop_called env (polls st)); reflexivity.
Qed.

Lemma poll_running (env : Env) (st : RunState) :
  stop_called env (polls st) = false -> self (poll env st) = self st.
Proof. intros H. unfold poll. rewrite H. reflexivity. Qed.

Lemma poll_polls (env : Env) (st : RunState) :
  polls (poll env st) = S (polls st).
Proof. reflexivity. Qed.

Lemma poll_acc (env : Env) (st : RunState) : acc (poll env st) = acc st.
Proof. reflexivity. Qed.

Lemma result_eta (r : AcquisitionResult) :
  mkResult (cryptos r) (fiats r) = r.
Proof. destruct r; reflexivity. Qed.

Lemma ltb_succ (a b : nat) : (S a <? S b) = (a <? b).
Proof. reflexivity. Qed.

(** The crypto loop handles the coins in ranking order until the flag is
    found set; each handled coin contributes the summary of its own fetch. *)
Lemma crypto_loop_spec (env : Env) (vs : string) (f t : Z) (total : nat) :
  forall (top : list Coin) (idx : nat) (st : RunState),
  _stopped (self st) = false ->
  let k := run_length env (polls st) (length top) in
  let st' := crypto_loop env vs f t total idx top st in
  acc st' = mkResult
              (cryptos (acc st)
               ++ map (fun coin =>
                         summary_of (coin_id coin) (coin_name coin)
                           (snd (fetch_crypto env vs f t coin)))
                      (firstn k top))%list
              (fiats (acc st))
  /\ same_request (self st') (self st)
  /\ _stopped (self st') = (k <? length top)
  /\ polls st' = polls st + (if k <? length top then S k else k).
Proof.
  induction top as [|coin rest IH]; intros idx st H; cbn zeta.
  - cbn [crypto_loop length run_length firstn map].
    rewrite app_nil_r, result_eta.
    repeat split; [assumption|simpl; lia].
  - cbn [crypto_loop length run_length]. rewrite poll_flag, H, orb_false_r.
    destruct (stop_called env (polls st)) eqn:SC.
    + cbn [firstn map]. rewrite app_nil_r, result_eta, poll_flag, SC.
      split; [reflexivity|]. split; [apply poll_request|].
      split; [reflexivity|]. rewrite poll_polls. simpl. lia.
    + set (st0 := poll env st).
      destruct (crypto_step_acc env vs f t total idx coin st0)
        as (A & HS & P).
      set (st1 := crypto_step env vs f t total idx coin st0) in *.
      assert (E0 : self st0 = self st) by (apply poll_running, SC).
      assert (H1 : _stopped (self st1) = false)
        by (rewrite HS, E0; exact H).
      specialize (IH (S idx) st1 H1). cbn zeta in IH.
      rewrite P in IH. change (polls st0) with (S (polls st)) in IH.
      destruct IH as (A' & R' & S' & P').
      rewrite A in A'. cbn [cryptos fiats] in A'.
      change (acc st0) with (acc st) in A'.
      rewrite A', S', P', ltb_succ. cbn [firstn map].
      rewrite <- app_assoc. cbn [app].
      split; [reflexivity|]. split; [rewrite HS, E0 in R'; exact R'|].
      split; [reflexivity|]. destruct (_ <? _); lia.
Qed.

(** The fiat loop handles the currencies in list order until the flag is
    found set. *)
Lemma fiat_loop_spec (env : Env) (tc tf ts : nat) :
  forall (fiats0 : list (string * string)) (idx : nat) (st : RunState),
  _stopped (self st) = false ->
  let k := run_length env (polls st) (length fiats0) in
  let st' := fiat_loop env tc tf ts idx fiats0 st in
  acc st' = mkResult
              (cryptos (acc st))
              (fiats (acc st)
               ++ map (fiat_summary env (self st)) (firstn k fiats0))%list
  /\ same_request (self st') (self st)
  /\ _stopped (self st') = (k <? length fiats0)
  /\ polls st' = polls st + (if k <? length fiats0 then S k else k).
Proof.
  induction fiats0 as [|fiat rest IH]; intros idx st H; cbn zeta.
  - cbn [fiat_loop length run_length firstn map].
    rewrite app_nil_r, result_eta.
    repeat split; [assumption|simpl; lia].
  - cbn [fiat_loop length run_length]. rewrite poll_flag, H, orb_false_r.
    destruct (stop_called env (polls st)) eqn:SC.
    + cbn [firstn map]. rewrite app_nil_r, result_eta, poll_flag, SC.
      split; [reflexivity|]. split; [apply poll_request|].
      split; [reflexivity|]. rewrite poll_polls. simpl. lia.
    + set (st0 := poll env st).
      destruct (fiat_step_acc env tc tf ts idx fiat st0) as (A & HS & P).
      set (st1 := fiat_step env tc tf ts idx fiat st0) in *.
      assert (E0 : self st0 = self st) by (apply poll_running, SC).
      assert (H1 : _stopped (self st1) = false)
        by (rewrite HS, E0; exact H).
      specialize (IH (S idx) st1 H1). cbn zeta in IH.
      rewrite P in IH. change (polls st0) with (S (polls st)) in IH.
      destruct IH as (A' & R' & S' & P').
      rewrite HS, A in A'. cbn [cryptos fiats] in A'.
      change (acc st0) with (acc st) in A'. rewrite E0 in A'.
      rewrite A', S', P', ltb_succ. cbn [firstn map].
      rewrite <- app_assoc. cbn [app].
      split; [reflexivity|]. split; [rewrite HS, E0 in R'; exact R'|].
      split; [reflexivity|]. destruct (_ <? _); lia.
Qed.

(* ================================================================== *)
(** ** A whole run *)

(** A run whose ranking call fails ends in the [error] signal; any other
    run ends in [finished], whatever happens to its entities, with one
    summary per entity handled before the flag was found set. *)
Lemma run_spec (env : Env) (w : DataWorker) (db : Database) :
  _stopped w = false ->
  fst (run env w db)
  = match ranking env w with
    | Raise e =>
        Failed ("Error fetching data: " ++ e ++ newline ++ format_exc env e)
    | Ok top =>
        Finished
          (mkResult
             (map (crypto_summary env w)
                  (firstn (coins_handled env (length top)) top))
             (map (fiat_summary env w)
                  (firstn (fiats_handled env (length top)) fiat_list)))
    end.
Proof.
  intros H. unfold run, ranking.
  destruct (get_coins_markets env (lower (base_currency w))
              "market_cap_desc" 20 1) as [top|e]; [|reflexivity].
  cbn [fst]. f_equal.
  set (st0 := emit _ (start_state w db)).
  destruct (crypto_loop_spec env (lower (base_currency w))
              (utc_timestamp (start_date w) 0 0 0)
              (utc_timestamp (end_date w) 23 59 59)
              (length top) top 0 st0 H) as (A & R & F & P).
  set (st1 := crypto_loop _ _ _ _ _ _ _ _) in *.
  change (polls st0) with 0 in *. change (acc st0) with (mkResult [] []) in A.
  cbn [cryptos fiats app] in A.
  unfold fiats_handled, coins_handled.
  destruct (run_length env 0 (length top) <? length top) eqn:L.
  - destruct (fiat_loop_stopped env (length top) (length fiat_list)
                (length top + length fiat_list) 0 fiat_list st1 F)
      as (A' & _).
    rewrite A', A. reflexivity.
  - destruct (fiat_loop_spec env (length top) (length fiat_list)
                (length top + length fiat_list) fiat_list 0 st1 F)
      as (A' & _).
    rewrite A', A. cbn [cryptos fiats app].
    assert (K : run_length env 0 (length top) = length top).
    { apply Nat.ltb_ge in L.
      assert (forall p n, run_length env p n <= n) as B.
      { intros p n. revert p. induction n; intros p; simpl; [lia|].
        destruct (stop_called env p); [lia|]. specialize (IHn (S p)). lia. }
      specialize (B 0 (length top)). lia. }
    rewrite P, K. cbn [Nat.add].
    f_equal. apply map_ext_in. intros fiat _. unfold fiat_summary.
    rewrite (fetch_fiat_request env (self st1) w); [reflexivity|exact R].
Qed.

(* ================================================================== *)
(** ** What a run emits *)

Lemma requests_of_app (a b : list Event) :
  requests_of (a ++ b) = (requests_of a ++ requests_of b)%list.
Proof.
  induction a as [|[m|c t|c] a IH]; simpl; [reflexivity|assumption..|].
  rewrite IH. reflexivity.
Qed.

Lemma progress_of_app (a b : list Event) :
  progress_of (a ++ b) = (progress_of a ++ progress_of b)%list.
Proof.
  induction a as [|[m|c t|c] a IH]; simpl;
    [reflexivity|assumption| |assumption].
  rewrite IH. reflexivity.
Qed.

Lemma requests_of_nets (calls : list NetCall) :
  requests_of (map Net calls) = calls.
Proof. induction calls; simpl; [|f_equal]; auto. Qed.

Lemma progress_of_nets (calls : list NetCall) :
  progress_of (map Net calls) = [].
Proof. induction calls; simpl; auto. Qed.

Lemma guarded_events (failed : string) (r : result (cell * Frame)) :
  requests_of (fst (guarded failed r)) = []
  /\ progress_of (fst (guarded failed r)) = []
  /\ forall e, r = Raise e -> In (Log (failed ++ ": " ++ e))
                                 (fst (guarded failed r)).
Proof.
  destruct r as [d|e0]; simpl; repeat split; intros e E;
    [discriminate|inversion E; auto].
Qed.

Lemma write_through_trace (s f : string) (r : result Database)
    (st : RunState) :
  exists m, trace (write_through s f r st) = (trace st ++ [Log m])%list.
Proof. destruct r; eexists; reflexivity. Qed.

(** What a step of the crypto loop adds to the trace: the requests of its
    fetch, one progress update, and the log of a failed fetch. *)
Lemma crypto_step_trace (env : Env) (vs : string) (f t : Z) (total idx : nat)
    (coin : Coin) (st : RunState) :
  exists es,
    trace (crypto_step env vs f t total idx coin st) = (trace st ++ es)%list
    /\ requests_of es = fst (fetch_crypto env vs f t coin)
    /\ progress_of es = [(idx + 1, total)]
    /\ forall e, snd (fetch_crypto env vs f t coin) = Raise e ->
         In (Log ("Failed loading " ++ coin_name coin ++ ": " ++ e)) es.
Proof.
  unfold crypto_step.
  destruct (fetch_crypto env vs f t coin) as [calls r]. cbn [fst snd].
  destruct (guarded_events ("Failed loading " ++ coin_name coin) r)
    as (G1 & G2 & G3).
  destruct (guarded ("Failed loading " ++ coin_name coin) r)
    as [logged [avg hist]]. cbn [fst] in *.
  cbn [emit append_crypto trace].
  match goal with
  | |- context [write_through ?s ?f ?r ?st] =>
      destruct (write_through_trace s f r st) as (m & ->)
  end.
  cbn [emit emit_all trace].
  eexists. split; [rewrite <- !app_assoc; reflexivity|].
  cbn [app]. split; [|split].
  - simpl. rewrite requests_of_app, requests_of_nets, requests_of_app, G1.
    simpl. apply app_nil_r.
  - simpl. rewrite progress_of_app, progress_of_nets, progress_of_app, G2.
    reflexivity.
  - intros e E. right. apply in_or_app. right. apply in_or_app. left.
    apply G3, E.
Qed.

Lemma fiat_step_trace (env : Env) (tc tf ts idx : nat)
    (fiat : string * string) (st : RunState) :
  exists es,
    trace (fiat_step env tc tf ts idx fiat st) = (trace st ++ es)%list
    /\ requests_of es = fst (fetch_fiat env (self st) (fst fiat))
    /\ progress_of es = [(tc + idx + 1, ts)]
    /\ forall e, snd (fetch_fiat env (self st) (fst fiat)) = Raise e ->
         In (Log ("Failed loading fiat " ++ snd fiat ++ ": " ++ e)) es.
Proof.
  unfold fiat_step. destruct fiat as [code name]. cbn [fst snd emit self].
  destruct (fetch_fiat env (self st) code) as [calls r]. cbn [fst snd].
  destruct (guarded_events ("Failed loading fiat " ++ name) r)
    as (G1 & G2 & G3).
  destruct (guarded ("Failed loading fiat " ++ name) r)
    as [logged [avg hist]]. cbn [fst] in *.
  cbn [emit append_fiat trace].
  match goal with
  | |- context [write_through ?s ?f ?r ?st] =>
      destruct (write_through_trace s f r st) as (m & ->)
  end.
  cbn [emit emit_all trace].
  eexists. split; [rewrite <- !app_assoc; reflexivity|].
  cbn [app]. split; [|split].
  - simpl. rewrite requests_of_app, requests_of_nets, requests_of_app, G1.
    simpl. apply app_nil_r.
  - simpl. rewrite progress_of_app, progress_of_nets, progress_of_app, G2.
    reflexivity.
  - intros e E. right. apply in_or_app. right. apply in_or_app. left.
    apply G3, E.
Qed.

(** Nothing that was emitted is lost. *)
Lemma crypto_loop_keeps (env : Env) (vs : string) (f t : Z) (total : nat)
    (ev : Event) :
  forall top idx st,
  In ev (trace st) -> In ev (trace (crypto_loop env vs f t total idx top st)).
Proof.
  induction top as [|coin rest IH]; intros idx st H; [exact H|].
  cbn [crypto_loop]. destruct (_stopped (self (poll env st))); [exact H|].
  apply IH.
  destruct (crypto_step_trace env vs f t total idx coin (poll env st))
    as (es & -> & _).
  apply in_or_app. left. exact H.
Qed.

Lemma fiat_loop_keeps (env : Env) (tc tf ts : nat) (ev : Event) :
  forall fiats0 idx st,
  In ev (trace st) -> In ev (trace (fiat_loop env tc tf ts idx fiats0 st)).
Proof.
  induction fiats0 as [|fiat rest IH]; intros idx st H; [exact H|].
  cbn [fiat_loop]. destruct (_stopped (self (poll env st))); [exact H|].
  apply IH.
  destruct (fiat_step_trace env tc tf ts idx fiat (poll env st))
    as (es & -> & _).
  apply in_or_app. left. exact H.
Qed.

(** A handled coin whose fetch fails leaves its failure in the log. *)
Lemma crypto_loop_logs_failure (env : Env) (vs : string) (f t : Z)
    (total : nat) :
  forall top idx st i coin e,
  _stopped (self st) = false ->
  nth_error top i = Some coin ->
  i < run_length env (polls st) (length top) ->
  snd (fetch_crypto env vs f t coin) = Raise e ->
  In (Log ("Failed loading " ++ coin_name coin ++ ": " ++ e))
     (trace (crypto_loop env vs f t total idx top st)).
Proof.
  induction top as [|c rest IH]; intros idx st i coin e H N L E;
    [destruct i; discriminate|].
  cbn [crypto_loop length run_length] in *.
  rewrite poll_flag, H, orb_false_r.
  destruct (stop_called env (polls st)) eqn:SC; [lia|].
  destruct (crypto_step_trace env vs f t total idx c (poll env st))
    as (es & T & _ & _ & F).
  destruct (crypto_step_acc env vs f t total idx c (poll env st))
    as (_ & HS & P).
  destruct i as [|i].
  - inversion N; subst c. apply crypto_loop_keeps. rewrite T.
    apply in_or_app. right. apply F, E.
  - apply (IH _ _ i coin e); try assumption.
    + rewrite HS, (poll_running env st SC). exact H.
    + rewrite P, poll_polls. lia.
Qed.

Lemma fiat_loop_logs_failure (env : Env) (tc tf ts : nat) :
  forall fiats0 idx st i fiat e,
  _stopped (self st) = false ->
  nth_error fiats0 i = Some fiat ->
  i < run_length env (polls st) (length fiats0) ->
  snd (fetch_fiat env (self st) (fst fiat)) = Raise e ->
  In (Log ("Failed loading fiat " ++ snd fiat ++ ": " ++ e))
     (trace (fiat_loop env tc tf ts idx fiats0 st)).
Proof.
  induction fiats0 as [|c rest IH]; intros idx st i fiat e H N L E;
    [destruct i; discriminate|].
  cbn [fiat_loop length run_length] in *.
  rewrite poll_flag, H, orb_false_r.
  destruct (stop_called env (polls st)) eqn:SC; [lia|].
  destruct (fiat_step_trace env tc tf ts idx c (poll env st))
    as (es & T & _ & _ & F).
  destruct (fiat_step_acc env tc tf ts idx c (poll env st))
    as (_ & HS & P).
  rewrite (poll_running env st SC) in F.
  destruct i as [|i].
  - inversion N; subst c. apply fiat_loop_keeps. rewrite T.
    apply in_or_app. right. apply F, E.
  - apply (IH _ _ i fiat e); try assumption.
    + rewrite HS, (poll_running env st SC). exact H.
    + rewrite P, poll_polls. lia.
    + rewrite HS, (poll_running env st SC). exact E.
Qed.

(* ================================================================== *)
(** ** Averages *)

Lemma Qc_of_nat_succ (n : nat) : Qc_of_nat (S n) = (1 + Qc_of_nat n)%Qc.
Proof.
  apply Qc_is_canon. unfold Qc_of_nat, Qcplus. cbn [this Q2Qc].
  rewrite !Qred_correct, Nat2Z.inj_succ. unfold Z.succ.
  rewrite inject_Z_plus. ring.
Qed.

Lemma Qc_of_nat_nonzero (n : nat) : Qc_of_nat (S n) <> 0%Qc.
Proof.
  unfold Qc_of_nat. intros E. apply Q2Qc_eq_iff in E.
  unfold Qeq, inject_Z in E. simpl in E. lia.
Qed.

(** The mean of a non-empty series times its length is its sum. *)
Lemma mean_spec (l : list Qc) :
  match mean l with
  | None => l = []
  | Some m => l <> [] /\ (m * Qc_of_nat (length l) = Qc_sum l)%Qc
  end.
Proof.
  destruct l as [|x l]; [reflexivity|]. unfold mean. split; [discriminate|].
  unfold Qcdiv. rewrite <- Qcmult_assoc, (Qcmult_comm (/ _)).
  rewrite Qcmult_inv_r by apply Qc_of_nat_nonzero.
  apply Qcmult_1_r.
Qed.

(** A missing value does not change the mean, wherever it stands. *)
Lemma series_mean_skips_missing (s1 s2 : list cell) :
  series_mean (s1 ++ None :: s2) = series_mean (s1 ++ s2).
Proof.
  unfold series_mean. f_equal.
  induction s1 as [|[x|] s1 IH]; simpl; [reflexivity|f_equal|]; exact IH.
Qed.

Lemma Qc_sum_ones {A : Type} (l : list A) :
  Qc_sum (map (fun _ => 1%Qc) l) = Qc_of_nat (length l).
Proof.
  induction l as [|a l IH]; simpl.
  - apply Qc_is_canon. reflexivity.
  - rewrite IH, Qc_of_nat_succ. reflexivity.
Qed.

Lemma series_mean_ones {A : Type} (l : list A) :
  l <> [] -> series_mean (map (fun _ => Some 1%Qc) l) = Some 1%Qc.
Proof.
  intros N. unfold series_mean.
  assert (D : dropna (map (fun _ => Some 1%Qc) l) = map (fun _ => 1%Qc) l).
  { clear N. induction l as [|a l IH]; simpl; [|rewrite IH]; reflexivity. }
  rewrite D. destruct l as [|a l]; [contradiction|].
  unfold mean. cbn [map]. f_equal.
  change (1%Qc :: map (fun _ => 1%Qc) l) with (map (fun _ : A => 1%Qc) (a :: l)).
  rewrite Qc_sum_ones, length_map.
  unfold Qcdiv. apply Qcmult_inv_r, Qc_of_nat_nonzero.
Qed.

Lemma crypto_summary_mean (env : Env) (w : DataWorker) (coin : Coin) :
  mean_of_history (crypto_summary env w coin).
Proof.
  unfold mean_of_history, crypto_summary, crypto_fetch, fetch_crypto.
  cbn [snd].
  destruct (get_coin_market_chart_range_by_id _ _ _ _ _) as [prices|e];
    [|reflexivity].
  destruct (negb (empty (frame_of_samples prices))); [|reflexivity].
  cbn [summary_of average history].
  destruct (column _) eqn:C; reflexivity.
Qed.

Lemma summarise_rates_mean (df : Frame) :
  fst (summarise_rates df) = series_mean (column (snd (summarise_rates df))).
Proof.
  unfold summarise_rates. destruct df as [|r df]; [reflexivity|].
  cbn [empty negb fst snd]. unfold series_mean.
  destruct (dropna (column (r :: df))); reflexivity.
Qed.

Lemma summary_of_pair (key name : string) (p : cell * Frame) :
  summary_of key name (Ok p) = mkSummary key name (fst p) (snd p).
Proof. destruct p; reflexivity. Qed.

Lemma fiat_summary_mean (env : Env) (w : DataWorker)
    (fiat : string * string) :
  date_le (start_date w) (end_date w) ->
  mean_of_history (fiat_summary env w fiat).
Proof.
  intros L. unfold mean_of_history, fiat_summary, fetch_fiat.
  destruct (String.eqb (fst fiat) (base_currency w)).
  - cbn [snd summary_of average history]. unfold column.
    rewrite map_map. cbn [snd]. symmetry. apply series_mean_ones.
    apply date_range_nonempty, L.
  - destruct (yf_download env _ _ _) as [df|e]; [|reflexivity].
    destruct (empty df).
    + destruct (yf_download env _ _ _) as [df_inv|e]; [|reflexivity].
      cbn [snd]. rewrite summary_of_pair. cbn [average history].
      apply summarise_rates_mean.
    + cbn [snd]. rewrite summary_of_pair. cbn [average history].
      apply summarise_rates_mean.
Qed.

(* ================================================================== *)
(** ** The stop flag *)

Lemma run_length_le (env : Env) (n p : nat) : run_length env p n <= n.
Proof.
  revert p. induction n as [|n IH]; intros p; simpl; [lia|].
  destruct (stop_called env p); [lia|]. specialize (IH (S p)). lia.
Qed.

Lemma run_length_all (env : Env) (n p : nat) :
  (forall j, p <= j < p + n -> stop_called env j = false) ->
  run_length env p n = n.
Proof.
  revert p. induction n as [|n IH]; intros p H; simpl; [reflexivity|].
  rewrite (H p) by lia. f_equal. apply IH. intros j Hj. apply H. lia.
Qed.


Lemma never_stopped_handles_all (env : Env) (n : nat) :
  (forall j, stop_called env j = false) ->
  coins_handled env n = n /\ fiats_handled env n = length fiat_list.
Proof.
  intros H. unfold fiats_handled, coins_handled.
  rewrite !run_length_all by (intros; apply H).
  rewrite Nat.ltb_irrefl. split; reflexivity.
Qed.


(** ** Failures in the log of a run *)

Lemma run_state (env : Env) (w : DataWorker) (db : Database)
    (top : list Coin) :
  ranking env w = Ok top ->
  snd (run env w db)
  = fiat_loop env (length top) (length fiat_list)
      (length top + length fiat_list) 0 fiat_list
      (crypto_loop env (lower (base_currency w))
         (utc_timestamp (start_date w) 0 0 0)
         (utc_timestamp (end_date w) 23 59 59) (length top) 0 top
         (emit (Net (CoinsMarkets (lower (base_currency w))
                       "market_cap_desc" 20 1))
            (start_state w db))).
Proof. unfold run, ranking. intros ->. reflexivity. Qed.

Lemma run_logs_crypto_failure (env : Env) (w : DataWorker) (db : Database)
    (top : list Coin) (i : nat) (coin : Coin) (e : string) :
  _stopped w = false -> ranking env w = Ok top ->
  nth_error top i = Some coin -> i < coins_handled env (length top) ->
  snd (crypto_fetch env w coin) = Raise e ->
  In (Log ("Failed loading " ++ coin_name coin ++ ": " ++ e))
     (trace (snd (run env w db))).
Proof.
  intros H R N L E. rewrite (run_state env w db top R).
  apply fiat_loop_keeps.
  apply (crypto_loop_logs_failure _ _ _ _ _ top 0 _ i coin e);
    assumption.
Qed.

Lemma run_logs_fiat_failure (env : Env) (w : DataWorker) (db : Database)
    (top : list Coin) (i : nat) (fiat : string * string) (e : string) :
  _stopped w = false -> ranking env w = Ok top ->
  nth_error fiat_list i = Some fiat ->
  i < fiats_handled env (length top) ->
  snd (fetch_fiat env w (fst fiat)) = Raise e ->
  In (Log ("Failed loading fiat " ++ snd fiat ++ ": " ++ e))
     (trace (snd (run env w db))).
Proof.
  intros H R N L E. rewrite (run_state env w db top R).
  set (st0 := emit _ (start_state w db)).
  destruct (crypto_loop_spec env (lower (base_currency w))
              (utc_timestamp (start_date w) 0 0 0)
              (utc_timestamp (end_date w) 23 59 59)
              (length top) top 0 st0 H) as (_ & Rq & F & P).
  set (st1 := crypto_loop _ _ _ _ _ _ _ _) in *.
  change (polls st0) with 0 in *. change (self st0) with w in Rq.
  unfold fiats_handled, coins_handled in L.
  destruct (run_length env 0 (length top) <? length top) eqn:C; [lia|].
  assert (K : run_length env 0 (length top) = length top).
  { apply Nat.ltb_ge in C. pose proof (run_length_le env (length top) 0).
    lia. }
  rewrite K in P. cbn [Nat.add] in P.
  apply (fiat_loop_logs_failure _ _ _ _ fiat_list 0 st1 i fiat e);
    try assumption.
  - rewrite P. exact L.
  - rewrite (fetch_fiat_request env (self st1) w (fst fiat) Rq). exact E.
Qed.

(* ================================================================== *)
(** * The properties of the specification *)

(** ** The universe of a run *)

(** C1, as the code has it.  A run that is not cancelled and whose ranking
    call answers ends in [finished]; its result holds one crypto summary
    per entry of the ranking, in ranking order (hence 20 of them when the
    provider answers with the 20 entries that were asked for), and the 10
    fiat summaries of the fixed list, in list order. *)
Theorem run_summaries_follow_ranking (env : Env) (w : DataWorker)
    (db : Database) (top : list Coin) :
  _stopped w = false ->
  ranking env w = Ok top ->
  (forall n, stop_called env n = false) ->
  exists r,
    fst (run env w db) = Finished r
    /\ cryptos r = map (crypto_summary env w) top
    /\ map (fun s => (asset s, display_name s)) (cryptos r)
       = map (fun c => (coin_id c, coin_name c)) top
    /\ length (cryptos r) = length top
    /\ (length top = 20 -> length (cryptos r) = 20)
    /\ fiats r = map (fiat_summary env w) fiat_list
    /\ map (fun s => (asset s, display_name s)) (fiats r) = fiat_list
    /\ length (fiats r) = 10.
Proof.
  intros H R N.
  pose proof (run_spec env w db H) as S. rewrite R in S.
  destruct (never_stopped_handles_all env (length top) N) as [E1 E2].
  rewrite E1, E2, !firstn_all in S.
  eexists. split; [exact S|]. cbn [cryptos fiats].
  assert (A : forall l, map (fun s => (asset s, display_name s))
                          (map (crypto_summary env w) l)
                        = map (fun c => (coin_id c, coin_name c)) l).
  { intros l. rewrite map_map. apply map_ext. intros c.
    unfold crypto_summary.
    destruct (snd (crypto_fetch env w c)) as [[? ?]|?]; reflexivity. }
  assert (B : forall l, map (fun s => (asset s, display_name s))
                          (map (fiat_summary env w) l) = l).
  { intros l. rewrite map_map. rewrite <- (map_id l) at 2.
    apply map_ext. intros [c n]. unfold fiat_summary. cbn [fst snd].
    destruct (snd (fetch_fiat env w c)) as [[? ?]|?]; reflexivity. }
  split; [reflexivity|]. split; [apply A|].
  split; [apply length_map|].
  split; [intros E; rewrite length_map; exact E|].
  split; [reflexivity|]. split; [apply B|].
  rewrite length_map. reflexivity.
Qed.

Lemma run_summaries_follow_ranking_witness :
  exists r,
    fst (run (Sample.env Sample.two_coins Sample.never) Sample.worker
           Sample.fresh) = Finished r
    /\ map asset (cryptos r) = ["bitcoin"; "ethereum"]
    /\ length (fiats r) = 10.
Proof.
  destruct (run_summaries_follow_ranking
              (Sample.env Sample.two_coins Sample.never) Sample.worker
              Sample.fresh Sample.two_coins)
    as (r & E & C & _ & _ & _ & _ & _ & F).
  - reflexivity.
  - reflexivity.
  - intros n. reflexivity.
  - exists r. split; [exact E|]. split; [|exact F].
    rewrite C, map_map. reflexivity.
Defined.

(** C1 as it is written fails: a run with [start_date <= end_date] that is
    never cancelled, on a ranking of two coins, ends in [finished] with two
    crypto summaries, not 20. *)
Lemma run_twenty_cryptos_counterexample :
  ~ (forall (env : Env) (w : DataWorker) (db : Database) (r : AcquisitionResult),
        _stopped w = false ->
        date_le (start_date w) (end_date w) ->
        (forall n, stop_called env n = false) ->
        fst (run env w db) = Finished r ->
        length (cryptos r) = 20 /\ length (fiats r) = 10).
Proof.
  intros C.
  pose proof (run_spec (Sample.env Sample.two_coins Sample.never)
                Sample.worker Sample.fresh eq_refl) as E.
  change (ranking _ _) with (@Ok (list Coin) Sample.two_coins) in E.
  cbv iota in E.
  destruct (C (Sample.env Sample.two_coins Sample.never) Sample.worker
              Sample.fresh _ eq_refl eq_refl (fun _ => eq_refl) E) as [L _].
  cbn [cryptos] in L. rewrite length_map in L.
  vm_compute in L. discriminate L.
Qed.

(** ** Failures and cancellation *)

Lemma nth_error_map_firstn {A B : Type} (f : A -> B) (l : list A)
    (k i : nat) (x : A) :
  nth_error l i = Some x -> i < k ->
  nth_error (map f (firstn k l)) i = Some (f x).
Proof.
  revert k i. induction l as [|a l IH]; intros k i N L;
    [destruct i; discriminate|].
  destruct k as [|k]; [lia|]. destruct i as [|i]; simpl in *.
  - inversion N. reflexivity.
  - apply IH; [assumption|lia].
Qed.

(** C2.  Whatever its fetches do, a run whose ranking call answered ends in
    [finished], never in [error]; how many entities it handles depends on
    the stop flag alone; every handled entity gets the summary of its own
    fetch; and an entity whose fetch fails gets no average and an empty
    history, and its failure is in the log. *)
Theorem fetch_failure_stays_with_its_entity (env : Env) (w : DataWorker)
    (db : Database) (top : list Coin) :
  _stopped w = false ->
  ranking env w = Ok top ->
  exists r,
    fst (run env w db) = Finished r
    /\ cryptos r = map (crypto_summary env w)
                       (firstn (coins_handled env (length top)) top)
    /\ fiats r = map (fiat_summary env w)
                     (firstn (fiats_handled env (length top)) fiat_list)
    /\ ((forall n, stop_called env n = false) ->
        length (cryptos r) = length top /\ length (fiats r) = 10)
    /\ (forall i coin e,
          nth_error top i = Some coin ->
          i < coins_handled env (length top) ->
          snd (crypto_fetch env w coin) = Raise e ->
          nth_error (cryptos r) i
          = Some (mkSummary (coin_id coin) (coin_name coin) None [])
          /\ In (Log ("Failed loading " ++ coin_name coin ++ ": " ++ e))
                (trace (snd (run env w db))))
    /\ (forall i fiat e,
          nth_error fiat_list i = Some fiat ->
          i < fiats_handled env (length top) ->
          snd (fetch_fiat env w (fst fiat)) = Raise e ->
          nth_error (fiats r) i
          = Some (mkSummary (fst fiat) (snd fiat) None [])
          /\ In (Log ("Failed loading fiat " ++ snd fiat ++ ": " ++ e))
                (trace (snd (run env w db)))).
Proof.
  intros H R.
  pose proof (run_spec env w db H) as S. rewrite R in S.
  eexists. split; [exact S|]. cbn [cryptos fiats].
  split; [reflexivity|]. split; [reflexivity|]. split; [|split].
  - intros N.
    destruct (never_stopped_handles_all env (length top) N) as [E1 E2].
    rewrite E1, E2, !firstn_all, !length_map. split; reflexivity.
  - intros i coin e N L E. split.
    + rewrite (nth_error_map_firstn _ _ _ _ _ N L).
      unfold crypto_summary. rewrite E. reflexivity.
    + apply (run_logs_crypto_failure env w db top i); assumption.
  - intros i fiat e N L E. split.
    + rewrite (nth_error_map_firstn _ _ _ _ _ N L).
      unfold fiat_summary. rewrite E. reflexivity.
    + apply (run_logs_fiat_failure env w db top i); assumption.
Qed.

Lemma fetch_failure_stays_with_its_entity_witness :
  exists r,
    fst (run (Sample.env Sample.two_coins Sample.never) Sample.worker
           Sample.fresh) = Finished r
    /\ nth_error (cryptos r) 1
       = Some (mkSummary "ethereum" "Ethereum" None [])
    /\ In (Log "Failed loading Ethereum: coin not found")
          (trace (snd (run (Sample.env Sample.two_coins Sample.never)
                         Sample.worker Sample.fresh)))
    /\ length (fiats r) = 10.
Proof.
  destruct (fetch_failure_stays_with_its_entity
              (Sample.env Sample.two_coins Sample.never) Sample.worker
              Sample.fresh Sample.two_coins)
    as (r & E & _ & _ & L & C & _).
  - reflexivity.
  - reflexivity.
  - exists r. split; [exact E|].
    destruct (C 1 (mkCoin "ethereum" "Ethereum") "coin not found")
      as [N I].
    + reflexivity.
    + vm_compute. lia.
    + reflexivity.
    + split; [exact N|]. split; [exact I|].
      apply L. intros n. reflexivity.
Defined.





(** A run whose every cache write fails logs the failures and ends with
    the result of the run whose writes succeed. *)
Example cache_fault_is_logged :
  let env := Sample.env Sample.two_coins Sample.never in
  let out := run (with_fault env Sample.locked) Sample.worker Sample.fresh in
  In (Log "Failed saving cache for Bitcoin: database is locked")
     (trace (snd out))
  /\ cache (snd out) = Sample.fresh
  /\ fst out = fst (run env Sample.worker Sample.fresh).
Proof.
  cbv zeta. split; [|split].
  - vm_compute. repeat (try (left; reflexivity); right).
  - vm_compute. reflexivity.
  - vm_compute. reflexivity.
Qed.

(** ** Progress *)

(** C9 does not hold of the code.  On a ranking of 20 coins, never
    cancelled, the progress updates of the crypto phase are [(i, 20)] for
    [i] from 1 to 20, against the number of coins and not against
    [total_steps = 20 + 10]; only the updates of the fiat phase, [(i, 30)]
    for [i] from 21 to 30, continue the counter against [total_steps]. *)
Theorem crypto_progress_counts_against_coins :
  progress_of
    (trace (snd (run (Sample.env Sample.twenty_coins Sample.never)
                   Sample.worker Sample.fresh)))
  = (map (fun i => (i, 20)) (seq 1 20)
     ++ map (fun i => (i, 30)) (seq 21 10))%list.
Proof. vm_compute. reflexivity. Qed.

(** ** The fiat adapter *)

(** C7.  For the base currency itself nothing is downloaded: the fetch sends
    no request and yields the average 1 and a history that holds the value
    1 for every day from [start_date] to [end_date], both included, in
    ascending order; a step of the fiat loop for that currency adds no
    request to the trace and appends that summary. *)
Theorem base_currency_is_constant_one (env : Env) (tc tf ts idx : nat)
    (code name : string) (st : RunState) :
  code = base_currency (self st) ->
  valid_date (start_date (self st)) ->
  valid_date (end_date (self st)) ->
  let days := date_range (start_date (self st)) (end_date (self st)) in
  let st' := fiat_step env tc tf ts idx (code, name) st in
  fetch_fiat env (self st) code
  = ([], Ok (Some 1%Qc, map (fun d => (d, Some 1%Qc)) days))
  /\ (forall d, In d days
                <-> valid_date d /\ date_le (start_date (self st)) d
                    /\ date_le d (end_date (self st)))
  /\ Sorted date_lt days
  /\ requests_of (trace st') = requests_of (trace st)
  /\ fiats (acc st')
     = (fiats (acc st)
        ++ [mkSummary code name (Some 1%Qc)
              (map (fun d => (d, Some 1%Qc)) days)])%list.
Proof.
  intros E Vs Ve days st'.
  assert (F : fetch_fiat env (self st) code
              = ([], Ok (Some 1%Qc, map (fun d => (d, Some 1%Qc)) days))).
  { unfold fetch_fiat. rewrite E, String.eqb_refl. reflexivity. }
  split; [exact F|]. split; [|split; [|split]].
  - intros d. apply date_range_spec; assumption.
  - apply days_from_ascending.
  - destruct (fiat_step_trace env tc tf ts idx (code, name) st)
      as (es & T & Rq & _).
    cbn [fst] in Rq. rewrite F in Rq. cbn [fst] in Rq.
    unfold st'. rewrite T, requests_of_app, Rq. apply app_nil_r.
  - destruct (fiat_step_acc env tc tf ts idx (code, name) st) as (A & _).
    cbn [fst snd] in A. rewrite F in A. unfold st'. rewrite A. reflexivity.
Qed.

Lemma base_currency_is_constant_one_witness :
  fetch_fiat (Sample.env Sample.two_coins Sample.never) Sample.worker "EUR"
  = ([], Ok (Some 1%Qc,
             [(Sample.jan 1, Some 1%Qc); (Sample.jan 2, Some 1%Qc);
              (Sample.jan 3, Some 1%Qc)])).
Proof.
  apply (base_currency_is_constant_one
           (Sample.env Sample.two_coins Sample.never) 2 10 12 0 "EUR" "Euro"
           (start_state Sample.worker Sample.fresh)); reflexivity.
Defined.

(** C8.  For a currency other than the base, when the direct pair has no
    data the inverted pair is asked, and for a series of rates none of
    which is zero the history is the element-wise reciprocal of that
    series: the same dates, and at every date the number whose product
    with the inverted rate is 1 (a missing rate stays missing); it is
    empty when the series is empty; the average is the mean of that
    history and nothing is raised.  Series [2, 4] gives [1/2, 1/4]. *)
Theorem inverse_pair_gives_reciprocal (env : Env) (w : DataWorker)
    (code : string) (df_inv : Frame) :
  String.eqb code (base_currency w) = false ->
  yf_download env (code ++ base_currency w ++ "=X")
    (start_date w) (end_date w) = Ok [] ->
  yf_download env (base_currency w ++ code ++ "=X")
    (start_date w) (end_date w) = Ok df_inv ->
  nonzero_values df_inv ->
  snd (fetch_fiat env w code)
  = Ok (series_mean (column (reciprocal df_inv)), reciprocal df_inv)
  /\ map fst (reciprocal df_inv) = map fst df_inv
  /\ column (reciprocal df_inv)
     = map (option_map (fun x => (1 / x)%Qc)) (column df_inv)
  /\ Forall2 (fun inv rate =>
                match inv, rate with
                | Some x, Some y => (x * y = 1)%Qc
                | None, None => True
                | _, _ => False
                end)
       (column df_inv) (column (reciprocal df_inv))
  /\ (df_inv = [] ->
      snd (fetch_fiat env w code) = Ok (None, []))
  /\ column (reciprocal [(Sample.jan 1, Sample.q 2);
                         (Sample.jan 2, Sample.q 4)])
     = [Some (Q2Qc (1 # 2)); Some (Q2Qc (1 # 4))].
Proof.
  intros N D I Z.
  assert (F : snd (fetch_fiat env w code)
              = Ok (series_mean (column (reciprocal df_inv)),
                    reciprocal df_inv)).
  { unfold fetch_fiat. rewrite N, D. cbn [empty]. rewrite I. cbn [snd].
    destruct df_inv as [|r df]; [reflexivity|].
    cbn [empty negb]. f_equal.
    rewrite (surjective_pairing (summarise_rates _)).
    rewrite summarise_rates_mean. reflexivity. }
  split; [exact F|]. split; [|split; [|split; [|split]]].
  - unfold reciprocal. rewrite map_map. reflexivity.
  - unfold reciprocal, column. rewrite !map_map. reflexivity.
  - clear F I. unfold nonzero_values in Z.
    induction df_inv as [|[d v] df IH]; [constructor|].
    cbn [reciprocal column map fst snd] in *. constructor.
    + destruct v as [x|]; cbn [option_map]; [|exact I].
      rewrite Qcmult_comm. unfold Qcdiv. rewrite Qcmult_1_l.
      apply Qcmult_inv_l. apply Z. left. reflexivity.
    + apply IH. intros x Hx. apply Z. right. exact Hx.
  - intros ->. exact F.
  - cbn. repeat f_equal; apply Qc_is_canon; reflexivity.
Qed.

Lemma inverse_pair_gives_reciprocal_witness :
  snd (fetch_fiat (Sample.env Sample.two_coins Sample.never) Sample.worker
         "JPY")
  = Ok (series_mean
          (column (reciprocal [(Sample.jan 1, Sample.q 2);
                               (Sample.jan 2, Sample.q 4)])),
        reciprocal [(Sample.jan 1, Sample.q 2); (Sample.jan 2, Sample.q 4)]).
Proof.
  apply (inverse_pair_gives_reciprocal
           (Sample.env Sample.two_coins Sample.never) Sample.worker "JPY"
           [(Sample.jan 1, Sample.q 2); (Sample.jan 2, Sample.q 4)]);
    try reflexivity.
  intros x [E|[E|[]]]; inversion E; discriminate.
Defined.

(** ** Averages of the summaries *)

Lemma on_load_dates (env : Env) (start stop : Date) (base : string)
    (db : Database) (out : Outcome * RunState) :
  on_load env start stop base db = Some out ->
  date_le start stop /\ out = run env (new_worker start stop base) db.
Proof.
  unfold on_load, date_le, date_ltb, date_leb.
  rewrite (date_compare_antisym start stop).
  destruct (date_compare start stop); simpl; intros E;
    inversion E; split; reflexivity.
Qed.

(** C6.  In every summary of a run that [on_load] starts, the average is
    the mean of the values of the history that are not missing: it is
    missing when there is no such value, and otherwise it is the number
    that, multiplied by how many such values there are, gives their sum.
    Missing values do not count: [10, missing, 20] averages to 15, and
    [missing, missing] has no average. *)
Theorem average_is_mean_of_present_values (env : Env) (start stop : Date)
    (base : string) (db : Database) (r : AcquisitionResult) (st : RunState)
    (s : AssetSummary) :
  on_load env start stop base db = Some (Finished r, st) ->
  In s (cryptos r ++ fiats r) ->
  let present := dropna (column (history s)) in
  average s = series_mean (column (history s))
  /\ (present = [] -> average s = None)
  /\ (present <> [] ->
      exists m, average s = Some m
                /\ (m * Qc_of_nat (length present) = Qc_sum present)%Qc)
  /\ series_mean [Sample.q 10; None; Sample.q 20] = Sample.q 15
  /\ series_mean [None; None] = None.
Proof.
  intros L Hin present.
  destruct (on_load_dates _ _ _ _ _ _ L) as [D E].
  pose proof (run_spec env (new_worker start stop base) db eq_refl) as S.
  rewrite <- E in S. cbn [fst] in S.
  assert (M : mean_of_history s).
  { destruct (ranking env (new_worker start stop base)) as [top|e];
      [|discriminate].
    inversion S; subst r. cbn [cryptos fiats] in Hin.
    apply in_app_or in Hin. destruct Hin as [Hin|Hin];
      apply in_map_iff in Hin; destruct Hin as (x & <- & _).
    - apply crypto_summary_mean.
    - apply fiat_summary_mean. exact D. }
  unfold mean_of_history in M. split; [exact M|].
  unfold series_mean in M. fold present in M.
  pose proof (mean_spec present) as P. rewrite <- M in P.
  split; [|split; [|split]].
  - intros N. rewrite M, N. reflexivity.
  - intros N. destruct (average s) as [m|]; [|contradiction].
    exists m. split; [reflexivity|apply P].
  - unfold series_mean, Sample.q. cbn [dropna mean]. f_equal.
    apply Qc_is_canon. reflexivity.
  - reflexivity.
Qed.

Lemma average_is_mean_of_present_values_witness :
  exists s,
    asset s = "bitcoin"
    /\ average s = series_mean (column (history s))
    /\ average s = Some (Q2Qc (211 # 2)).
Proof.
  exists (crypto_summary (Sample.env Sample.two_coins Sample.never)
            Sample.worker (mkCoin "bitcoin" "Bitcoin")).
  split; [vm_compute; reflexivity|].
  destruct (average_is_mean_of_present_values
              (Sample.env Sample.two_coins Sample.never)
              (Sample.jan 1) (Sample.jan 3) "eur" Sample.fresh
              (match fst (run (Sample.env Sample.two_coins Sample.never)
                            Sample.worker Sample.fresh) with
               | Finished r => r
               | Failed _ => mkResult [] []
               end)
              (snd (run (Sample.env Sample.two_coins Sample.never)
                      Sample.worker Sample.fresh))
              (crypto_summary (Sample.env Sample.two_coins Sample.never)
                 Sample.worker (mkCoin "bitcoin" "Bitcoin")))
    as (M & _).
  - vm_compute. reflexivity.
  - vm_compute. left. reflexivity.
  - split; [exact M|]. vm_compute.
    first [reflexivity | f_equal; apply Qc_is_canon; reflexivity].
Defined.

(* ================================================================== *)
(** ** The cache *)

(** C4.  On an initialised cache whose tables have no duplicate key, any
    sequence of writes succeeds and leaves tables without duplicate keys;
    a key that was written, once or many times with the same or with
    different values, holds exactly one row, with the value written last;
    a key that was not written holds what it held. *)
Theorem upsert_last_write_wins (tc tf : table) (ws : list Write) :
  unique_keys tc -> unique_keys tf ->
  exists tc' tf',
    apply_writes ws (init_db (mkDatabase (Some tc) (Some tf)))
    = Ok (mkDatabase (Some tc') (Some tf'))
    /\ unique_keys tc' /\ unique_keys tf'
    /\ (forall e d v, last_write (crypto_rows ws) e d = Some v ->
                      rows_at tc' e d = [mkRow e d v])
    /\ (forall e d v, last_write (fiat_rows ws) e d = Some v ->
                      rows_at tf' e d = [mkRow e d v])
    /\ (forall e d, last_write (crypto_rows ws) e d = None ->
                    rows_at tc' e d = rows_at tc e d)
    /\ (forall e d, last_write (fiat_rows ws) e d = None ->
                    rows_at tf' e d = rows_at tf e d).
Proof.
  intros Uc Uf. rewrite init_db_keeps, apply_writes_rows.
  exists (executemany tc (crypto_rows ws)), (executemany tf (fiat_rows ws)).
  split; [reflexivity|].
  split; [apply executemany_unique, Uc|].
  split; [apply executemany_unique, Uf|].
  repeat split; intros e d; intros; rewrite rows_at_executemany;
    match goal with H : last_write _ _ _ = _ |- _ => rewrite H end;
    reflexivity.
Qed.

Lemma upsert_last_write_wins_witness :
  exists tc' tf',
    apply_writes
      [WriteCrypto "bitcoin" [(Sample.jan 1, Sample.q 100)];
       WriteCrypto "bitcoin" [(Sample.jan 1, Sample.q 100)];
       WriteFiat "JPY" [(Sample.jan 1, None)];
       WriteCrypto "bitcoin" [(Sample.jan 1, Sample.q 105)]]
      Sample.fresh
    = Ok (mkDatabase (Some tc') (Some tf'))
    /\ unique_keys tc'
    /\ rows_at tc' "bitcoin" "2024-01-01"
       = [mkRow "bitcoin" "2024-01-01" (Sample.q 105)].
Proof.
  destruct (upsert_last_write_wins [] []
              [WriteCrypto "bitcoin" [(Sample.jan 1, Sample.q 100)];
               WriteCrypto "bitcoin" [(Sample.jan 1, Sample.q 100)];
               WriteFiat "JPY" [(Sample.jan 1, None)];
               WriteCrypto "bitcoin" [(Sample.jan 1, Sample.q 105)]])
    as (tc' & tf' & E & U & _ & L & _).
  - constructor.
  - constructor.
  - exists tc', tf'. split; [exact E|]. split; [exact U|].
    apply L. reflexivity.
Defined.

Lemma cache_ok_fresh : cache_ok (init_db no_tables).
Proof.
  exists [], []. repeat split; try constructor; intros r [].
Qed.

Lemma executemany_table_ok (t : table) (entity : string) (df : Frame) :
  table_ok t -> frame_dates_valid df ->
  table_ok (executemany t (rows_of_frame entity df)).
Proof.
  intros [U I] V. split.
  - apply executemany_unique, U.
  - apply executemany_iso_dates; [exact I|apply rows_of_frame_iso, V].
Qed.

(** Writes of frames of dates keep a cache well formed. *)
Lemma apply_writes_ok (ws : list Write) (db : Database) :
  cache_ok db -> Forall write_dates_valid ws ->
  exists db', apply_writes ws db = Ok db' /\ cache_ok db'.
Proof.
  revert db. induction ws as [|w ws IH]; intros db O F.
  - exists db. split; [reflexivity|exact O].
  - inversion F as [|? ? V F']; subst.
    destruct O as (tc & tf & Ec & Ef & Oc & Of).
    cbn [apply_writes]. destruct w as [c df|c df]; cbn [apply_write].
    + rewrite (save_crypto_cache_rows c df db tc Ec).
      apply IH; [|exact F'].
      exists (executemany tc (rows_of_frame c df)), tf.
      split; [reflexivity|]. split; [exact Ef|].
      split; [apply executemany_table_ok; [exact Oc|exact V]|exact Of].
    + rewrite (save_fiat_cache_rows c df db tf Ef).
      apply IH; [|exact F'].
      exists tc, (executemany tf (rows_of_frame c df)).
      split; [exact Ec|]. split; [reflexivity|].
      split; [exact Oc|apply executemany_table_ok; [exact Of|exact V]].
Qed.

Lemma cache_ok_sample : cache_ok sample_cache.
Proof.
  unfold sample_cache.
  destruct (apply_writes_ok
              [WriteCrypto "bitcoin"
                 [(Sample.jan 1, Sample.q 101); (Sample.jan 3, Sample.q 110)];
               WriteFiat "JPY" [(Sample.jan 2, None)]]
              Sample.fresh cache_ok_fresh) as (db' & E & O).
  - constructor; [intros r [<-|[<-|[]]]; reflexivity|].
    constructor; [intros r [<-|[]]; reflexivity|]. constructor.
  - rewrite E. exact O.
Qed.

(** C5.  On an initialised cache whose tables are well formed, both load
    functions return, without error, exactly the rows of the entity whose
    date lies between [start_date] and [end_date], both included, in
    strictly ascending order of date; the result is empty when no row
    matches. *)
Theorem load_returns_rows_in_range (db : Database) (entity : string)
    (start stop : Date) :
  cache_ok db -> valid_date start -> valid_date stop ->
  exists tc tf dfc dff,
    crypto_prices db = Some tc /\ fiat_rates db = Some tf
    /\ load_crypto_cache entity start stop db = Ok dfc
    /\ load_fiat_cache entity start stop db = Ok dff
    /\ (forall d v,
          In (d, v) dfc
          <-> valid_date d /\ In (mkRow entity (isoformat d) v) tc
              /\ date_le start d /\ date_le d stop)
    /\ (forall d v,
          In (d, v) dff
          <-> valid_date d /\ In (mkRow entity (isoformat d) v) tf
              /\ date_le start d /\ date_le d stop)
    /\ ascending dfc /\ ascending dff
    /\ ((forall d v, valid_date d -> In (mkRow entity (isoformat d) v) tc ->
                     ~ (date_le start d /\ date_le d stop)) -> dfc = [])
    /\ ((forall d v, valid_date d -> In (mkRow entity (isoformat d) v) tf ->
                     ~ (date_le start d /\ date_le d stop)) -> dff = []).
Proof.
  intros (tc & tf & Ec & Ef & Oc & Of) Vs Ve.
  destruct (load_table_spec tc entity start stop Oc Vs Ve)
    as (dfc & Lc & Ic & Ac).
  destruct (load_table_spec tf entity start stop Of Vs Ve)
    as (dff & Lf & If & Af).
  exists tc, tf, dfc, dff.
  split; [exact Ec|]. split; [exact Ef|].
  split; [unfold load_crypto_cache; rewrite Ec; exact Lc|].
  split; [unfold load_fiat_cache; rewrite Ef; exact Lf|].
  split; [exact Ic|]. split; [exact If|].
  split; [exact Ac|]. split; [exact Af|].
  split; intros N.
  - destruct dfc as [|[d v] rest]; [reflexivity|]. exfalso.
    destruct (proj1 (Ic d v) (or_introl eq_refl)) as (V & R & L1 & L2).
    exact (N d v V R (conj L1 L2)).
  - destruct dff as [|[d v] rest]; [reflexivity|]. exfalso.
    destruct (proj1 (If d v) (or_introl eq_refl)) as (V & R & L1 & L2).
    exact (N d v V R (conj L1 L2)).
Qed.

Lemma load_returns_rows_in_range_witness :
  exists dfc,
    load_crypto_cache "bitcoin" (Sample.jan 2) (Sample.jan 9) sample_cache
    = Ok dfc
    /\ ascending dfc
    /\ In (Sample.jan 3, Sample.q 110) dfc.
Proof.
  destruct (load_returns_rows_in_range sample_cache "bitcoin"
              (Sample.jan 2) (Sample.jan 9))
    as (tc & tf & dfc & dff & Ec & _ & L & _ & I & _ & A & _).
  - exact cache_ok_sample.
  - reflexivity.
  - reflexivity.
  - exists dfc. split; [exact L|]. split; [exact A|].
    apply I. split; [reflexivity|].
    split; [|split; reflexivity].
    vm_compute in Ec. inversion Ec. right. left. reflexivity.
Defined.

(** ** Saving, then loading *)

Lemma Date_eq_dec (a b : Date) : {a = b} + {a <> b}.
Proof. decide equality; apply Nat.eq_dec. Qed.

Lemma date_lt_trans (a b c : Date) :
  date_lt a b -> date_lt b c -> date_lt a c.
Proof.
  unfold date_lt, date_ltb. rewrite !date_compare_lex. unfold lex.
  destruct a as [ya ma da], b as [yb mb db], c as [yc mc dc].
  cbn [year month day].
  destruct (Nat.compare_spec ya yb), (Nat.compare_spec yb yc),
    (Nat.compare_spec ma mb), (Nat.compare_spec mb mc),
    (Nat.compare_spec da db), (Nat.compare_spec db dc);
    try discriminate; intros _ _;
    destruct (Nat.compare_spec ya yc), (Nat.compare_spec ma mc),
      (Nat.compare_spec da dc); try reflexivity; lia.
Qed.

Lemma date_lt_irrefl (a : Date) : ~ date_lt a a.
Proof.
  unfold date_lt, date_ltb. rewrite date_compare_refl. discriminate.
Qed.

(** A frame in strictly ascending order holds each date once. *)
Lemma ascending_NoDup (df : Frame) : ascending df -> NoDup (map fst df).
Proof.
  unfold ascending. intros S.
  apply Sorted_StronglySorted in S.
  2:{ intros x y z. apply date_lt_trans. }
  induction S as [|a l S IH F]; [constructor|]. simpl. constructor; [|exact IH].
  intros Hin. apply in_map_iff in Hin. destruct Hin as (b & E & Hb).
  rewrite Forall_forall in F. specialize (F b Hb). rewrite E in F.
  exact (date_lt_irrefl _ F).
Qed.

Lemma In_rows_at (t : table) (x : Row) :
  In x t <-> In x (rows_at t (row_entity x) (row_date x)).
Proof.
  unfold rows_at. rewrite filter_In. unfold at_key.
  rewrite !String.eqb_refl. simpl. tauto.
Qed.

Lemma last_write_absent (e : string) (df : Frame) (d : Date) :
  valid_date d -> frame_dates_valid df -> ~ In d (map fst df) ->
  last_write (rows_of_frame e df) e (isoformat d) = None.
Proof.
  intros V F N. induction df as [|[d0 v0] df IH]; [reflexivity|].
  cbn [rows_of_frame map last_write fst snd].
  fold (rows_of_frame e df). rewrite IH.
  - unfold at_key. cbn [row_entity row_date]. rewrite String.eqb_refl.
    destruct (String.eqb_spec (isoformat d0) (isoformat d)) as [E|_];
      [|reflexivity].
    exfalso. apply N. left. apply isoformat_inj; try assumption.
    apply (F (d0, v0)). left. reflexivity.
  - intros r Hr. apply F. right. exact Hr.
  - intros Hin. apply N. right. exact Hin.
Qed.

Lemma last_write_present (e : string) (df : Frame) (d : Date) (v : cell) :
  frame_dates_valid df -> NoDup (map fst df) -> In (d, v) df ->
  last_write (rows_of_frame e df) e (isoformat d) = Some v.
Proof.
  intros F N Hin. induction df as [|[d0 v0] df IH]; [destruct Hin|].
  cbn [rows_of_frame map last_write fst snd].
  fold (rows_of_frame e df).
  cbn [map fst] in N. inversion N as [|? ? Nin N']; subst.
  assert (F' : frame_dates_valid df) by (intros r Hr; apply F; right; exact Hr).
  destruct Hin as [E|Hin].
  - inversion E; subst d0 v0.
    rewrite last_write_absent; try assumption.
    + unfold at_key. cbn [row_entity row_date row_value].
      rewrite !String.eqb_refl. reflexivity.
    + apply (F (d, v)). left. reflexivity.
  - rewrite (IH F' N' Hin). reflexivity.
Qed.

(** Saving a frame of distinct dates in a table and reading back a range
    that covers them gives the frame, in ascending order of date, provided
    the table held no other row of the entity in that range. *)
Lemma round_trip_table (t : table) (e : string) (df : Frame)
    (start stop : Date) :
  table_ok t -> valid_date start -> valid_date stop ->
  frame_dates_valid df -> NoDup (map fst df) ->
  (forall r, In r df -> date_le start (fst r) /\ date_le (fst r) stop) ->
  (forall d v, valid_date d -> In (mkRow e (isoformat d) v) t ->
               date_le start d -> date_le d stop -> In d (map fst df)) ->
  exists out,
    (let sel := select_range (executemany t (rows_of_frame e df)) e
                  (isoformat start) (isoformat stop) in
     if empty sel then Ok [] else parse_dates sel) = Ok out
    /\ Permutation out df /\ ascending out.
Proof.
  intros O Vs Ve F N C Fresh.
  pose proof (executemany_table_ok t e df O F) as O'.
  destruct (load_table_spec _ e start stop O' Vs Ve) as (out & L & I & A).
  exists out. split; [exact L|]. split; [|exact A].
  apply NoDup_Permutation.
  - apply (NoDup_map_inv fst), ascending_NoDup, A.
  - apply (NoDup_map_inv fst), N.
  - intros [d v]. rewrite I, In_rows_at, rows_at_executemany.
    cbn [row_entity row_date]. split.
    + intros (V & Hin & L1 & L2).
      destruct (in_dec Date_eq_dec d (map fst df)) as [Hd|Hd].
      * apply in_map_iff in Hd. destruct Hd as ([d' v'] & E & Hd).
        simpl in E. subst d'.
        rewrite (last_write_present e df d v' F N Hd) in Hin.
        destruct Hin as [E|[]]. inversion E; subst. exact Hd.
      * rewrite (last_write_absent e df d V F Hd) in Hin.
        exfalso. apply Hd. apply (Fresh d v V); try assumption.
        apply In_rows_at. exact Hin.
    + intros Hin. split; [apply (F _ Hin)|].
      rewrite (last_write_present e df d v F N Hin).
      split; [left; reflexivity|]. apply (C _ Hin).
Qed.

(** C10, as the code has it.  On a well-formed cache that holds no row of
    the entity within the range at a date other than those of the series,
    saving a series of points with distinct dates and then loading a range
    that covers all its dates returns exactly those (date, value) pairs, in
    ascending order of date; this holds of both tables. *)
Theorem save_then_load_round_trip (db : Database) (entity : string)
    (df : Frame) (start stop : Date) :
  cache_ok db -> valid_date start -> valid_date stop ->
  frame_dates_valid df -> NoDup (map fst df) ->
  (forall r, In r df -> date_le start (fst r) /\ date_le (fst r) stop) ->
  (forall t d v,
      crypto_prices db = Some t \/ fiat_rates db = Some t ->
      valid_date d -> In (mkRow entity (isoformat d) v) t ->
      date_le start d -> date_le d stop -> In d (map fst df)) ->
  exists dbc dbf outc outf,
    save_crypto_cache None entity df db = Ok dbc
    /\ load_crypto_cache entity start stop dbc = Ok outc
    /\ Permutation outc df /\ ascending outc
    /\ save_fiat_cache None entity df db = Ok dbf
    /\ load_fiat_cache entity start stop dbf = Ok outf
    /\ Permutation outf df /\ ascending outf.
Proof.
  intros (tc & tf & Ec & Ef & Oc & Of) Vs Ve F N C Fresh.
  destruct (round_trip_table tc entity df start stop Oc Vs Ve F N C)
    as (outc & Lc & Pc & Ac).
  { intros d v. apply (Fresh tc). left. exact Ec. }
  destruct (round_trip_table tf entity df start stop Of Vs Ve F N C)
    as (outf & Lf & Pf & Af).
  { intros d v. apply (Fresh tf). right. exact Ef. }
  eexists. eexists. exists outc, outf.
  split; [apply (save_crypto_cache_rows entity df db tc Ec)|].
  split; [exact Lc|]. split; [exact Pc|]. split; [exact Ac|].
  split; [apply (save_fiat_cache_rows entity df db tf Ef)|].
  split; [exact Lf|]. split; [exact Pf|exact Af].
Qed.

Lemma save_then_load_round_trip_witness :
  exists dbc outc,
    save_crypto_cache None "ethereum"
      [(Sample.jan 3, Sample.q 7); (Sample.jan 2, None)] sample_cache
    = Ok dbc
    /\ load_crypto_cache "ethereum" (Sample.jan 1) (Sample.jan 3) dbc
       = Ok outc
    /\ Permutation outc [(Sample.jan 3, Sample.q 7); (Sample.jan 2, None)]
    /\ ascending outc.
Proof.
  destruct (save_then_load_round_trip sample_cache "ethereum"
              [(Sample.jan 3, Sample.q 7); (Sample.jan 2, None)]
              (Sample.jan 1) (Sample.jan 3))
    as (dbc & _ & outc & _ & S & L & P & A & _).
  - exact cache_ok_sample.
  - reflexivity.
  - reflexivity.
  - intros r [<-|[<-|[]]]; reflexivity.
  - repeat constructor; simpl; intuition discriminate.
  - intros r [<-|[<-|[]]]; split; reflexivity.
  - intros t d v [E|E] V Hin _ _; vm_compute in E; inversion E; subst t;
      simpl in Hin; exfalso;
      repeat (destruct Hin as [Hin|Hin]; [discriminate Hin|]);
      exact Hin.
  - exists dbc, outc. repeat split; assumption.
Defined.

(** C10 as it is written fails: the cache already holds bitcoin on the 1st
    and the 3rd of January; after the series of the 2nd alone is saved,
    loading the range from the 1st to the 3rd returns three rows. *)
Lemma save_then_load_counterexample :
  ~ (forall (db db' : Database) (entity : string) (df out : Frame)
            (start stop : Date),
        cache_ok db -> valid_date start -> valid_date stop ->
        frame_dates_valid df -> NoDup (map fst df) ->
        (forall r, In r df -> date_le start (fst r) /\ date_le (fst r) stop) ->
        save_crypto_cache None entity df db = Ok db' ->
        load_crypto_cache entity start stop db' = Ok out ->
        Permutation out df).
Proof.
  intros C.
  destruct (save_crypto_cache None "bitcoin" [(Sample.jan 2, Sample.q 5)]
              sample_cache) as [db'|e] eqn:S;
    [|vm_compute in S; discriminate S].
  destruct (load_crypto_cache "bitcoin" (Sample.jan 1) (Sample.jan 3) db')
    as [out|e] eqn:L.
  - assert (P : Permutation out [(Sample.jan 2, Sample.q 5)]).
    { apply (C sample_cache db' "bitcoin" _ out (Sample.jan 1)
               (Sample.jan 3)); try assumption; try reflexivity.
      - exact cache_ok_sample.
      - intros r [<-|[]]; reflexivity.
      - repeat constructor. intros [].
      - intros r [<-|[]]; split; reflexivity. }
    apply Permutation_length in P.
    vm_compute in S. inversion S; subst db'.
    vm_compute in L. inversion L; subst out.
    discriminate P.
  - vm_compute in S. inversion S; subst db'.
    vm_compute in L. discriminate L.
Qed.

(* ================================================================== *)
(** * Further properties of the code *)

(** ** More on saving *)

Lemma filter_executemany_others (P : Row -> bool) (e : string)
    (rows : list Row) :
  (forall r, In r rows -> row_entity r = e) ->
  (forall x, P x = true -> row_entity x <> e) ->
  forall t, filter P (executemany t rows) = filter P t.
Proof.
  intros R HP. induction rows as [|r rows IH]; intros t; [reflexivity|].
  cbn [executemany fold_left]. fold (executemany (insert_or_replace t r) rows).
  rewrite IH by (intros x Hx; apply R; right; exact Hx).
  unfold insert_or_replace. rewrite filter_app. cbn [filter].
  assert (Pr : P r = false).
  { destruct (P r) eqn:E; [|reflexivity].
    exfalso. apply (HP r E). apply R. left. reflexivity. }
  rewrite Pr, app_nil_r.
  induction t as [|x t IHt]; [reflexivity|]. cbn [filter].
  destruct (same_key x r) eqn:K; cbn [negb].
  - assert (Px : P x = false).
    { destruct (P x) eqn:E; [|reflexivity].
      exfalso. apply (HP x E). unfold same_key in K.
      apply andb_prop in K. destruct K as [K _].
      apply String.eqb_eq in K. rewrite K. apply R. left. reflexivity. }
    rewrite Px. exact IHt.
  - cbn [filter]. destruct (P x); [f_equal|]; exact IHt.
Qed.

Lemma rows_of_frame_entity (e : string) (df : Frame) (r : Row) :
  In r (rows_of_frame e df) -> row_entity r = e.
Proof.
  intros H. apply in_map_iff in H. destruct H as (p & <- & _). reflexivity.
Qed.

(** What a batch leaves of a table, and what it adds. *)
Lemma executemany_split (rows : list Row) :
  forall t,
  executemany t rows
  = (filter (fun x => negb (written_by rows x)) t ++ executemany [] rows)%list.
Proof.
  induction rows as [|r rows IH]; intros t.
  - cbn. rewrite app_nil_r. induction t as [|x t IHt]; [reflexivity|].
    cbn. f_equal. exact IHt.
  - cbn [executemany fold_left].
    fold (executemany (insert_or_replace t r) rows).
    fold (executemany (insert_or_replace [] r) rows).
    rewrite (IH (insert_or_replace t r)), (IH (insert_or_replace [] r)).
    unfold insert_or_replace. cbn [filter app].
    rewrite filter_app, app_assoc. f_equal. f_equal.
    clear IH. induction t as [|x t IHt]; [reflexivity|].
    cbn [filter written_by existsb].
    destruct (same_key x r); cbn [negb orb filter]; [exact IHt|].
    fold (written_by rows x).
    destruct (written_by rows x); cbn [negb]; [|f_equal]; exact IHt.
Qed.

Lemma executemany_In (rows : list Row) :
  forall t x, In x (executemany t rows) -> In x t \/ In x rows.
Proof.
  induction rows as [|r rows IH]; intros t x H; [left; exact H|].
  cbn [executemany fold_left] in H.
  destruct (IH _ _ H) as [H'|H']; [|right; right; exact H'].
  apply insert_or_replace_In in H'.
  destruct H' as [->|[H' _]]; [right; left; reflexivity|left; exact H'].
Qed.

Lemma same_key_refl (x : Row) : same_key x x = true.
Proof. unfold same_key. rewrite !String.eqb_refl. reflexivity. Qed.

(** Running a batch a second time changes nothing. *)
Lemma executemany_twice (rows : list Row) (t : table) :
  executemany (executemany t rows) rows = executemany t rows.
Proof.
  rewrite (executemany_split rows (executemany t rows)).
  rewrite (executemany_split rows t) at 1 2.
  rewrite filter_app.
  assert (E : filter (fun x => negb (written_by rows x))
                (executemany [] rows) = []).
  { assert (A : forall l, (forall x, In x l -> In x rows) ->
                filter (fun x => negb (written_by rows x)) l = []).
    { induction l as [|x l IHl]; intros H; [reflexivity|]. cbn [filter].
      assert (W : written_by rows x = true).
      { unfold written_by. apply existsb_exists. exists x.
        split; [apply H; left; reflexivity|apply same_key_refl]. }
      rewrite W. cbn [negb]. apply IHl. intros y Hy. apply H. right.
      exact Hy. }
    apply A. intros x Hx. destruct (executemany_In rows [] x Hx) as [[]|Hr].
    exact Hr. }
  rewrite E, app_nil_r. f_equal.
  induction t as [|x t IHt]; [reflexivity|]. cbn [filter].
  destruct (negb (written_by rows x)) eqn:W; cbn [filter];
    [rewrite W; f_equal|]; exact IHt.
Qed.

(** X1.  [init_db] can be repeated: a second call changes nothing, a table
    that exists keeps its rows, and a table that does not exist is created
    empty. *)
Theorem init_db_can_be_repeated (db : Database) :
  init_db (init_db db) = init_db db
  /\ (forall t, crypto_prices db = Some t ->
                crypto_prices (init_db db) = Some t)
  /\ (forall t, fiat_rates db = Some t -> fiat_rates (init_db db) = Some t)
  /\ (crypto_prices db = None -> crypto_prices (init_db db) = Some [])
  /\ (fiat_rates db = None -> fiat_rates (init_db db) = Some [])
  /\ cache_ok (init_db no_tables).
Proof.
  split; [apply init_db_idempotent|].
  destruct db as [c f]. cbn [init_db crypto_prices fiat_rates].
  repeat split; try (intros t ->; reflexivity); try (intros ->; reflexivity).
  apply cache_ok_fresh.
Qed.

(** X2.  Saving a frame of dates in a well-formed cache succeeds and leaves
    a well-formed cache: no key is duplicated and every [Date] text is the
    ISO text of a date. *)
Theorem save_keeps_cache_well_formed (db : Database) (entity : string)
    (df : Frame) :
  cache_ok db -> frame_dates_valid df ->
  exists dbc dbf,
    save_crypto_cache None entity df db = Ok dbc /\ cache_ok dbc
    /\ save_fiat_cache None entity df db = Ok dbf /\ cache_ok dbf.
Proof.
  intros O V.
  destruct (apply_writes_ok [WriteCrypto entity df] db O) as (dbc & Ec & Oc).
  { constructor; [exact V|constructor]. }
  destruct (apply_writes_ok [WriteFiat entity df] db O) as (dbf & Ef & Of).
  { constructor; [exact V|constructor]. }
  cbn [apply_writes apply_write] in Ec, Ef.
  destruct (save_crypto_cache None entity df db) as [dbc'|e];
    [|discriminate Ec].
  destruct (save_fiat_cache None entity df db) as [dbf'|e];
    [|discriminate Ef].
  inversion Ec; inversion Ef; subst.
  exists dbc, dbf. repeat split; assumption.
Qed.

Lemma save_keeps_cache_well_formed_witness :
  exists dbc,
    save_crypto_cache None "ethereum" [(Sample.jan 2, Sample.q 7)]
      sample_cache = Ok dbc
    /\ cache_ok dbc.
Proof.
  destruct (save_keeps_cache_well_formed sample_cache "ethereum"
              [(Sample.jan 2, Sample.q 7)])
    as (dbc & _ & E & O & _).
  - exact cache_ok_sample.
  - intros r [<-|[]]. reflexivity.
  - exists dbc. split; assumption.
Defined.

(** X3.  A save touches the rows of its own entity in its own table only:
    the rows of every other entity stay as they were, in the same order,
    and the other table is not changed. *)
Theorem save_touches_only_its_entity (tc tf : table) (entity : string)
    (df : Frame) :
  let db := mkDatabase (Some tc) (Some tf) in
  (exists tc',
      save_crypto_cache None entity df db = Ok (mkDatabase (Some tc') (Some tf))
      /\ rows_of_others entity tc' = rows_of_others entity tc)
  /\ (exists tf',
        save_fiat_cache None entity df db
        = Ok (mkDatabase (Some tc) (Some tf'))
        /\ rows_of_others entity tf' = rows_of_others entity tf).
Proof.
  cbv zeta.
  assert (K : forall t,
            rows_of_others entity (executemany t (rows_of_frame entity df))
            = rows_of_others entity t).
  { intros t. unfold rows_of_others.
    apply (filter_executemany_others _ entity).
    - intros r. apply rows_of_frame_entity.
    - intros x Hx E. rewrite E, String.eqb_refl in Hx. discriminate Hx. }
  split; eexists.
  - rewrite (save_crypto_cache_rows entity df
               (mkDatabase (Some tc) (Some tf)) tc eq_refl).
    split; [reflexivity|apply K].
  - rewrite (save_fiat_cache_rows entity df
               (mkDatabase (Some tc) (Some tf)) tf eq_refl).
    split; [reflexivity|apply K].
Qed.

(** X4.  Saving the same frame a second time leaves the cache exactly as
    the first save left it. *)
Theorem save_twice_is_save_once (tc tf : table) (entity : string)
    (df : Frame) :
  let db := mkDatabase (Some tc) (Some tf) in
  (exists db1, save_crypto_cache None entity df db = Ok db1
               /\ save_crypto_cache None entity df db1 = Ok db1)
  /\ (exists db1, save_fiat_cache None entity df db = Ok db1
                  /\ save_fiat_cache None entity df db1 = Ok db1).
Proof.
  cbv zeta. split.
  - exists (mkDatabase (Some (executemany tc (rows_of_frame entity df)))
                       (Some tf)).
    split.
    + apply (save_crypto_cache_rows entity df
               (mkDatabase (Some tc) (Some tf)) tc eq_refl).
    + rewrite (save_crypto_cache_rows entity df
                 (mkDatabase
                    (Some (executemany tc (rows_of_frame entity df)))
                    (Some tf))
                 (executemany tc (rows_of_frame entity df)) eq_refl).
      cbn [fiat_rates]. rewrite executemany_twice. reflexivity.
  - exists (mkDatabase (Some tc)
                       (Some (executemany tf (rows_of_frame entity df)))).
    split.
    + apply (save_fiat_cache_rows entity df
               (mkDatabase (Some tc) (Some tf)) tf eq_refl).
    + rewrite (save_fiat_cache_rows entity df
                 (mkDatabase (Some tc)
                    (Some (executemany tf (rows_of_frame entity df))))
                 (executemany tf (rows_of_frame entity df)) eq_refl).
      cbn [crypto_prices]. rewrite executemany_twice. reflexivity.
Qed.

(** ** More on loading *)

Lemma select_range_other_entity (t : table) (e e' lo hi : string)
    (df : Frame) :
  e <> e' ->
  select_range (executemany t (rows_of_frame e' df)) e lo hi
  = select_range t e lo hi.
Proof.
  intros N. unfold select_range. f_equal.
  apply (filter_executemany_others _ e').
  - intros r. apply rows_of_frame_entity.
  - intros x Hx E. rewrite !andb_true_iff, String.eqb_eq in Hx.
    destruct Hx as [[Hx _] _]. congruence.
Qed.

(** X5.  What a load returns for an entity is not changed by a save for
    another entity; and a save into one table changes no load from the
    other table, for any entity and any range. *)
Theorem load_ignores_other_saves (tc tf : table) (entity other : string)
    (df : Frame) (start stop : Date) :
  entity <> other ->
  let db := mkDatabase (Some tc) (Some tf) in
  exists dbc dbf,
    save_crypto_cache None other df db = Ok dbc
    /\ save_fiat_cache None other df db = Ok dbf
    /\ load_crypto_cache entity start stop dbc
       = load_crypto_cache entity start stop db
    /\ load_fiat_cache entity start stop dbf
       = load_fiat_cache entity start stop db
    /\ (forall e s t,
          load_fiat_cache e s t dbc = load_fiat_cache e s t db)
    /\ (forall e s t,
          load_crypto_cache e s t dbf = load_crypto_cache e s t db).
Proof.
  intros N. cbv zeta.
  exists (mkDatabase (Some (executemany tc (rows_of_frame other df)))
                     (Some tf)),
         (mkDatabase (Some tc)
                     (Some (executemany tf (rows_of_frame other df)))).
  split; [apply (save_crypto_cache_rows other df
                   (mkDatabase (Some tc) (Some tf)) tc eq_refl)|].
  split; [apply (save_fiat_cache_rows other df
                   (mkDatabase (Some tc) (Some tf)) tf eq_refl)|].
  unfold load_crypto_cache, load_fiat_cache.
  cbn [crypto_prices fiat_rates].
  rewrite !(select_range_other_entity _ entity other) by exact N.
  repeat split.
Qed.

Lemma load_ignores_other_saves_witness :
  exists dbc,
    save_crypto_cache None "ethereum" [(Sample.jan 2, Sample.q 7)]
      (mkDatabase (Some []) (Some [])) = Ok dbc
    /\ load_crypto_cache "bitcoin" (Sample.jan 1) (Sample.jan 3) dbc
       = load_crypto_cache "bitcoin" (Sample.jan 1) (Sample.jan 3)
           (mkDatabase (Some []) (Some []))
    /\ load_fiat_cache "JPY" (Sample.jan 1) (Sample.jan 3) dbc
       = load_fiat_cache "JPY" (Sample.jan 1) (Sample.jan 3)
           (mkDatabase (Some []) (Some [])).
Proof.
  destruct (load_ignores_other_saves [] [] "bitcoin" "ethereum"
              [(Sample.jan 2, Sample.q 7)] (Sample.jan 1) (Sample.jan 3))
    as (dbc & _ & E & _ & L & _ & F & _).
  - discriminate.
  - exists dbc. split; [assumption|]. split; [assumption|]. apply F.
Defined.

(** X6.  Loading a range whose end comes before its start returns an empty
    frame, without error. *)
Theorem load_of_inverted_range_is_empty (db : Database) (entity : string)
    (start stop : Date) :
  cache_ok db -> valid_date start -> valid_date stop ->
  date_lt stop start ->
  load_crypto_cache entity start stop db = Ok []
  /\ load_fiat_cache entity start stop db = Ok [].
Proof.
  intros (tc & tf & Ec & Ef & Oc & Of) Vs Ve L.
  unfold date_lt in L. rewrite (date_ltb_span _ _ Ve Vs) in L.
  apply Nat.ltb_lt in L.
  assert (K : forall t, table_ok t ->
            (let sel := select_range t entity (isoformat start)
                          (isoformat stop) in
             if empty sel then Ok [] else parse_dates sel) = Ok []).
  { intros t Ot.
    destruct (load_table_spec t entity start stop Ot Vs Ve)
      as (out & E & I & _).
    rewrite E. f_equal. destruct out as [|[d v] rest]; [reflexivity|].
    exfalso. destruct (proj1 (I d v) (or_introl eq_refl))
      as (V & _ & L1 & L2).
    unfold date_le in L1, L2.
    rewrite (date_leb_span _ _ Vs V) in L1.
    rewrite (date_leb_span _ _ V Ve) in L2.
    apply Nat.leb_le in L1, L2. lia. }
  unfold load_crypto_cache, load_fiat_cache. rewrite Ec, Ef.
  split; [apply (K tc Oc)|apply (K tf Of)].
Qed.

Lemma load_of_inverted_range_is_empty_witness :
  load_crypto_cache "bitcoin" (Sample.jan 3) (Sample.jan 1) sample_cache
  = Ok [].
Proof.
  apply (load_of_inverted_range_is_empty sample_cache "bitcoin"
           (Sample.jan 3) (Sample.jan 1)).
  - exact cache_ok_sample.
  - reflexivity.
  - reflexivity.
  - reflexivity.
Defined.

Lemma ascending_strongly (df : Frame) :
  ascending df ->
  StronglySorted (fun a b => date_lt (fst a) (fst b)) df.
Proof.
  intros S. apply Sorted_StronglySorted; [|exact S].
  intros x y z. apply date_lt_trans.
Qed.

Lemma ascending_filter (P : Date * cell -> bool) (df : Frame) :
  ascending df -> ascending (filter P df).
Proof.
  intros S. apply ascending_strongly in S.
  apply StronglySorted_Sorted.
  induction S as [|a l S IH F]; [constructor|]. cbn [filter].
  destruct (P a); [|exact IH]. constructor; [exact IH|].
  rewrite Forall_forall in *. intros x Hx. apply filter_In in Hx.
  apply F. tauto.
Qed.

(** Two frames in strictly ascending order with the same rows are equal. *)
Lemma ascending_ext (l1 l2 : Frame) :
  ascending l1 -> ascending l2 ->
  (forall x, In x l1 <-> In x l2) -> l1 = l2.
Proof.
  intros S1 S2. apply ascending_strongly in S1, S2. revert l2 S2.
  induction S1 as [|a1 l1 S1 IH F1]; intros l2 S2 E.
  - destruct l2 as [|a2 l2]; [reflexivity|].
    destruct (proj2 (E a2) (or_introl eq_refl)).
  - destruct S2 as [|a2 l2 S2 F2];
      [destruct (proj1 (E a1) (or_introl eq_refl))|].
    rewrite Forall_forall in F1, F2.
    assert (H : a1 = a2).
    { destruct (proj1 (E a1) (or_introl eq_refl)) as [H|H1];
        [symmetry; exact H|].
      destruct (proj2 (E a2) (or_introl eq_refl)) as [H|H2]; [exact H|].
      exfalso. apply (date_lt_irrefl (fst a1)).
      apply (date_lt_trans _ (fst a2)); [apply F1, H2|apply F2, H1]. }
    subst a2. f_equal. apply IH; [exact S2|].
    intros x. split; intros Hx.
    + destruct (proj1 (E x) (or_intror Hx)) as [<-|H]; [|exact H].
      exfalso. exact (date_lt_irrefl _ (F1 _ Hx)).
    + destruct (proj2 (E x) (or_intror Hx)) as [<-|H]; [|exact H].
      exfalso. exact (date_lt_irrefl _ (F2 _ Hx)).
Qed.

Lemma in_range_spec (start stop d : Date) :
  in_range start stop d = true <-> date_le start d /\ date_le d stop.
Proof. unfold in_range, date_le. apply andb_true_iff. Qed.

(** Narrowing the range of the query of the load functions. *)
Lemma load_table_narrow (t : table) (e : string) (s1 e1 s2 e2 : Date) :
  table_ok t -> valid_date s1 -> valid_date e1 ->
  valid_date s2 -> valid_date e2 ->
  date_le s1 s2 -> date_le e2 e1 ->
  exists wide,
    (let sel := select_range t e (isoformat s1) (isoformat e1) in
     if empty sel then Ok [] else parse_dates sel) = Ok wide
    /\ (let sel := select_range t e (isoformat s2) (isoformat e2) in
        if empty sel then Ok [] else parse_dates sel)
       = Ok (filter (fun r => in_range s2 e2 (fst r)) wide).
Proof.
  intros O V1 W1 V2 W2 L1 L2.
  destruct (load_table_spec t e s1 e1 O V1 W1) as (wide & Ew & Iw & Aw).
  destruct (load_table_spec t e s2 e2 O V2 W2) as (narrow & En & In' & An).
  exists wide. split; [exact Ew|]. rewrite En. f_equal.
  apply ascending_ext; [exact An|apply ascending_filter, Aw|].
  intros [d v]. rewrite In', filter_In, Iw, in_range_spec. cbn [fst].
  unfold date_le in *. split.
  - intros (V & R & A & B). repeat split; try assumption.
    + rewrite (date_leb_span _ _ V1 V). rewrite (date_leb_span _ _ V1 V2) in L1.
      rewrite (date_leb_span _ _ V2 V) in A.
      apply Nat.leb_le in L1, A. apply Nat.leb_le. lia.
    + rewrite (date_leb_span _ _ V W1). rewrite (date_leb_span _ _ W2 W1) in L2.
      rewrite (date_leb_span _ _ V W2) in B.
      apply Nat.leb_le in L2, B. apply Nat.leb_le. lia.
  - intros ((V & R & _ & _) & A & B). repeat split; assumption.
Qed.

(** X7.  Loading a narrower range gives the rows of the wider load whose
    date lies in the narrower range, in the same order. *)
Theorem load_of_narrower_range_filters (db : Database) (entity : string)
    (s1 e1 s2 e2 : Date) :
  cache_ok db ->
  valid_date s1 -> valid_date e1 -> valid_date s2 -> valid_date e2 ->
  date_le s1 s2 -> date_le e2 e1 ->
  exists widec widef,
    load_crypto_cache entity s1 e1 db = Ok widec
    /\ load_crypto_cache entity s2 e2 db
       = Ok (filter (fun r => in_range s2 e2 (fst r)) widec)
    /\ load_fiat_cache entity s1 e1 db = Ok widef
    /\ load_fiat_cache entity s2 e2 db
       = Ok (filter (fun r => in_range s2 e2 (fst r)) widef).
Proof.
  intros (tc & tf & Ec & Ef & Oc & Of) V1 W1 V2 W2 L1 L2.
  destruct (load_table_narrow tc entity s1 e1 s2 e2 Oc V1 W1 V2 W2 L1 L2)
    as (widec & Ac & Bc).
  destruct (load_table_narrow tf entity s1 e1 s2 e2 Of V1 W1 V2 W2 L1 L2)
    as (widef & Af & Bf).
  exists widec, widef. unfold load_crypto_cache, load_fiat_cache.
  rewrite Ec, Ef. repeat split; assumption.
Qed.

Lemma load_of_narrower_range_filters_witness :
  exists wide,
    load_crypto_cache "bitcoin" (Sample.jan 1) (Sample.jan 9) sample_cache
    = Ok wide
    /\ load_crypto_cache "bitcoin" (Sample.jan 2) (Sample.jan 5) sample_cache
       = Ok (filter (fun r => in_range (Sample.jan 2) (Sample.jan 5) (fst r))
               wide).
Proof.
  destruct (load_of_narrower_range_filters sample_cache "bitcoin"
              (Sample.jan 1) (Sample.jan 9) (Sample.jan 2) (Sample.jan 5))
    as (wide & _ & A & B & _); try reflexivity.
  - exact cache_ok_sample.
  - exists wide. split; assumption.
Defined.

(** X8.  The text that the cache stores for a date identifies the date and
    orders as the dates do, which is what makes the TEXT comparisons of
    [BETWEEN] and [ORDER BY] comparisons of dates; and reading the text
    back gives the date. *)
Theorem iso_text_orders_and_reads_back (a b : Date) :
  valid_date a -> valid_date b ->
  String.compare (isoformat a) (isoformat b) = date_compare a b
  /\ String.leb (isoformat a) (isoformat b) = date_leb a b
  /\ (isoformat a = isoformat b -> a = b)
  /\ to_datetime (isoformat a) = Ok a
  /\ String.length (isoformat a) = 10.
Proof.
  intros Va Vb.
  split; [apply isoformat_compare; assumption|].
  split; [apply isoformat_leb; assumption|].
  split; [apply isoformat_inj; assumption|].
  split; [apply to_datetime_isoformat, Va|reflexivity].
Qed.

Lemma iso_text_orders_and_reads_back_witness :
  String.leb (isoformat (mkDate 999 12 31)) (isoformat (mkDate 1000 1 1))
  = true
  /\ to_datetime (isoformat (mkDate 999 12 31)) = Ok (mkDate 999 12 31).
Proof.
  destruct (iso_text_orders_and_reads_back (mkDate 999 12 31)
              (mkDate 1000 1 1)) as (_ & L & _ & R & _).
  - reflexivity.
  - reflexivity.
  - split; [rewrite L; reflexivity|exact R].
Defined.

(* ================================================================== *)
(** ** More on the trace of a run *)

(** The progress updates and the requests of the crypto loop. *)
Lemma crypto_loop_trace (env : Env) (vs : string) (f t : Z) (total : nat) :
  forall (top : list Coin) (idx : nat) (st : RunState),
  _stopped (self st) = false ->
  let k := run_length env (polls st) (length top) in
  let st' := crypto_loop env vs f t total idx top st in
  progress_of (trace st')
  = (progress_of (trace st)
     ++ map (fun i => (i + 1, total)) (seq idx k))%list
  /\ requests_of (trace st')
     = (requests_of (trace st)
        ++ flat_map (fun c => fst (fetch_crypto env vs f t c))
             (firstn k top))%list.
Proof.
  induction top as [|coin rest IH]; intros idx st H; cbn zeta.
  - cbn [crypto_loop length run_length firstn seq map flat_map].
    rewrite !app_nil_r. split; reflexivity.
  - cbn [crypto_loop length run_length]. rewrite poll_flag, H, orb_false_r.
    destruct (stop_called env (polls st)) eqn:SC.
    + cbn [firstn seq map flat_map]. rewrite !app_nil_r. split; reflexivity.
    + set (st0 := poll env st).
      destruct (crypto_step_acc env vs f t total idx coin st0)
        as (_ & HS & P).
      destruct (crypto_step_trace env vs f t total idx coin st0)
        as (es & T & Rq & Pg & _).
      set (st1 := crypto_step env vs f t total idx coin st0) in *.
      assert (H1 : _stopped (self st1) = false)
        by (rewrite HS; unfold st0; rewrite (poll_running env st SC);
            exact H).
      destruct (IH (S idx) st1 H1) as (A & B).
      rewrite P in A, B. change (polls st0) with (S (polls st)) in A, B.
      rewrite A, B, T. change (trace st0) with (trace st).
      rewrite progress_of_app, requests_of_app, Pg, Rq.
      cbn [firstn seq map flat_map]. rewrite <- !app_assoc.
      split; reflexivity.
Qed.

Lemma fiat_loop_trace (env : Env) (tc tf ts : nat) :
  forall (fiats0 : list (string * string)) (idx : nat) (st : RunState),
  _stopped (self st) = false ->
  let k := run_length env (polls st) (length fiats0) in
  let st' := fiat_loop env tc tf ts idx fiats0 st in
  progress_of (trace st')
  = (progress_of (trace st)
     ++ map (fun i => (tc + i + 1, ts)) (seq idx k))%list
  /\ requests_of (trace st')
     = (requests_of (trace st)
        ++ flat_map (fun fiat => fst (fetch_fiat env (self st) (fst fiat)))
             (firstn k fiats0))%list.
Proof.
  induction fiats0 as [|fiat rest IH]; intros idx st H; cbn zeta.
  - cbn [fiat_loop length run_length firstn seq map flat_map].
    rewrite !app_nil_r. split; reflexivity.
  - cbn [fiat_loop length run_length]. rewrite poll_flag, H, orb_false_r.
    destruct (stop_called env (polls st)) eqn:SC.
    + cbn [firstn seq map flat_map]. rewrite !app_nil_r. split; reflexivity.
    + set (st0 := poll env st).
      assert (E0 : self st0 = self st) by (apply poll_running, SC).
      destruct (fiat_step_acc env tc tf ts idx fiat st0) as (_ & HS & P).
      destruct (fiat_step_trace env tc tf ts idx fiat st0)
        as (es & T & Rq & Pg & _).
      set (st1 := fiat_step env tc tf ts idx fiat st0) in *.
      assert (H1 : _stopped (self st1) = false)
        by (rewrite HS, E0; exact H).
      destruct (IH (S idx) st1 H1) as (A & B).
      rewrite P in A, B. change (polls st0) with (S (polls st)) in A, B.
      rewrite HS, E0 in B. rewrite E0 in Rq.
      rewrite A, B, T. change (trace st0) with (trace st).
      rewrite progress_of_app, requests_of_app, Pg, Rq.
      cbn [firstn seq map flat_map]. rewrite <- !app_assoc.
      split; reflexivity.
Qed.

Lemma run_trace (env : Env) (w : DataWorker) (db : Database)
    (top : list Coin) :
  _stopped w = false -> ranking env w = Ok top ->
  let n := length top in
  let k := coins_handled env n in
  let kf := fiats_handled env n in
  progress_of (trace (snd (run env w db)))
  = (map (fun i => (i + 1, n)) (seq 0 k)
     ++ map (fun i => (n + i + 1, n + length fiat_list)) (seq 0 kf))%list
  /\ requests_of (trace (snd (run env w db)))
     = (CoinsMarkets (lower (base_currency w)) "market_cap_desc" 20 1
        :: flat_map (fun c => fst (crypto_fetch env w c)) (firstn k top)
        ++ flat_map (fun fiat => fst (fetch_fiat env w (fst fiat)))
             (firstn kf fiat_list))%list.
Proof.
  intros H R. cbv zeta. rewrite (run_state env w db top R).
  set (st0 := emit _ (start_state w db)).
  destruct (crypto_loop_spec env (lower (base_currency w))
              (utc_timestamp (start_date w) 0 0 0)
              (utc_timestamp (end_date w) 23 59 59)
              (length top) top 0 st0 H) as (_ & Rq & F & P).
  destruct (crypto_loop_trace env (lower (base_currency w))
              (utc_timestamp (start_date w) 0 0 0)
              (utc_timestamp (end_date w) 23 59 59)
              (length top) top 0 st0 H) as (Pg & Rs).
  set (st1 := crypto_loop _ _ _ _ _ _ _ _) in *.
  change (polls st0) with 0 in *. change (self st0) with w in Rq.
  change (progress_of (trace st0)) with (@nil (nat * nat)) in Pg.
  change (requests_of (trace st0))
    with [CoinsMarkets (lower (base_currency w)) "market_cap_desc" 20 1]
    in Rs.
  cbn [app] in Pg, Rs.
  unfold fiats_handled, coins_handled, crypto_fetch.
  destruct (run_length env 0 (length top) <? length top) eqn:C.
  - destruct (fiat_loop_stopped env (length top) (length fiat_list)
                (length top + length fiat_list) 0 fiat_list st1 F)
      as (_ & T & _).
    rewrite T, Pg, Rs. cbn [seq map firstn flat_map].
    rewrite !app_nil_r. split; reflexivity.
  - destruct (fiat_loop_trace env (length top) (length fiat_list)
                (length top + length fiat_list) fiat_list 0 st1 F)
      as (Pg' & Rs').
    assert (K : run_length env 0 (length top) = length top).
    { apply Nat.ltb_ge in C. pose proof (run_length_le env (length top) 0).
      lia. }
    rewrite K in P. cbn [Nat.add] in P. rewrite P in Pg', Rs'.
    rewrite Pg', Rs', Pg, Rs. split; [reflexivity|].
    cbn [app]. f_equal. f_equal.
    apply flat_map_ext. intros fiat.
    rewrite (fetch_fiat_request env (self st1) w (fst fiat) Rq).
    reflexivity.
Qed.

Lemma progress_seq (a t k b : nat) :
  map (fun i => (a + i + 1, t)) (seq b k)
  = map (fun i => (i, t)) (seq (a + b + 1) k).
Proof.
  revert b. induction k as [|k IH]; intros b; [reflexivity|].
  cbn [seq map]. f_equal. rewrite IH. do 2 f_equal. lia.
Qed.

(** X9.  The progress updates of a run, in order: [(i, n)] for the handled
    coins, then [(n + i, n + 10)] for the handled currencies, where [n] is
    the length of the ranking; the counter goes 1, 2, 3, ... without a gap
    over both phases, but the total changes from [n] to [n + 10] between
    them. *)
Theorem progress_updates_of_a_run (env : Env) (w : DataWorker)
    (db : Database) (top : list Coin) :
  _stopped w = false -> ranking env w = Ok top ->
  let n := length top in
  let k := coins_handled env n in
  let kf := fiats_handled env n in
  let updates := progress_of (trace (snd (run env w db))) in
  updates = (map (fun i => (i, n)) (seq 1 k)
             ++ map (fun i => (i, n + 10)) (seq (n + 1) kf))%list
  /\ map fst updates = seq 1 (k + kf)
  /\ ((forall j, stop_called env j = false) ->
      last updates (0, 0) = (n + 10, n + 10)).
Proof.
  intros H R n k kf updates.
  destruct (run_trace env w db top H R) as (Pg & _).
  fold n k kf updates in Pg. change (length fiat_list) with 10 in Pg.
  assert (E : updates = (map (fun i => (i, n)) (seq 1 k)
                         ++ map (fun i => (i, n + 10)) (seq (n + 1) kf))%list).
  { rewrite Pg. f_equal.
    - rewrite (map_ext (fun i => (i + 1, n)) (fun i => (0 + i + 1, n)))
        by reflexivity.
      apply (progress_seq 0 n k 0).
    - rewrite (progress_seq n (n + 10) kf 0). do 2 f_equal. lia. }
  split; [exact E|]. split.
  - rewrite E, map_app, !map_map. cbn [fst]. rewrite !map_id.
    unfold kf, k, fiats_handled.
    destruct (coins_handled env n <? n) eqn:C.
    + rewrite Nat.add_0_r, app_nil_r. reflexivity.
    + assert (K : coins_handled env n = n).
      { apply Nat.ltb_ge in C. unfold coins_handled in *.
        pose proof (run_length_le env n 0). lia. }
      rewrite K, seq_app. f_equal. f_equal. lia.
  - intros N.
    destruct (never_stopped_handles_all env n N) as [E1 E2].
    unfold k, kf in E. rewrite E, E1, E2.
    change (length fiat_list) with 10.
    change 10 with (9 + 1) at 2.
    rewrite (seq_app 9 1 (n + 1)), map_app, app_assoc. cbn [seq map].
    rewrite last_last. f_equal; lia.
Qed.

Lemma progress_updates_of_a_run_witness :
  progress_of
    (trace (snd (run (Sample.env Sample.two_coins Sample.never)
                   Sample.worker Sample.fresh)))
  = (map (fun i => (i, 2)) (seq 1 2)
     ++ map (fun i => (i, 12)) (seq 3 10))%list.
Proof.
  apply (progress_updates_of_a_run
           (Sample.env Sample.two_coins Sample.never) Sample.worker
           Sample.fresh Sample.two_coins); reflexivity.
Defined.

Lemma fetch_crypto_one_request (env : Env) (vs : string) (f t : Z)
    (coin : Coin) :
  fst (fetch_crypto env vs f t coin)
  = [MarketChartRange (coin_id coin) vs f t].
Proof. reflexivity. Qed.

Lemma fetch_fiat_requests (env : Env) (w : DataWorker) (code : string) :
  length (fst (fetch_fiat env w code)) <= 2
  /\ (code = base_currency w -> fst (fetch_fiat env w code) = []).
Proof.
  unfold fetch_fiat. split.
  - destruct (String.eqb code (base_currency w)); [simpl; lia|].
    destruct (yf_download env _ _ _) as [df|e]; [|simpl; lia].
    destruct (empty df); [|simpl; lia].
    destruct (yf_download env _ _ _); simpl; lia.
  - intros ->. rewrite String.eqb_refl. reflexivity.
Qed.

Lemma flat_map_length_le {A B : Type} (f : A -> list B) (l : list A)
    (b : nat) :
  (forall x, length (f x) <= b) -> length (flat_map f l) <= b * length l.
Proof.
  intros H. induction l as [|x l IH]; simpl; [lia|].
  rewrite length_app. specialize (H x). lia.
Qed.

(** X10.  The network requests of a run, in order: the ranking of the 20
    largest coins, then for every handled coin, in ranking order, one chart
    request from 00:00:00 UTC of the first day to 23:59:59 UTC of the last,
    then for every handled currency the downloads of its fetch, at most
    two each; at most [1 + k + 2 * kf] requests in all. *)
Theorem requests_of_a_run (env : Env) (w : DataWorker) (db : Database)
    (top : list Coin) :
  _stopped w = false -> ranking env w = Ok top ->
  let k := coins_handled env (length top) in
  let kf := fiats_handled env (length top) in
  let sent := requests_of (trace (snd (run env w db))) in
  sent
  = (CoinsMarkets (lower (base_currency w)) "market_cap_desc" 20 1
     :: map (fun c => MarketChartRange (coin_id c) (lower (base_currency w))
                        (utc_timestamp (start_date w) 0 0 0)
                        (utc_timestamp (end_date w) 23 59 59))
            (firstn k top)
     ++ flat_map (fun fiat => fst (fetch_fiat env w (fst fiat)))
          (firstn kf fiat_list))%list
  /\ length sent <= 1 + k + 2 * kf.
Proof.
  intros H R k kf sent.
  destruct (run_trace env w db top H R) as (_ & Rs).
  fold k kf sent in Rs.
  assert (E : forall l,
            flat_map (fun c => fst (crypto_fetch env w c)) l
            = map (fun c => MarketChartRange (coin_id c)
                              (lower (base_currency w))
                              (utc_timestamp (start_date w) 0 0 0)
                              (utc_timestamp (end_date w) 23 59 59)) l).
  { induction l as [|c l IH]; [reflexivity|].
    cbn [flat_map map]. rewrite IH. reflexivity. }
  rewrite E in Rs. split; [exact Rs|].
  rewrite Rs. cbn [length]. rewrite length_app, length_map.
  pose proof (flat_map_length_le
                (fun fiat => fst (fetch_fiat env w (fst fiat)))
                (firstn kf fiat_list) 2
                (fun fiat => proj1 (fetch_fiat_requests env w (fst fiat))))
    as B.
  rewrite !length_firstn in *.
  assert (k <= length top) by apply run_length_le.
  lia.
Qed.

Lemma requests_of_a_run_witness :
  length (requests_of
            (trace (snd (run (Sample.env Sample.two_coins Sample.never)
                           Sample.worker Sample.fresh))))
  <= 1 + 2 + 2 * 10.
Proof.
  apply (requests_of_a_run (Sample.env Sample.two_coins Sample.never)
           Sample.worker Sample.fresh Sample.two_coins); reflexivity.
Defined.



(** X12.  A worker whose [stop()] was called before it runs still sends the
    ranking request; when that call answers, the run ends in [finished]
    with an empty result, handles no entity, logs nothing and leaves the
    cache as it was. *)
Theorem stop_before_start (env : Env) (w : DataWorker) (db : Database)
    (top : list Coin) :
  ranking env w = Ok top ->
  fst (run env (stop w) db) = Finished (mkResult [] [])
  /\ trace (snd (run env (stop w) db))
     = [Net (CoinsMarkets (lower (base_currency w)) "market_cap_desc" 20 1)]
  /\ cache (snd (run env (stop w) db)) = db.
Proof.
  intros R.
  assert (R' : ranking env (stop w) = Ok top) by exact R.
  rewrite (surjective_pairing (run env (stop w) db)) at 1.
  rewrite (run_state env (stop w) db top R').
  set (st0 := emit _ (start_state (stop w) db)).
  destruct (crypto_loop_stopped env (lower (base_currency (stop w)))
              (utc_timestamp (start_date (stop w)) 0 0 0)
              (utc_timestamp (end_date (stop w)) 23 59 59)
              (length top) 0 top st0 eq_refl) as (A & T & C & F & _).
  set (st1 := crypto_loop _ _ _ _ _ _ _ _) in *.
  destruct (fiat_loop_stopped env (length top) (length fiat_list)
              (length top + length fiat_list) 0 fiat_list st1 F)
    as (A' & T' & C' & _).
  rewrite T', C', T, C. split; [|split; reflexivity].
  unfold run. unfold ranking in R'. rewrite R'. cbn [fst].
  fold st0. fold st1. rewrite A', A. reflexivity.
Qed.

Lemma stop_before_start_witness :
  fst (run (Sample.env Sample.two_coins Sample.never) (stop Sample.worker)
         Sample.fresh)
  = Finished (mkResult [] []).
Proof.
  apply (stop_before_start (Sample.env Sample.two_coins Sample.never)
           Sample.worker Sample.fresh Sample.two_coins).
  reflexivity.
Defined.

(* ================================================================== *)
(** ** More on the cache after a run *)

Lemma write_through_cache (s f : string) (r : result Database)
    (st : RunState) :
  cache (write_through s f r st) = keep_or (cache st) r.
Proof. destruct r; reflexivity. Qed.

Lemma guarded_history (key name failed : string)
    (r : result (cell * Frame)) :
  snd (snd (guarded failed r)) = history (summary_of key name r).
Proof. destruct r as [[avg hist]|e]; reflexivity. Qed.

Lemma crypto_step_cache (env : Env) (vs : string) (f t : Z) (total idx : nat)
    (coin : Coin) (st : RunState) :
  cache (crypto_step env vs f t total idx coin st)
  = keep_or (cache st)
      (save_crypto_cache (sqlite_fault env (coin_id coin)) (coin_id coin)
         (history (summary_of (coin_id coin) (coin_name coin)
                     (snd (fetch_crypto env vs f t coin))))
         (cache st)).
Proof.
  unfold crypto_step.
  destruct (fetch_crypto env vs f t coin) as [calls r]. cbn [snd].
  rewrite <- (guarded_history (coin_id coin) (coin_name coin)
                ("Failed loading " ++ coin_name coin)).
  destruct (guarded ("Failed loading " ++ coin_name coin) r)
    as [logged [avg hist]].
  cbn [fst snd emit append_crypto cache]. rewrite write_through_cache.
  reflexivity.
Qed.

Lemma fiat_step_cache (env : Env) (tc tf ts idx : nat)
    (fiat : string * string) (st : RunState) :
  cache (fiat_step env tc tf ts idx fiat st)
  = keep_or (cache st)
      (save_fiat_cache (sqlite_fault env (fst fiat)) (fst fiat)
         (history (summary_of (fst fiat) (snd fiat)
                     (snd (fetch_fiat env (self st) (fst fiat)))))
         (cache st)).
Proof.
  unfold fiat_step. destruct fiat as [code name]. cbn [fst snd emit self].
  destruct (fetch_fiat env (self st) code) as [calls r]. cbn [snd].
  rewrite <- (guarded_history code name ("Failed loading fiat " ++ name)).
  destruct (guarded ("Failed loading fiat " ++ name) r)
    as [logged [avg hist]].
  cbn [fst snd emit append_fiat cache]. rewrite write_through_cache.
  reflexivity.
Qed.

Lemma crypto_loop_cache (env : Env) (w : DataWorker) (total : nat) :
  forall (top : list Coin) (idx : nat) (st : RunState),
  _stopped (self st) = false ->
  cache (crypto_loop env (lower (base_currency w))
           (utc_timestamp (start_date w) 0 0 0)
           (utc_timestamp (end_date w) 23 59 59) total idx top st)
  = after_crypto_saves env w
      (firstn (run_length env (polls st) (length top)) top) (cache st).
Proof.
  induction top as [|coin rest IH]; intros idx st H; [reflexivity|].
  cbn [crypto_loop length run_length]. rewrite poll_flag, H, orb_false_r.
  destruct (stop_called env (polls st)) eqn:SC; [reflexivity|].
  set (st0 := poll env st).
  destruct (crypto_step_acc env (lower (base_currency w))
              (utc_timestamp (start_date w) 0 0 0)
              (utc_timestamp (end_date w) 23 59 59) total idx coin st0)
    as (_ & HS & P).
  pose proof (crypto_step_cache env (lower (base_currency w))
                (utc_timestamp (start_date w) 0 0 0)
                (utc_timestamp (end_date w) 23 59 59) total idx coin st0)
    as C.
  set (st1 := crypto_step _ _ _ _ _ _ _ st0) in *.
  rewrite IH
    by (rewrite HS; unfold st0; rewrite (poll_running env st SC); exact H).
  rewrite P, C. reflexivity.
Qed.

Lemma fiat_loop_cache (env : Env) (tc tf ts : nat) :
  forall (fiats0 : list (string * string)) (idx : nat) (st : RunState),
  _stopped (self st) = false ->
  cache (fiat_loop env tc tf ts idx fiats0 st)
  = after_fiat_saves env (self st)
      (firstn (run_length env (polls st) (length fiats0)) fiats0) (cache st).
Proof.
  induction fiats0 as [|fiat rest IH]; intros idx st H; [reflexivity|].
  cbn [fiat_loop length run_length]. rewrite poll_flag, H, orb_false_r.
  destruct (stop_called env (polls st)) eqn:SC; [reflexivity|].
  set (st0 := poll env st).
  assert (E0 : self st0 = self st) by (apply poll_running, SC).
  destruct (fiat_step_acc env tc tf ts idx fiat st0) as (_ & HS & P).
  pose proof (fiat_step_cache env tc tf ts idx fiat st0) as C.
  set (st1 := fiat_step _ _ _ _ _ _ st0) in *.
  rewrite IH by (rewrite HS, E0; exact H).
  rewrite P, C, HS, E0. reflexivity.
Qed.

Lemma after_fiat_saves_request (env : Env) (a b : DataWorker) :
  same_request a b ->
  forall fiats0 db,
  after_fiat_saves env a fiats0 db = after_fiat_saves env b fiats0 db.
Proof.
  intros R. induction fiats0 as [|fiat rest IH]; intros db; [reflexivity|].
  cbn [after_fiat_saves fold_left]. unfold after_fiat_saves in IH.
  unfold fiat_summary.
  rewrite (fetch_fiat_request env a b (fst fiat) R). apply IH.
Qed.

(** The cache after a run is what the write-through of the handled
    entities, in order, makes of it. *)
Lemma run_cache (env : Env) (w : DataWorker) (db : Database)
    (top : list Coin) :
  _stopped w = false -> ranking env w = Ok top ->
  cache (snd (run env w db))
  = after_fiat_saves env w
      (firstn (fiats_handled env (length top)) fiat_list)
      (after_crypto_saves env w
         (firstn (coins_handled env (length top)) top) db).
Proof.
  intros H R. rewrite (run_state env w db top R).
  set (st0 := emit _ (start_state w db)).
  destruct (crypto_loop_spec env (lower (base_currency w))
              (utc_timestamp (start_date w) 0 0 0)
              (utc_timestamp (end_date w) 23 59 59)
              (length top) top 0 st0 H) as (_ & Rq & F & P).
  pose proof (crypto_loop_cache env w (length top) top 0 st0 H) as C.
  set (st1 := crypto_loop _ _ _ _ _ _ _ _) in *.
  change (polls st0) with 0 in *. change (self st0) with w in Rq.
  change (cache st0) with db in C.
  unfold fiats_handled, coins_handled.
  destruct (run_length env 0 (length top) <? length top) eqn:L.
  - destruct (fiat_loop_stopped env (length top) (length fiat_list)
                (length top + length fiat_list) 0 fiat_list st1 F)
      as (_ & _ & C' & _).
    rewrite C', C. reflexivity.
  - rewrite fiat_loop_cache by exact F.
    assert (K : run_length env 0 (length top) = length top).
    { apply Nat.ltb_ge in L. pose proof (run_length_le env (length top) 0).
      lia. }
    rewrite K in P. cbn [Nat.add] in P.
    rewrite P, C, (after_fiat_saves_request env (self st1) w Rq).
    reflexivity.
Qed.

Lemma apply_writes_app (a b : list Write) (db : Database) :
  apply_writes (a ++ b) db
  = match apply_writes a db with
    | Ok db' => apply_writes b db'
    | Raise e => Raise e
    end.
Proof.
  revert db. induction a as [|x a IH]; intros db; [reflexivity|].
  cbn [app apply_writes]. destruct (apply_write x db); [apply IH|reflexivity].
Qed.

Lemma after_crypto_saves_writes (env : Env) (w : DataWorker) :
  (forall e, sqlite_fault env e = None) ->
  forall coins tc tf,
  exists tc',
    apply_writes
      (map (fun c => WriteCrypto (coin_id c)
                       (history (crypto_summary env w c))) coins)
      (mkDatabase (Some tc) (Some tf))
    = Ok (mkDatabase (Some tc') (Some tf))
    /\ after_crypto_saves env w coins (mkDatabase (Some tc) (Some tf))
       = mkDatabase (Some tc') (Some tf).
Proof.
  intros N. induction coins as [|c coins IH]; intros tc tf.
  - exists tc. split; reflexivity.
  - cbn [map apply_writes apply_write after_crypto_saves fold_left].
    rewrite N.
    rewrite (save_crypto_cache_rows (coin_id c)
               (history (crypto_summary env w c))
               (mkDatabase (Some tc) (Some tf)) tc eq_refl).
    cbn [keep_or fiat_rates]. apply IH.
Qed.

Lemma after_fiat_saves_writes (env : Env) (w : DataWorker) :
  (forall e, sqlite_fault env e = None) ->
  forall fiats0 tc tf,
  exists tf',
    apply_writes
      (map (fun fiat => WriteFiat (fst fiat)
                          (history (fiat_summary env w fiat))) fiats0)
      (mkDatabase (Some tc) (Some tf))
    = Ok (mkDatabase (Some tc) (Some tf'))
    /\ after_fiat_saves env w fiats0 (mkDatabase (Some tc) (Some tf))
       = mkDatabase (Some tc) (Some tf').
Proof.
  intros N. induction fiats0 as [|c fiats0 IH]; intros tc tf.
  - exists tf. split; reflexivity.
  - cbn [map apply_writes apply_write after_fiat_saves fold_left].
    rewrite N.
    rewrite (save_fiat_cache_rows (fst c)
               (history (fiat_summary env w c))
               (mkDatabase (Some tc) (Some tf)) tf eq_refl).
    cbn [keep_or crypto_prices]. apply IH.
Qed.

(** X13.  On an initialised cache whose writes do not fail, when every
    date of the histories of the handled entities is a date of the calendar
    (which the conversion to dates of a save requires), the cache after a
    run is the cache after saving, in order, the history of every handled
    coin in [crypto_prices] and then the history of every handled currency
    in [fiat_rates]; nothing else is written, and a well-formed cache stays
    well formed. *)
Theorem run_writes_histories_through (env : Env) (w : DataWorker)
    (tc tf : table) (top : list Coin) :
  _stopped w = false -> ranking env w = Ok top ->
  (forall e, sqlite_fault env e = None) ->
  let db := mkDatabase (Some tc) (Some tf) in
  let ws :=
    history_writes env w (firstn (coins_handled env (length top)) top)
      (firstn (fiats_handled env (length top)) fiat_list) in
  Forall write_dates_valid ws ->
  apply_writes ws db = Ok (cache (snd (run env w db)))
  /\ (cache_ok db -> cache_ok (cache (snd (run env w db)))).
Proof.
  intros H R N db ws V.
  assert (E : apply_writes ws db = Ok (cache (snd (run env w db)))).
  { unfold ws, db, history_writes.
    rewrite (run_cache env w _ top H R), apply_writes_app.
    destruct (after_crypto_saves_writes env w N
                (firstn (coins_handled env (length top)) top) tc tf)
      as (tc' & -> & ->).
    destruct (after_fiat_saves_writes env w N
                (firstn (fiats_handled env (length top)) fiat_list) tc' tf)
      as (tf' & -> & ->).
    reflexivity. }
  split; [exact E|]. intros O.
  destruct (apply_writes_ok ws db O V) as (db' & E' & O').
  rewrite E in E'. inversion E'; subst db'. exact O'.
Qed.

Lemma run_writes_histories_through_witness :
  apply_writes
    (history_writes (Sample.env Sample.two_coins Sample.never) Sample.worker
       Sample.two_coins fiat_list)
    (mkDatabase (Some []) (Some []))
  = Ok (cache (snd (run (Sample.env Sample.two_coins Sample.never)
                      Sample.worker (mkDatabase (Some []) (Some [])))))
  /\ (cache_ok (mkDatabase (Some []) (Some [])) ->
      cache_ok (cache (snd (run (Sample.env Sample.two_coins Sample.never)
                             Sample.worker
                             (mkDatabase (Some []) (Some [])))))).
Proof.
  apply (run_writes_histories_through
           (Sample.env Sample.two_coins Sample.never) Sample.worker [] []
           Sample.two_coins).
  - reflexivity.
  - reflexivity.
  - intros e. reflexivity.
  - apply Forall_forall. intros wr Hin. vm_compute in Hin.
    repeat (destruct Hin as [<-|Hin]); try (destruct Hin);
      intros r Hr; repeat (destruct Hr as [<-|Hr]); try (destruct Hr);
      reflexivity.
Defined.

Lemma failing_crypto_save_keeps (e : string) (coin_id : string) (df : Frame)
    (db : Database) :
  keep_or db (save_crypto_cache (Some e) coin_id df db) = db
  /\ keep_or no_tables (save_crypto_cache None coin_id df no_tables)
     = no_tables.
Proof. destruct df; split; reflexivity. Qed.

Lemma failing_fiat_save_keeps (e : string) (code : string) (df : Frame)
    (db : Database) :
  keep_or db (save_fiat_cache (Some e) code df db) = db
  /\ keep_or no_tables (save_fiat_cache None code df no_tables) = no_tables.
Proof. destruct df; split; reflexivity. Qed.

(** X14.  A run whose cache writes all fail, because the file is faulty or
    because the tables were never created, leaves the cache as it was. *)
Theorem failed_writes_leave_the_cache (env : Env) (w : DataWorker)
    (db : Database) (top : list Coin) :
  _stopped w = false -> ranking env w = Ok top ->
  (forall e, sqlite_fault env e <> None) \/ db = no_tables ->
  cache (snd (run env w db)) = db.
Proof.
  intros H R F. rewrite (run_cache env w db top H R).
  assert (A : forall coins, after_crypto_saves env w coins db = db).
  { induction coins as [|c coins IH]; [reflexivity|].
    cbn [after_crypto_saves fold_left]. unfold after_crypto_saves in IH.
    destruct F as [F| ->].
    - destruct (sqlite_fault env (coin_id c)) as [e|] eqn:E;
        [|destruct (F _ E)].
      rewrite (proj1 (failing_crypto_save_keeps e _ _ db)). exact IH.
    - destruct (sqlite_fault env (coin_id c)) as [e|].
      + rewrite (proj1 (failing_crypto_save_keeps e _ _ no_tables)).
        exact IH.
      + rewrite (proj2 (failing_crypto_save_keeps "" _ _ no_tables)).
        exact IH. }
  assert (B : forall fiats0, after_fiat_saves env w fiats0 db = db).
  { induction fiats0 as [|c fiats0 IH]; [reflexivity|].
    cbn [after_fiat_saves fold_left]. unfold after_fiat_saves in IH.
    destruct F as [F| ->].
    - destruct (sqlite_fault env (fst c)) as [e|] eqn:E;
        [|destruct (F _ E)].
      rewrite (proj1 (failing_fiat_save_keeps e _ _ db)). exact IH.
    - destruct (sqlite_fault env (fst c)) as [e|].
      + rewrite (proj1 (failing_fiat_save_keeps e _ _ no_tables)).
        exact IH.
      + rewrite (proj2 (failing_fiat_save_keeps "" _ _ no_tables)).
        exact IH. }
  rewrite A. apply B.
Qed.

Lemma failed_writes_leave_the_cache_witness :
  cache (snd (run (with_fault (Sample.env Sample.two_coins Sample.never)
                     Sample.locked) Sample.worker sample_cache))
  = sample_cache.
Proof.
  apply (failed_writes_leave_the_cache
           (with_fault (Sample.env Sample.two_coins Sample.never)
              Sample.locked) Sample.worker sample_cache Sample.two_coins).
  - reflexivity.
  - reflexivity.
  - left. intros e. discriminate.
Defined.

(* ================================================================== *)
(** ** More on the worker *)

Lemma upper_char_twice (c : ascii) : upper_char (upper_char c) = upper_char c.
Proof.
  destruct c as [[] [] [] [] [] [] [] []]; reflexivity.
Qed.

Lemma upper_lower_char (c : ascii) : upper_char (lower_char c) = upper_char c.
Proof.
  destruct c as [[] [] [] [] [] [] [] []]; reflexivity.
Qed.

Lemma upper_twice (s : string) : upper (upper s) = upper s.
Proof.
  induction s as [|c s IH]; [reflexivity|].
  cbn [upper map_string]. fold (upper s). fold (upper (upper s)).
  rewrite upper_char_twice, IH. reflexivity.
Qed.

Lemma upper_lower (s : string) : upper (lower s) = upper s.
Proof.
  induction s as [|c s IH]; [reflexivity|].
  cbn [upper lower map_string]. fold (lower s). fold (upper s).
  fold (upper (lower s)). rewrite upper_lower_char, IH. reflexivity.
Qed.

Lemma upper_char_ascii (c : ascii) :
  (nat_of_ascii c <? 128) = true -> (nat_of_ascii (upper_char c) <? 128) = true.
Proof.
  destruct c as [[] [] [] [] [] [] [] []]; vm_compute; intros E;
    first [reflexivity | discriminate E].
Qed.

Lemma upper_ascii_only (s : string) :
  ascii_only s = true -> ascii_only (upper s) = true.
Proof.
  induction s as [|c s IH]; [reflexivity|].
  cbn [ascii_only upper map_string]. intros E.
  apply andb_prop in E. destruct E as [E1 E2].
  apply andb_true_intro. split; [apply upper_char_ascii, E1|apply IH, E2].
Qed.

(** X15.  The base currency is read without regard to case: for a base
    currency written in ASCII characters, a request made with it in upper
    case, in lower case or as typed starts the same worker and gives the
    same outcome; and the base currency of that worker is ASCII text that
    upper case leaves as it is. *)
Theorem base_currency_case_is_ignored (env : Env) (start stop : Date)
    (base : string) (db : Database) :
  ascii_only base = true ->
  new_worker start stop (upper base) = new_worker start stop base
  /\ new_worker start stop (lower base) = new_worker start stop base
  /\ on_load env start stop (upper base) db = on_load env start stop base db
  /\ on_load env start stop (lower base) db = on_load env start stop base db
  /\ ascii_only (base_currency (new_worker start stop base)) = true
  /\ upper (base_currency (new_worker start stop base))
     = base_currency (new_worker start stop base).
Proof.
  intros A.
  assert (U : new_worker start stop (upper base) = new_worker start stop base)
    by (unfold new_worker; rewrite upper_twice; reflexivity).
  assert (L : new_worker start stop (lower base) = new_worker start stop base)
    by (unfold new_worker; rewrite upper_lower; reflexivity).
  unfold on_load. rewrite U, L.
  split; [reflexivity|]. split; [reflexivity|]. split; [reflexivity|].
  split; [reflexivity|]. cbn [new_worker base_currency]. split.
  - apply upper_ascii_only, A.
  - apply upper_twice.
Qed.

Lemma base_currency_case_is_ignored_witness :
  new_worker (Sample.jan 1) (Sample.jan 3) "EUR" = Sample.worker
  /\ on_load (Sample.env Sample.two_coins Sample.never) (Sample.jan 1)
       (Sample.jan 3) "EUR" Sample.fresh
     = on_load (Sample.env Sample.two_coins Sample.never) (Sample.jan 1)
         (Sample.jan 3) "eur" Sample.fresh.
Proof.
  destruct (base_currency_case_is_ignored
              (Sample.env Sample.two_coins Sample.never) (Sample.jan 1)
              (Sample.jan 3) "eur" Sample.fresh)
    as (U & _ & O & _).
  - reflexivity.
  - split; [exact U|exact O].
Defined.

Lemma ascending_of_dates (f : Date -> cell) (l : list Date) :
  Sorted date_lt l -> ascending (map (fun d => (d, f d)) l).
Proof.
  unfold ascending. intros S. induction S as [|d l S IH H]; [constructor|].
  cbn [map]. constructor; [exact IH|].
  destruct H as [|d' l' H]; constructor. exact H.
Qed.

Lemma resample_1D_mean_ascending (samples : Frame) :
  ascending (resample_1D_mean samples).
Proof.
  unfold resample_1D_mean. destruct samples as [|[d0 v0] rest];
    [constructor|].
  apply (ascending_of_dates
           (fun d => series_mean
                       (column (filter (fun s => date_eqb (fst s) d)
                                  ((d0, v0) :: rest))))).
  apply days_from_ascending.
Qed.

Lemma dropna_rows_present (df : Frame) (r : Date * cell) :
  In r (dropna_rows df) -> snd r <> None.
Proof.
  unfold dropna_rows. intros H. apply filter_In in H. destruct H as [_ H].
  destruct r as [d [x|]]; cbn [snd] in *; [discriminate|discriminate H].
Qed.

Lemma dropna_all_present (df : Frame) :
  (forall r, In r df -> snd r <> None) ->
  dropna (column df) = [] -> df = [].
Proof.
  intros P E. destruct df as [|[d [x|]] df]; [reflexivity| |].
  - discriminate E.
  - exfalso. apply (P (d, None)); [left|]; reflexivity.
Qed.

Lemma crypto_history_shape (env : Env) (w : DataWorker) (coin : Coin) :
  let s := crypto_summary env w coin in
  ascending (history s)
  /\ (forall r, In r (history s) -> snd r <> None)
  /\ (average s = None <-> history s = []).
Proof.
  cbv zeta.
  assert (A : ascending (history (crypto_summary env w coin))
              /\ forall r, In r (history (crypto_summary env w coin)) ->
                           snd r <> None).
  { unfold crypto_summary, crypto_fetch, fetch_crypto. cbn [snd].
    destruct (get_coin_market_chart_range_by_id _ _ _ _ _) as [prices|e];
      [|split; [constructor|intros r []]].
    destruct (negb (empty (frame_of_samples prices)));
      [|split; [constructor|intros r []]].
    cbn [summary_of history]. split.
    - apply ascending_filter, resample_1D_mean_ascending.
    - intros r. apply dropna_rows_present. }
  destruct A as [A P]. split; [exact A|]. split; [exact P|].
  rewrite (crypto_summary_mean env w coin). unfold series_mean.
  pose proof (mean_spec (dropna (column (history (crypto_summary env w coin)))))
    as M.
  split.
  - intros E. rewrite E in M. apply (dropna_all_present _ P M).
  - intros ->. reflexivity.
Qed.

(** X16.  The history of a coin holds at most one row per calendar day, in
    ascending order of day, and no missing value; and the coin has an
    average exactly when its history is not empty. *)
Theorem crypto_history_is_daily_and_complete (env : Env) (w : DataWorker)
    (coin : Coin) :
  let s := crypto_summary env w coin in
  ascending (history s)
  /\ NoDup (map fst (history s))
  /\ (forall r, In r (history s) -> snd r <> None)
  /\ (average s = None <-> history s = []).
Proof.
  cbv zeta. destruct (crypto_history_shape env w coin) as (A & P & E).
  split; [exact A|]. split; [apply ascending_NoDup, A|].
  split; [exact P|exact E].
Qed.

(* ================================================================== *)
(** ** The charts *)

Lemma present_rows_values (df : Frame) :
  map snd (present_rows df) = dropna (column df).
Proof.
  induction df as [|[d [x|]] df IH]; cbn; [reflexivity|f_equal|]; exact IH.
Qed.

Lemma present_rows_nil (df : Frame) :
  dropna (column df) = [] -> present_rows df = [].
Proof.
  intros E. rewrite <- present_rows_values in E.
  destruct (present_rows df); [reflexivity|discriminate E].
Qed.

Lemma dropna_length_le (df : Frame) :
  length (dropna (column df)) <= length df.
Proof.
  induction df as [|[d [x|]] df IH].
  - apply Nat.le_refl.
  - cbn [column map snd dropna length]. fold (column df). lia.
  - cbn [column map snd dropna length]. fold (column df). lia.
Qed.

Lemma plotted_points_values (df : Frame) :
  map snd (plotted_points df) = dropna (column df)
  /\ map fst (plotted_points df)
     = firstn (length (dropna (column df))) (map fst df).
Proof.
  unfold plotted_points.
  assert (L : length (firstn (length (dropna (column df))) (map fst df))
              = length (dropna (column df))).
  { rewrite length_firstn, length_map. apply Nat.min_l.
    apply dropna_length_le. }
  remember (firstn (length (dropna (column df))) (map fst df)) as ds.
  remember (dropna (column df)) as ys. clear Heqds Heqys.
  revert ys L. induction ds as [|d ds IH]; intros [|y ys] L;
    try discriminate L; [split; reflexivity|].
  cbn. destruct (IH ys) as [A B]; [cbn in L; lia|].
  rewrite A, B. split; reflexivity.
Qed.

(** When no missing value comes before a value, every value is drawn at
    its own date. *)
Lemma plotted_points_aligned (df : Frame) :
  missing_at_end df -> plotted_points df = present_rows df.
Proof.
  unfold plotted_points. induction df as [|[d [x|]] df IH]; intros M.
  - reflexivity.
  - cbn. f_equal. apply IH. exact M.
  - cbn [missing_at_end] in M.
    cbn [column map snd dropna present_rows]. fold (column df).
    rewrite M, (present_rows_nil df M). reflexivity.
Qed.

Lemma all_present_missing_at_end (df : Frame) :
  (forall r, In r df -> snd r <> None) -> missing_at_end df.
Proof.
  induction df as [|[d [x|]] df IH]; intros P; cbn; [exact I| |].
  - apply IH. intros r Hr. apply P. right. exact Hr.
  - exfalso. apply (P (d, None)); [left|]; reflexivity.
Qed.

Lemma all_present_rows (df : Frame) :
  (forall r, In r df -> snd r <> None) ->
  map (fun p => (fst p, Some (snd p))) (present_rows df) = df.
Proof.
  induction df as [|[d [x|]] df IH]; intros P; cbn; [reflexivity| |].
  - rewrite IH; [reflexivity|]. intros r Hr. apply P. right. exact Hr.
  - exfalso. apply (P (d, None)); [left|]; reflexivity.
Qed.

Lemma draw_nonempty (df : Frame) (msg title ylabel : string) (avg : cell) :
  dropna (column df) <> [] ->
  draw df msg title ylabel avg = Plot (plotted_points df) title ylabel avg.
Proof.
  intros N. unfold draw. destruct df as [|r df]; [destruct N; reflexivity|].
  cbn [empty]. destruct (dropna (column (r :: df)));
    [destruct N; reflexivity|reflexivity].
Qed.

(** X17.  The chart of a coin whose history is not empty is drawn from
    that history, whatever the cache holds: one point per row, at the date
    and the value of the row, with the average line at the average of the
    summary, which is the mean of the values drawn. *)
Theorem plot_crypto_draws_the_history (env : Env) (w : DataWorker)
    (coin : Coin) (start stop : Date) (currency : string) (db : Database) :
  let s := crypto_summary env w coin in
  history s <> [] ->
  exists points m,
    plot_crypto start stop currency s db
    = Ok (Plot points (coin_name coin ++ " price (" ++ currency ++ ")")
            ("Price (" ++ currency ++ ")") (Some m))
    /\ map (fun p => (fst p, Some (snd p))) points = history s
    /\ average s = Some m
    /\ (m * Qc_of_nat (length points) = Qc_sum (map snd points))%Qc.
Proof.
  cbv zeta. intros N.
  destruct (crypto_history_shape env w coin) as (_ & P & A).
  set (s := crypto_summary env w coin) in *.
  assert (D : dropna (column (history s)) <> []).
  { intros E. apply N. apply (dropna_all_present _ P E). }
  destruct (average s) as [m|] eqn:Em; [|destruct N; apply A; reflexivity].
  exists (present_rows (history s)), m.
  assert (Nm : display_name s = coin_name coin).
  { unfold s, crypto_summary.
    destruct (snd (crypto_fetch env w coin)) as [[? ?]|?]; reflexivity. }
  split; [|split; [apply all_present_rows, P|split; [reflexivity|]]].
  - unfold plot_crypto. destruct (history s) as [|r h] eqn:Eh;
      [destruct N; reflexivity|].
    cbn [empty]. rewrite (draw_nonempty _ _ _ _ _ D), Em, Nm.
    rewrite (plotted_points_aligned _ (all_present_missing_at_end _ P)).
    reflexivity.
  - pose proof (crypto_summary_mean env w coin) as M.
    fold s in M. unfold mean_of_history in M. rewrite Em in M.
    unfold series_mean in M.
    pose proof (mean_spec (dropna (column (history s)))) as Sp.
    rewrite <- M in Sp. destruct Sp as [_ Sp].
    rewrite present_rows_values, <- (length_map snd), present_rows_values.
    exact Sp.
Qed.

Lemma plot_crypto_draws_the_history_witness :
  exists points m,
    plot_crypto (Sample.jan 1) (Sample.jan 3) "EUR"
      (crypto_summary (Sample.env Sample.two_coins Sample.never)
         Sample.worker (mkCoin "bitcoin" "Bitcoin")) no_tables
    = Ok (Plot points "Bitcoin price (EUR)" "Price (EUR)" (Some m))
    /\ length points = 2.
Proof.
  destruct (plot_crypto_draws_the_history
              (Sample.env Sample.two_coins Sample.never) Sample.worker
              (mkCoin "bitcoin" "Bitcoin") (Sample.jan 1) (Sample.jan 3)
              "EUR" no_tables)
    as (points & m & E & H & _).
  - vm_compute. discriminate.
  - exists points, m. split; [exact E|].
    apply (f_equal (@length _)) in H. rewrite length_map in H.
    rewrite H. vm_compute. reflexivity.
Defined.

Lemma present_rows_In (df : Frame) (d : Date) (x : Qc) :
  In (d, x) (present_rows df) <-> In (d, Some x) df.
Proof.
  induction df as [|[d0 [x0|]] df IH]; cbn [present_rows In].
  - tauto.
  - rewrite IH. split; (intros [E|H]; [left; inversion E; reflexivity|right; exact H]).
  - rewrite IH. split; [intros H; right; exact H|].
    intros [E|H]; [discriminate E|exact H].
Qed.

Lemma crypto_summary_asset (env : Env) (w : DataWorker) (coin : Coin) :
  asset (crypto_summary env w coin) = coin_id coin
  /\ display_name (crypto_summary env w coin) = coin_name coin.
Proof.
  unfold crypto_summary.
  destruct (snd (crypto_fetch env w coin)) as [[? ?]|?]; split; reflexivity.
Qed.

(** X18.  The chart of a coin whose history is empty is drawn from the
    cache, for the dates the window shows.  On a well-formed cache whose
    rows of that coin all hold a price: when the cache has no row of the
    coin in the range, the "No data" message box is shown and nothing is
    drawn; when it has one, a curve is drawn, through exactly the cached
    rows of the coin in the range, in ascending order of date, with the
    title and the label of the coin and no average line. *)
Theorem plot_crypto_falls_back_to_cache (env : Env) (w : DataWorker)
    (coin : Coin) (start stop : Date) (currency : string) (db : Database)
    (tc : table) :
  let s := crypto_summary env w coin in
  let cached :=
    exists d v, valid_date d
                /\ In (mkRow (coin_id coin) (isoformat d) v) tc
                /\ date_le start d /\ date_le d stop in
  history s = [] ->
  cache_ok db -> crypto_prices db = Some tc ->
  valid_date start -> valid_date stop ->
  (forall r, In r tc -> row_entity r = coin_id coin ->
             row_value r <> None) ->
  (~ cached ->
   plot_crypto start stop currency s db
   = Ok (MessageBox "No data"
           ("No historical data available for this crypto in the "
            ++ "selected period (and cache).")))
  /\ (cached ->
      exists points,
        plot_crypto start stop currency s db
        = Ok (Plot points (coin_name coin ++ " price (" ++ currency ++ ")")
                ("Price (" ++ currency ++ ")") None)
        /\ points <> []
        /\ (forall d x,
              In (d, x) points
              <-> valid_date d
                  /\ In (mkRow (coin_id coin) (isoformat d) (Some x)) tc
                  /\ date_le start d /\ date_le d stop)
        /\ Sorted (fun a b => date_lt (fst a) (fst b)) points).
Proof.
  cbv zeta. intros Eh (tc' & tf & Ec & Ef & Oc & Of) Ec' Vs Ve P.
  rewrite Ec in Ec'. inversion Ec'; subst tc'. clear Ec'.
  destruct (crypto_history_shape env w coin) as (_ & _ & A).
  destruct (crypto_summary_asset env w coin) as (Ea & En).
  set (s := crypto_summary env w coin) in *.
  destruct (load_table_spec tc (coin_id coin) start stop Oc Vs Ve)
    as (df & L & I & Asc).
  assert (Pd : forall r, In r df -> snd r <> None).
  { intros [d v] Hr. destruct (proj1 (I d v) Hr) as (_ & Hin & _).
    apply (P _ Hin). reflexivity. }
  assert (L' : load_crypto_cache (coin_id coin) start stop db = Ok df)
    by (unfold load_crypto_cache; rewrite Ec; exact L).
  unfold plot_crypto. rewrite Eh. cbn [empty].
  rewrite Ea, L', (proj2 A Eh), En.
  destruct df as [|r df'].
  - split; [intros _; reflexivity|].
    intros (d & v & V & Hin & L1 & L2). exfalso.
    apply (proj2 (I d v)). repeat split; assumption.
  - split.
    { intros C. exfalso. apply C. destruct r as [d v]. exists d, v.
      apply (proj1 (I d v)). left. reflexivity. }
    intros _.
    remember (r :: df') as df eqn:Ed.
    assert (D : dropna (column df) <> []).
    { intros E. apply (dropna_all_present _ Pd) in E. congruence. }
    assert (Ne : present_rows df <> []).
    { rewrite Ed. destruct r as [d [x|]]; [discriminate|].
      exfalso. apply (Pd (d, None)); [rewrite Ed; left|]; reflexivity. }
    clear Ed.
    rewrite (draw_nonempty _ _ _ _ _ D).
    rewrite (plotted_points_aligned _ (all_present_missing_at_end _ Pd)).
    exists (present_rows df).
    split; [reflexivity|]. split; [exact Ne|]. split.
    + intros d x. rewrite present_rows_In. apply I.
    + clear Ne.
      rewrite <- (all_present_rows df Pd) in Asc. unfold ascending in Asc.
      induction (present_rows df) as [|p l IHl]; [constructor|].
      cbn [map] in Asc. inversion Asc as [|? ? S H]; subst.
      constructor; [apply IHl, S|].
      destruct l as [|p' l]; constructor.
      inversion H; subst. assumption.
Qed.

Lemma plot_crypto_falls_back_to_cache_witness :
  exists points,
    plot_crypto (Sample.jan 1) (Sample.jan 2) "EUR"
      (crypto_summary
         (mkEnv (fun _ _ _ _ => Ok Sample.two_coins)
            (fun _ _ _ _ => Raise "timeout") Sample.rates Sample.no_fault
            Sample.never Sample.traceback)
         Sample.worker (mkCoin "bitcoin" "Bitcoin"))
      sample_cache
    = Ok (Plot points "Bitcoin price (EUR)" "Price (EUR)" None)
    /\ points <> []
    /\ forall d x, In (d, x) points -> date_le d (Sample.jan 2).
Proof.
  destruct (plot_crypto_falls_back_to_cache
              (mkEnv (fun _ _ _ _ => Ok Sample.two_coins)
                 (fun _ _ _ _ => Raise "timeout") Sample.rates
                 Sample.no_fault Sample.never Sample.traceback)
              Sample.worker (mkCoin "bitcoin" "Bitcoin")
              (Sample.jan 1) (Sample.jan 2) "EUR" sample_cache
              [mkRow "bitcoin" "2024-01-01" (Sample.q 101);
               mkRow "bitcoin" "2024-01-03" (Sample.q 110)])
    as (_ & C).
  - reflexivity.
  - exact cache_ok_sample.
  - vm_compute. reflexivity.
  - reflexivity.
  - reflexivity.
  - intros r [<-|[<-|[]]] _; discriminate.
  - destruct C as (points & E & Ne & I & _).
    + exists (Sample.jan 1), (Sample.q 101).
      split; [reflexivity|]. split; [left; reflexivity|].
      split; reflexivity.
    + exists points. split; [exact E|]. split; [exact Ne|].
      intros d x Hin. apply (I d x). exact Hin.
Defined.

Lemma fiat_summary_name (env : Env) (w : DataWorker)
    (fiat : string * string) :
  display_name (fiat_summary env w fiat) = snd fiat.
Proof.
  unfold fiat_summary.
  destruct (snd (fetch_fiat env w (fst fiat))) as [[? ?]|?]; reflexivity.
Qed.

(** X19.  The chart of a currency of a run started by [on_load]: a message
    box says "No data" when the history is empty and "No numeric data"
    when it holds no value, and then the summary has no average;
    otherwise the curve has one point per value of the history, in order,
    and the average line is drawn at the mean of the values drawn. *)
Theorem plot_fiat_of_a_run_summary (env : Env) (w : DataWorker)
    (fiat : string * string) (currency : string) :
  date_le (start_date w) (end_date w) ->
  let s := fiat_summary env w fiat in
  match plot_fiat currency s with
  | MessageBox title _ =>
      average s = None
      /\ ((title = "No data" /\ history s = [])
          \/ (title = "No numeric data" /\ history s <> []
              /\ dropna (column (history s)) = []))
  | Plot points title ylabel line =>
      title = snd fiat ++ " rate (" ++ currency ++ ")"
      /\ map snd points = dropna (column (history s))
      /\ exists m,
           line = Some m /\ average s = Some m
           /\ (m * Qc_of_nat (length points) = Qc_sum (map snd points))%Qc
  end.
Proof.
  intros L. cbv zeta.
  pose proof (fiat_summary_mean env w fiat L) as M.
  pose proof (fiat_summary_name env w fiat) as Nm.
  set (s := fiat_summary env w fiat) in *.
  unfold mean_of_history, series_mean in M.
  pose proof (mean_spec (dropna (column (history s)))) as Sp.
  rewrite <- M in Sp.
  unfold plot_fiat, draw. destruct (history s) as [|r h] eqn:Eh.
  - cbn [empty]. split; [exact M|]. left. split; reflexivity.
  - cbn [empty]. destruct (dropna (column (r :: h))) as [|y ys] eqn:Ed.
    + cbn [empty]. split; [exact M|]. right.
      split; [reflexivity|]. split; [discriminate|reflexivity].
    + cbn [empty]. rewrite Nm. split; [reflexivity|].
      destruct (plotted_points_values (r :: h)) as [V _].
      rewrite Ed in V. split; [exact V|].
      destruct (average s) as [m|]; [|discriminate Sp].
      exists m. split; [reflexivity|]. split; [reflexivity|].
      destruct Sp as [_ Sp].
      rewrite V, <- (length_map snd), V. exact Sp.
Qed.

Lemma plot_fiat_of_a_run_summary_witness :
  exists points m,
    plot_fiat "EUR"
      (fiat_summary (Sample.env Sample.two_coins Sample.never)
         Sample.worker ("JPY", "Japanese Yen"))
    = Plot points "Japanese Yen rate (EUR)" "Rate (EUR)" (Some m)
    /\ (m * Qc_of_nat (length points) = Qc_sum (map snd points))%Qc.
Proof.
  pose proof (plot_fiat_of_a_run_summary
                (Sample.env Sample.two_coins Sample.never) Sample.worker
                ("JPY", "Japanese Yen") "EUR" eq_refl) as H.
  cbv zeta in H.
  destruct (plot_fiat "EUR"
              (fiat_summary (Sample.env Sample.two_coins Sample.never)
                 Sample.worker ("JPY", "Japanese Yen")))
    as [title text|points title ylabel line] eqn:E.
  - vm_compute in E. discriminate E.
  - destruct H as (-> & _ & m & -> & _ & S).
    exists points, m. split; [|exact S].
    vm_compute in E. inversion E. reflexivity.
Defined.

(** X20.  A chart pairs the values of the history that are not missing,
    in order, with the first dates of the history.  So every value is
    drawn at its own date when no missing value comes before a value; and
    when the first row holds no value, the first value is drawn at the
    date of that row. *)
Theorem plot_fiat_pairs_values_with_first_dates (currency : string)
    (cur : AssetSummary) (points : list (Date * Qc))
    (title ylabel : string) (line : cell) :
  plot_fiat currency cur = Plot points title ylabel line ->
  map snd points = dropna (column (history cur))
  /\ map fst points = firstn (length points) (map fst (history cur))
  /\ (missing_at_end (history cur) -> points = present_rows (history cur))
  /\ (forall d rest, history cur = (d, None) :: rest ->
        exists x rest', points = (d, x) :: rest').
Proof.
  unfold plot_fiat, draw. intros E.
  destruct (history cur) as [|r h] eqn:Eh; [discriminate E|].
  cbn [empty] in E.
  destruct (dropna (column (r :: h))) as [|y ys] eqn:Ed; [discriminate E|].
  cbn [empty] in E. inversion E; subst points. clear E.
  destruct (plotted_points_values (r :: h)) as [V F].
  split; [rewrite V, Ed; reflexivity|]. split; [|split].
  - rewrite F, <- (length_map snd (plotted_points (r :: h))), V.
    reflexivity.
  - apply plotted_points_aligned.
  - intros d rest Er. inversion Er; subst r h.
    unfold plotted_points. rewrite Ed. cbn [length firstn map fst combine].
    eexists. eexists. reflexivity.
Qed.

Lemma plot_fiat_pairs_values_with_first_dates_witness :
  exists x rest,
    plot_fiat "USD"
      (mkSummary "EUR" "Euro" (Some 1%Qc)
         [(Sample.jan 1, None); (Sample.jan 2, Some 1%Qc)])
    = Plot ((Sample.jan 1, x) :: rest) "Euro rate (USD)" "Rate (USD)"
        (Some 1%Qc).
Proof.
  destruct (plot_fiat_pairs_values_with_first_dates "USD"
              (mkSummary "EUR" "Euro" (Some 1%Qc)
                 [(Sample.jan 1, None); (Sample.jan 2, Some 1%Qc)])
              [(Sample.jan 1, 1%Qc)] "Euro rate (USD)" "Rate (USD)"
              (Some 1%Qc) eq_refl) as (_ & _ & _ & H).
  destruct (H (Sample.jan 1) [(Sample.jan 2, Some 1%Qc)] eq_refl)
    as (x & rest & E).
  exists x, rest. rewrite <- E. reflexivity.
Defined.

(* ================================================================== *)
(** ** The time range of the chart requests *)

Lemma div_step (k Y : Z) :
  (0 < k)%Z ->
  (Y / k - (Y - 1) / k = if (Y mod k =? 0)%Z then 1 else 0)%Z.
Proof.
  intros Hk.
  pose proof (Z.div_mod Y k ltac:(lia)).
  pose proof (Z.div_mod (Y - 1) k ltac:(lia)).
  pose proof (Z.mod_pos_bound (Y - 1) k Hk).
  pose proof (Z.mod_pos_bound Y k Hk).
  destruct (Z.eqb_spec (Y mod k) 0) as [E|E]; nia.
Qed.

Lemma is_leap_Z (y : nat) :
  is_leap y
  = ((Z.of_nat y mod 4 =? 0)%Z
     && (negb (Z.of_nat y mod 100 =? 0)%Z || (Z.of_nat y mod 400 =? 0)%Z)).
Proof.
  unfold is_leap.
  assert (E : forall k, k <> 0 ->
            (y mod k =? 0) = (Z.of_nat y mod Z.of_nat k =? 0)%Z).
  { intros k Hk. rewrite <- Nat2Z.inj_mod.
    destruct (Nat.eqb_spec (y mod k) 0) as [A|A];
      destruct (Z.eqb_spec (Z.of_nat (y mod k)) 0) as [B|B];
      try reflexivity; lia. }
  rewrite (E 4), (E 100), (E 400) by discriminate. reflexivity.
Qed.

(** The days before a year and the length of the year before it. *)
Lemma days_before_year_succ (y : nat) :
  days_before_year (Z.of_nat (S y))
  = (days_before_year (Z.of_nat y) + 365
     + (if is_leap y then 1 else 0))%Z.
Proof.
  rewrite is_leap_Z. unfold days_before_year. cbv zeta.
  replace (Z.of_nat (S y) - 1)%Z with (Z.of_nat y) by lia.
  set (Y := Z.of_nat y).
  pose proof (div_step 4 Y ltac:(lia)) as A.
  pose proof (div_step 100 Y ltac:(lia)) as B.
  pose proof (div_step 400 Y ltac:(lia)) as C.
  destruct (Z.eqb_spec (Y mod 4) 0) as [E4|E4];
    destruct (Z.eqb_spec (Y mod 100) 0) as [E100|E100];
    destruct (Z.eqb_spec (Y mod 400) 0) as [E400|E400];
    cbn [andb orb negb]; try lia;
    exfalso; clear A B C; Z.div_mod_to_equations; lia.
Qed.

Lemma year_length (y : nat) :
  days_before_month_aux y 13 = 365 + (if is_leap y then 1 else 0).
Proof.
  cbn [days_before_month_aux days_in_month]. destruct (is_leap y); reflexivity.
Qed.

(** [d + timedelta(days=1)] has the next ordinal. *)
Lemma toordinal_next_day (d : Date) :
  valid_date d -> (toordinal (next_day d) = toordinal d + 1)%Z.
Proof.
  intros V. apply valid_date_bounds in V.
  destruct d as [y m dd]. unfold next_day, toordinal, days_before_month.
  cbn [year month day] in *.
  destruct (Nat.ltb_spec dd (days_in_month y m)) as [D|D];
    cbn [year month day]; [lia|].
  destruct (Nat.ltb_spec m 12) as [M|M]; cbn [year month day].
  - cbn [days_before_month_aux]. lia.
  - assert (m = 12) by lia. subst m.
    rewrite days_before_year_succ.
    pose proof (year_length y) as Y.
    change (days_before_month_aux y 13)
      with (days_before_month_aux y 12 + days_in_month y 12) in Y.
    change (days_before_month_aux (S y) 1) with 0.
    destruct (is_leap y); lia.
Qed.

Lemma days_from_length (e : Date) :
  valid_date e ->
  forall fuel s, valid_date s ->
  span e < span s + fuel -> span s <= span e ->
  Z.of_nat (length (days_from fuel s e)) = (toordinal e - toordinal s + 1)%Z.
Proof.
  intros He. induction fuel as [|k IH]; intros s Hs F B; [lia|].
  cbn [days_from]. rewrite (date_leb_span s e Hs He).
  replace (span s <=? span e) with true by (symmetry; apply Nat.leb_le; lia).
  cbn [length]. destruct (Nat.eq_dec (span s) (span e)) as [E|N].
  - apply (span_inj s e Hs He) in E. subst s.
    replace (days_from k (next_day e) e) with (@nil Date); [cbn; lia|].
    destruct k; [reflexivity|]. cbn [days_from].
    rewrite next_day_not_before. reflexivity.
  - destruct (next_day_least s e Hs He) as [V L]; [lia|].
    rewrite Nat2Z.inj_succ, (IH _ V) by lia.
    rewrite (toordinal_next_day s Hs). lia.
Qed.

(** X21.  The time range of the chart requests covers exactly the days of
    the daily index [pd.date_range(start_date, end_date)]: it starts at a
    midnight, ends one second before a midnight, and holds 86400 seconds
    for every day of the index; so its start lies before its end. *)
Theorem chart_request_covers_the_days (w : DataWorker) :
  valid_date (start_date w) -> valid_date (end_date w) ->
  date_le (start_date w) (end_date w) ->
  let from_ts := utc_timestamp (start_date w) 0 0 0 in
  let to_ts := utc_timestamp (end_date w) 23 59 59 in
  (to_ts + 1 - from_ts
   = 86400 * Z.of_nat (length (date_range (start_date w) (end_date w))))%Z
  /\ (from_ts mod 86400 = 0)%Z
  /\ (from_ts < to_ts)%Z.
Proof.
  intros Hs He L from_ts to_ts.
  assert (N : Z.of_nat (length (date_range (start_date w) (end_date w)))
              = (toordinal (end_date w) - toordinal (start_date w) + 1)%Z).
  { unfold date_le in L. rewrite (date_leb_span _ _ Hs He) in L.
    apply Nat.leb_le in L.
    apply days_from_length; try assumption.
    pose proof (valid_day_le_31 _ Hs). pose proof (valid_day_le_31 _ He).
    apply valid_date_bounds in Hs, He. unfold span in *. lia. }
  pose proof (date_range_nonempty _ _ L) as NE.
  assert (P : (1 <= Z.of_nat (length (date_range (start_date w) (end_date w))))%Z).
  { destruct (date_range (start_date w) (end_date w));
      [contradiction NE; reflexivity|cbn [length]; lia]. }
  subst from_ts to_ts. unfold utc_timestamp.
  split; [lia|]. split; [|lia].
  replace ((toordinal (start_date w) - 719163) * 86400 + 0 * 3600 + 0 * 60 + 0)%Z
    with ((toordinal (start_date w) - 719163) * 86400)%Z by lia.
  apply Z.mod_mul. lia.
Qed.

Lemma chart_request_covers_the_days_witness :
  let w := Sample.worker in
  (utc_timestamp (end_date w) 23 59 59 + 1 - utc_timestamp (start_date w) 0 0 0
   = 86400 * Z.of_nat (length (date_range (start_date w) (end_date w))))%Z
  /\ (utc_timestamp (start_date w) 0 0 0 mod 86400 = 0)%Z
  /\ (utc_timestamp (start_date w) 0 0 0
      < utc_timestamp (end_date w) 23 59 59)%Z.
Proof.
  apply (chart_request_covers_the_days Sample.worker); vm_compute; reflexivity.
Defined.
